(** * pangeo_forge.recipe: a shallow embedding and its verified properties

    The development follows [pangeo_forge/recipe.py]:
    - [Py]       exceptions, the result type and the state-and-error monad
                 in which the recipe's methods run;
    - [Json]     the fragment of Python's [json] module the recipe uses for
                 its metadata records;
    - [PyDict]   insertion-ordered dictionaries;
    - the collaborators ([utils], [patterns], xarray and zarr);
    - the recipe classes themselves, and the theorems about them. *)

From Stdlib Require Import ZArith String Ascii List Lia.
From Stdlib Require Import Decimal DecimalString DecimalZ DecimalPos DecimalFacts.
From stdpp Require Import base option list gmap strings.
From Equations Require Import Equations.

Local Open Scope Z_scope.

(* ===================================================================== *)
(** * Python exceptions and results *)
(* ===================================================================== *)

Module Py.

(** The exception classes the recipe can meet.  [FileNotFoundError],
    [PermissionError], [ConnectionError] and [TimeoutError] are subclasses
    of [OSError], of which [IOError] is an alias in Python 3;
    [GroupNotFoundError] is zarr's own (a [ValueError] subclass). *)
Inductive exn : Type :=
| FileNotFoundError
| PermissionError
| ConnectionError
| TimeoutError
| OSError
| GroupNotFoundError
| KeyError
| IndexError
| ValueError
| TypeError
| StopIteration
| NameError
| JSONDecodeError.

#[global] Instance exn_eq_dec : EqDecision exn.
Proof. solve_decision. Defined.

(** [isinstance(e, IOError)]. *)
Definition is_IOError (e : exn) : bool :=
  match e with
  | FileNotFoundError | PermissionError | ConnectionError | TimeoutError | OSError => true
  | _ => false
  end.

Inductive result (A : Type) : Type :=
| Ok (a : A)
| Raise (e : exn).
Arguments Ok {A} a.
Arguments Raise {A} e.

Definition rbind {A B} (r : result A) (k : A -> result B) : result B :=
  match r with
  | Ok a => k a
  | Raise e => Raise e
  end.

Definition is_ok {A} (r : result A) : bool :=
  match r with Ok _ => true | Raise _ => false end.

Definition of_option {A} (e : exn) (o : option A) : result A :=
  match o with Some a => Ok a | None => Raise e end.

(** A list comprehension whose body may raise. *)
Fixpoint mapR {A B} (f : A -> result B) (l : list A) : result (list B) :=
  match l with
  | [] => Ok []
  | a :: l' =>
      rbind (f a) (fun b => rbind (mapR f l') (fun bs => Ok (b :: bs)))
  end.

(** [[x for x in l if cond(x)]] with a condition that may raise. *)
Fixpoint filterR {A} (cond : A -> result bool) (l : list A) : result (list A) :=
  match l with
  | [] => Ok []
  | a :: l' =>
      rbind (cond a) (fun b =>
      rbind (filterR cond l') (fun l'' => Ok (if b then a :: l'' else l'')))
  end.

(** A loop that threads an accumulator and may raise. *)
Fixpoint foldR {A B} (f : B -> A -> result B) (acc : B) (l : list A) : result B :=
  match l with
  | [] => Ok acc
  | a :: l' => rbind (f acc a) (fun acc' => foldR f acc' l')
  end.

(** [sep.join(parts)] *)
Fixpoint str_join (sep : string) (parts : list string) : string :=
  match parts with
  | [] => EmptyString
  | [p] => p
  | p :: ps => p +:+ sep +:+ str_join sep ps
  end.

(** Truthiness of an [Optional[int]]: [None] and [0] are both false. *)
Definition truthy (n : option Z) : bool :=
  match n with
  | Some z => negb (z =? 0)
  | None => false
  end.

(** [l[i]] and [l[:i]] with Python's negative indices. *)
Definition py_index {A} (l : list A) (i : Z) : result A :=
  let j := if i <? 0 then Z.of_nat (length l) + i else i in
  if j <? 0 then Raise IndexError
  else of_option IndexError (l !! Z.to_nat j).

Definition py_slice_to {A} (l : list A) (i : Z) : list A :=
  let j := if i <? 0 then Z.of_nat (length l) + i else i in
  take (Z.to_nat j) l.

(** [sum(l)] *)
Definition sum (l : list Z) : Z := foldr Z.add 0 l.

(** [l.index(x)]: the first position of [x], a [ValueError] without one. *)
Fixpoint list_index `{EqDecision A} (x : A) (l : list A) : result Z :=
  match l with
  | [] => Raise ValueError
  | y :: l' =>
      if decide (y = x) then Ok 0
      else match list_index x l' with
           | Ok i => Ok (i + 1)
           | Raise e => Raise e
           end
  end.

(** [enumerate(l)] *)
Definition enumerate {A} (l : list A) : list (Z * A) :=
  zip (seqZ 0 (Z.of_nat (length l))) l.

End Py.
Export Py.

Declare Scope result_scope.
Delimit Scope result_scope with result.
Notation "'let*' x := r 'in' k" := (rbind r (fun x => k))
  (at level 10, x pattern, r at level 100, k at level 200) : result_scope.
Local Open Scope result_scope.

(* ===================================================================== *)
(** * Python's [json], on the values the metadata records hold *)
(* ===================================================================== *)

Module Json.

#[local] Set Warnings "-register-all".

(** JSON documents built from integers, strings, arrays and objects: the
    records of the recipe (a global record holding a list of lengths and
    a per-input record holding a table of dimension sizes) need no more.
    An object keeps its members in order, as a Python [dict] does. *)
Inductive t : Type :=
| JInt (z : Z)
| JStr (s : string)
| JList (l : list t)
| JDict (kv : list (string * t)).

Definition quote : ascii := ascii_of_nat 34.
Definition backslash : ascii := ascii_of_nat 92.

(** ** [json.dumps] *)

Definition dumps_int (z : Z) : string := NilZero.string_of_int (Z.to_int z).

Fixpoint escape (s : string) : string :=
  match s with
  | EmptyString => EmptyString
  | String c s' =>
      if (Ascii.eqb c quote || Ascii.eqb c backslash)%bool
      then String backslash (String c (escape s'))
      else String c (escape s')
  end.

Definition dumps_str (s : string) : string :=
  String quote (escape s +:+ String quote EmptyString).

(** Python's default separators: [", "] between items and [": "] after a key. *)
Fixpoint dumps (v : t) : string :=
  match v with
  | JInt z => dumps_int z
  | JStr s => dumps_str s
  | JList l => "[" +:+ str_join ", " (map dumps l) +:+ "]"
  | JDict kv =>
      "{" +:+ str_join ", " (map (fun p => dumps_str (fst p) +:+ ": " +:+ dumps (snd p)) kv) +:+ "}"
  end.

(** ** [json.loads] *)

Definition is_ws (c : ascii) : bool :=
  (Ascii.eqb c " " || Ascii.eqb c (ascii_of_nat 10)
   || Ascii.eqb c (ascii_of_nat 13) || Ascii.eqb c (ascii_of_nat 9))%bool.

Fixpoint skip_ws (s : string) : string :=
  match s with
  | String c s' => if is_ws c then skip_ws s' else s
  | EmptyString => EmptyString
  end.

Definition is_digit (c : ascii) : bool :=
  let n := nat_of_ascii c in (Nat.leb 48 n && Nat.leb n 57)%bool.

(** The longest prefix of decimal digits, and what follows it. *)
Fixpoint span_digits (s : string) : string * string :=
  match s with
  | String c s' =>
      if is_digit c
      then let '(d, r) := span_digits s' in (String c d, r)
      else (EmptyString, s)
  | EmptyString => (EmptyString, EmptyString)
  end.

Definition starts_with (p : ascii -> bool) (s : string) : bool :=
  match s with
  | String c _ => p c
  | EmptyString => false
  end.

Definition is_float_mark (c : ascii) : bool :=
  (Ascii.eqb c "." || Ascii.eqb c "e" || Ascii.eqb c "E")%bool.

(** A JSON integer: an optional minus sign, then either [0] or a digit
    string that does not start with [0].  A fraction or an exponent would
    make the number a float, which the model does not cover: it is
    reported as a decoding error. *)
Definition loads_int (s : string) : option (Z * string) :=
  let neg := starts_with (Ascii.eqb "-") s in
  let body := match s with
              | String _ s' => if neg then s' else s
              | EmptyString => s
              end in
  let '(digits, rest) := span_digits body in
  match digits with
  | EmptyString => None
  | String d ds =>
      if (Ascii.eqb d "0" && negb (String.eqb ds EmptyString))%bool then None
      else if starts_with is_float_mark rest then None
      else
        match NilZero.int_of_string (if neg then String "-" digits else digits) with
        | Some i => Some (Z.of_int i, rest)
        | None => None
        end
  end.

(** The body of a string literal, after its opening quote. *)
Fixpoint loads_str_body (s : string) : option (string * string) :=
  match s with
  | EmptyString => None
  | String c s' =>
      if Ascii.eqb c quote then Some (EmptyString, s')
      else if Ascii.eqb c backslash then
        match s' with
        | String c' s'' =>
            if (Ascii.eqb c' quote || Ascii.eqb c' backslash)%bool then
              match loads_str_body s'' with
              | Some (b, r) => Some (String c' b, r)
              | None => None
              end
            else None
        | EmptyString => None
        end
      else
        match loads_str_body s' with
        | Some (b, r) => Some (String c b, r)
        | None => None
        end
  end.

(** The next token is the character [ch]: what follows it. *)
Definition expect (ch : ascii) (s : string) : option string :=
  match skip_ws s with
  | String c s' => if Ascii.eqb c ch then Some s' else None
  | EmptyString => None
  end.

(** Recursive descent; [fuel] bounds the number of nested calls. *)
Fixpoint loads_value (fuel : nat) (s : string) : option (t * string) :=
  match fuel with
  | O => None
  | S fuel' =>
      match skip_ws s with
      | EmptyString => None
      | String c s1 as s0 =>
          if Ascii.eqb c "[" then
            match expect "]" s1 with
            | Some s2 => Some (JList [], s2)
            | None =>
                match loads_items fuel' s1 with
                | Some (l, r) => Some (JList l, r)
                | None => None
                end
            end
          else if Ascii.eqb c "{" then
            match expect "}" s1 with
            | Some s2 => Some (JDict [], s2)
            | None =>
                match loads_members fuel' s1 with
                | Some (kv, r) => Some (JDict kv, r)
                | None => None
                end
            end
          else if Ascii.eqb c quote then
            match loads_str_body s1 with
            | Some (b, r) => Some (JStr b, r)
            | None => None
            end
          else
            match loads_int s0 with
            | Some (z, r) => Some (JInt z, r)
            | None => None
            end
      end
  end
with loads_items (fuel : nat) (s : string) : option (list t * string) :=
  match fuel with
  | O => None
  | S fuel' =>
      match loads_value fuel' s with
      | Some (v, r) =>
          match expect "," r with
          | Some r1 =>
              match loads_items fuel' r1 with
              | Some (vs, r2) => Some (v :: vs, r2)
              | None => None
              end
          | None =>
              match expect "]" r with
              | Some r1 => Some ([v], r1)
              | None => None
              end
          end
      | None => None
      end
  end
with loads_members (fuel : nat) (s : string) : option (list (string * t) * string) :=
  match fuel with
  | O => None
  | S fuel' =>
      match expect quote s with
      | Some s1 =>
          match loads_str_body s1 with
          | Some (k, r) =>
              match expect ":" r with
              | Some r1 =>
                  match loads_value fuel' r1 with
                  | Some (v, r2) =>
                      match expect "," r2 with
                      | Some r3 =>
                          match loads_members fuel' r3 with
                          | Some (kv, r4) => Some ((k, v) :: kv, r4)
                          | None => None
                          end
                      | None =>
                          match expect "}" r2 with
                          | Some r3 => Some ([(k, v)], r3)
                          | None => None
                          end
                      end
                  | None => None
                  end
              | None => None
              end
          | None => None
          end
      | None => None
      end
  end.

(** [json.loads]: one value, then nothing but white space. *)
Definition loads (s : string) : result t :=
  match loads_value (S (String.length s)) s with
  | Some (v, rest) =>
      match skip_ws rest with
      | EmptyString => Ok v
      | _ => Raise JSONDecodeError
      end
  | None => Raise JSONDecodeError
  end.

(** [d[k]] on a decoded document: a missing key is a [KeyError], and
    subscripting anything but an object with a string is a [TypeError].
    When a document repeats a key, the last member wins. *)
Fixpoint assoc (k : string) (kv : list (string * t)) : option t :=
  match kv with
  | [] => None
  | (k', v) :: kv' => if String.eqb k' k then Some v else assoc k kv'
  end.

Definition getitem (d : t) (k : string) : result t :=
  match d with
  | JDict kv => of_option KeyError (assoc k (rev kv))
  | _ => Raise TypeError
  end.

(** A decoded value used as a number, or as a list of numbers: anything
    else is a [TypeError] at its first arithmetic use, which the model
    raises where the value is read. *)
Definition as_int (v : t) : result Z :=
  match v with
  | JInt z => Ok z
  | _ => Raise TypeError
  end.

Definition as_int_list (v : t) : result (list Z) :=
  match v with
  | JList l => mapR as_int l
  | _ => Raise TypeError
  end.

End Json.

(* ===================================================================== *)
(** * Keys and insertion-ordered dictionaries *)
(* ===================================================================== *)

(** An input key or a chunk key is a Python tuple of hashable values:
    [(3,)] for the single-sequence recipe, [("temp", 3)] for the
    multi-variable one. *)
Inductive atom : Type :=
| AInt (z : Z)
| AStr (s : string).

#[global] Instance atom_eq_dec : EqDecision atom.
Proof. solve_decision. Defined.

Abbreviation key := (list atom).

(** [str(k)] *)
Definition py_str (a : atom) : string :=
  match a with
  | AInt z => Json.dumps_int z
  | AStr s => s
  end.

(** [key[i]] *)
Definition key_get (k : key) (i : nat) : result atom := of_option IndexError (k !! i).

(** An atom used as a number. *)
Definition as_int (a : atom) : result Z :=
  match a with
  | AInt z => Ok z
  | AStr _ => Raise TypeError
  end.

Module PyDict.
Section dict.
Context {K V : Type} `{EqDecision K}.

(** A [dict] keeps its keys in insertion order. *)
Definition t : Type := list (K * V).

Fixpoint get (d : t) (k : K) : option V :=
  match d with
  | [] => None
  | (k', v) :: d' => if decide (k' = k) then Some v else get d' k
  end.

(** [d[k] = v]: a known key keeps its place, a new one goes last. *)
Fixpoint set (d : t) (k : K) (v : V) : t :=
  match d with
  | [] => [(k, v)]
  | (k', v') :: d' =>
      if decide (k' = k) then (k', v) :: d' else (k', v') :: set d' k v
  end.

Definition keys (d : t) : list K := map fst d.
Definition values (d : t) : list V := map snd d.

(** [{k: v for k, v in pairs}] *)
Definition of_pairs (pairs : list (K * V)) : t :=
  fold_left (fun d p => set d (fst p) (snd p)) pairs [].

(** [d[k]] *)
Definition getitem (d : t) (k : K) : result V := of_option KeyError (get d k).
End dict.
Arguments t : clear implicits.
End PyDict.

(* ===================================================================== *)
(** * The collaborators in [utils] and [patterns] *)
(* ===================================================================== *)

(** Modelled from the spec: [utils.chunked_iterable], which is not part of
    the source file.  "ChunkKeys group consecutive InputKeys into
    fixed-size batches" (§4.1), the batches partition the inputs and keep
    their order (§3), and the last batch may hold fewer inputs.  A batch
    size that is not positive yields no batch. *)
Equations? chunks_of {A : Type} (size : nat) (l : list A) : list (list A)
  by wf (length l) lt :=
  chunks_of 0 _ := [];
  chunks_of (S n) [] := [];
  chunks_of (S n) (x :: l) := (x :: take n l) :: chunks_of (S n) (drop n l).
Proof. rewrite length_drop. lia. Qed.

Definition chunked_iterable {A : Type} (iterable : list A) (size : Z) : list (list A) :=
  chunks_of (Z.to_nat size) iterable.

(** The half-open intervals [[start, stop)] that consecutive lengths
    occupy, counted from [from]. *)
Fixpoint bounds_from (from : Z) (lens : list Z) : list (Z * Z) :=
  match lens with
  | [] => []
  | n :: lens' => (from, from + n) :: bounds_from (from + n) lens'
  end.

(** Modelled from the spec: [utils.calc_chunk_conflicts], which is not part
    of the source file.  It builds "from cumulative length prefix sums and
    TargetChunkScheme boundaries, a global table mapping every InputKey's
    own [[start,stop)] interval to the physical chunk ordinals it overlaps";
    "zero-length inputs produce an empty interval and no conflicts", and
    the bounds are half-open (§4.3).  The chunk size is positive (§3). *)
Definition calc_chunk_conflicts (chunks : list Z) (zchunks : Z) : list (list Z) :=
  map (fun b : Z * Z =>
         let '(start, stop) := b in
         if stop <=? start then []
         else seqZ (start / zchunks) ((stop - 1) / zchunks - start / zchunks + 1))
      (bounds_from 0 chunks).

(** Modelled from the spec: [patterns.ExplicitURLSequence], which is not
    part of the source file.  For the single-sequence pattern
    "InputKey=(i,)" (§4.1): iterating yields [((i,), url)] in source
    order. *)
Definition ExplicitURLSequence (urls : list string) : list (key * string) :=
  map (fun p : Z * string => ([AInt (fst p)], snd p)) (enumerate urls).

(** Modelled from the spec: [patterns.VariableSequencePattern], which is
    not part of the source file: "a finite set of variable names × one
    shared concatenation axis; InputKey=(variable, i)" (§4.1).  The
    pattern holds the two key lists of [keys] (under ["variable"] and under
    the one other name) and the file name of each combination; iterating
    yields the combinations variable by variable. *)
Record VariableSequencePattern : Type := {
  keys_variable : list string;
  keys_other : list atom;
  format : string -> atom -> string;
}.

Definition iter_pattern (p : VariableSequencePattern) : list (key * string) :=
  v ← keys_variable p;
  o ← keys_other p;
  [([AStr v; o], format p v o)].


(* ===================================================================== *)
(** * xarray datasets and the zarr store *)
(* ===================================================================== *)

(** An array has named axes with their sizes and an element at every
    index (a list of one coordinate per axis); elements at indices outside
    the shape are never observed.  Elements are integers. *)
Record DataArray : Type := {
  axes : list (string * Z);
  data : list Z -> Z;
  encoding_chunks : option (list Z);       (* [encoding["chunks"]] *)
}.

Definition dims (a : DataArray) : list string := map fst (axes a).
Definition shape (a : DataArray) : list Z := map snd (axes a).

(** [ds.variables], in order. *)
Definition Dataset : Type := list (string * DataArray).

(** [var.get_axis_num(dim)] *)
Definition get_axis_num (a : DataArray) (dim : string) : result Z :=
  list_index dim (dims a).

Definition has_dim (dim : string) (a : DataArray) : bool := bool_decide (dim ∈ dims a).

(** [ds.drop_vars(names)] *)
Definition drop_vars (ds : Dataset) (names : list string) : Dataset :=
  filter (fun p => fst p ∉ names) ds.

(** An array of the zarr store. *)
Record ZArray : Type := {
  z_axes : list (string * Z);
  z_chunks : list Z;
  z_fill : Z;
  z_data : list Z -> Z;
}.

Definition z_dims (a : ZArray) : list string := map fst (z_axes a).
Definition z_shape (a : ZArray) : list Z := map snd (z_axes a).

(** A zarr group: its arrays by name. *)
Abbreviation ZGroup := (gmap string ZArray).

Fixpoint in_bounds (shp idx : list Z) : bool :=
  match shp, idx with
  | [], [] => true
  | n :: shp', i :: idx' => (0 <=? i) && (i <? n) && in_bounds shp' idx'
  | _, _ => false
  end.

(** [arr.resize(new_shape)]: elements inside both shapes are kept, the new
    ones hold the fill value. *)
Definition zarr_resize (arr : ZArray) (new_shape : list Z) : ZArray :=
  {| z_axes := zip (z_dims arr) new_shape;
     z_chunks := z_chunks arr;
     z_fill := z_fill arr;
     z_data := fun idx => if in_bounds (z_shape arr) idx then z_data arr idx else z_fill arr |}.

(** [arr[:] = value] *)
Definition zarr_fill (arr : ZArray) (value : Z) : ZArray :=
  {| z_axes := z_axes arr;
     z_chunks := z_chunks arr;
     z_fill := z_fill arr;
     z_data := fun _ => value |}.

(** [arr[..., start:stop, ...] = src] along one axis; the slice is clipped
    to the array's extent. *)
Definition zarr_write_region (arr : ZArray) (axis : nat) (start stop : Z)
    (src : list Z -> Z) : ZArray :=
  {| z_axes := z_axes arr;
     z_chunks := z_chunks arr;
     z_fill := z_fill arr;
     z_data := fun idx =>
       match idx !! axis with
       | Some i =>
           if (start <=? i) && (i <? stop) then src (<[axis := i - start]> idx)
           else z_data arr idx
       | None => z_data arr idx
       end |}.

(** The array [ds.to_zarr] creates for a variable. *)
Definition zarr_of_variable (v : DataArray) : ZArray :=
  {| z_axes := axes v;
     z_chunks := default (shape v) (encoding_chunks v);
     z_fill := 0;
     z_data := data v |}.

(** The variable [xr.open_zarr] shows for an array. *)
Definition variable_of_zarr (a : ZArray) : DataArray :=
  {| axes := z_axes a;
     data := z_data a;
     encoding_chunks := Some (z_chunks a) |}.

(* ===================================================================== *)
(** * The world a recipe runs in *)
(* ===================================================================== *)

(** What lies behind [target.get_mapper()], [metadata_cache.get_mapper()]
    and the input files.  A pending fault is an I/O failure of the target
    store that the next access to it will meet. *)
Record World : Type := {
  target : option ZGroup;
  target_fault : option exn;
  metadata_cache : gmap string string;
  sources : gmap string Dataset;
}.

Definition with_target (t : option ZGroup) (w : World) : World :=
  {| target := t; target_fault := target_fault w;
     metadata_cache := metadata_cache w; sources := sources w |}.

Definition clear_fault (w : World) : World :=
  {| target := target w; target_fault := None;
     metadata_cache := metadata_cache w; sources := sources w |}.

Definition with_metadata (m : gmap string string) (w : World) : World :=
  {| target := target w; target_fault := target_fault w;
     metadata_cache := m; sources := sources w |}.

(** Computations that change the world and may raise; a raised exception
    keeps the changes made before it. *)
Definition M (A : Type) : Type := World -> result A * World.

Definition ret {A} (a : A) : M A := fun w => (Ok a, w).
Definition raise {A} (e : exn) : M A := fun w => (Raise e, w).

Definition bind {A B} (m : M A) (k : A -> M B) : M B :=
  fun w =>
    match m w with
    | (Ok a, w') => k a w'
    | (Raise e, w') => (Raise e, w')
    end.

(** A computation that only reads the world. *)
Definition reading {A} (f : World -> result A) : M A := fun w => (f w, w).

(** [try: body  except handled: handler] *)
Definition try_except {A} (body : M A) (handled : exn -> bool) (handler : M A) : M A :=
  fun w =>
    match body w with
    | (Ok a, w') => (Ok a, w')
    | (Raise e, w') => if handled e then handler w' else (Raise e, w')
    end.

(** [for x in l: body(x)] *)
Fixpoint for_each {A} (l : list A) (body : A -> M unit) : M unit :=
  match l with
  | [] => ret tt
  | x :: l' => bind (body x) (fun _ => for_each l' body)
  end.

Declare Scope M_scope.
Delimit Scope M_scope with M.
Notation "x <- m ;; k" := (bind m (fun x => k))
  (at level 100, m at next level, right associativity) : M_scope.
Notation "m ;; k" := (bind m (fun _ => k))
  (at level 100, right associativity) : M_scope.

(** Access to the target store: a pending fault is raised, once. *)
Definition access_target : M (option ZGroup) :=
  fun w =>
    match target_fault w with
    | Some e => (Raise e, clear_fault w)
    | None => (Ok (target w), w)
    end.

Definition put_target (g : ZGroup) : M unit := fun w => (Ok tt, with_target (Some g) w).

(** [xr.open_zarr(target_mapper)]: there must be a group to open. *)
Definition xr_open_zarr : M Dataset :=
  (t <- access_target ;;
   match t with
   | Some g => ret (map (fun p => (fst p, variable_of_zarr (snd p))) (map_to_list g))
   | None => raise GroupNotFoundError
   end)%M.

(** [zarr.open_group(target_mapper)], in its default mode: a missing group
    is created empty. *)
Definition zarr_open_group : M ZGroup :=
  (t <- access_target ;;
   match t with
   | Some g => ret g
   | None => put_target ∅ ;; ret ∅
   end)%M.

(** [ds.to_zarr(target_mapper, mode="a", compute=False)] on a loaded
    dataset: every variable is written as an array of that name, new or
    replacing the one there. *)
Definition to_zarr_append (ds : Dataset) : M unit :=
  (t <- access_target ;;
   put_target (foldl (fun g p => <[fst p := zarr_of_variable (snd p)]> g) (default ∅ t) ds))%M.

(** [ds.to_zarr(target_mapper, region={dim: slice(start, stop)})].  Every
    variable must have the region's dimension and an array of its name in
    the store; its data is written along that dimension, into the region. *)
Definition write_variable_region (dim : string) (start stop : Z)
    (g : ZGroup) (p : string * DataArray) : result ZGroup :=
  let* axis := get_axis_num (snd p) dim in
  let* arr := of_option KeyError (g !! fst p) in
  Ok (<[fst p := zarr_write_region arr (Z.to_nat axis) start stop (data (snd p))]> g).

Fixpoint write_variables_region (dim : string) (start stop : Z)
    (g : ZGroup) (ds : Dataset) : result ZGroup :=
  match ds with
  | [] => Ok g
  | p :: ds' =>
      let* g' := write_variable_region dim start stop g p in
      write_variables_region dim start stop g' ds'
  end.

Definition to_zarr_region (ds : Dataset) (dim : string) (start stop : Z) : M unit :=
  (t <- access_target ;;
   match t with
   | None => raise GroupNotFoundError
   | Some g =>
       if forallb (has_dim dim) (map snd ds) then
         match write_variables_region dim start stop g ds with
         | Ok g' => put_target g'
         | Raise e => raise e
         end
       else raise ValueError
   end)%M.


(* ===================================================================== *)
(** * The recipe classes *)
(* ===================================================================== *)

(** The file name of the global recipe metadata in the metadata cache:
    written once (by [prepare_target]), read many times (by [store_chunk]). *)
Definition _GLOBAL_METADATA_KEY : string := "pangeo-forge-recipe-metadata.json".

Definition _encode_key (k : key) : string := str_join "-" (map py_str k).

Definition _input_metadata_fname (input_key : key) : string :=
  "input-meta-" +:+ _encode_key input_key +:+ ".json".

Definition _chunk_metadata_fname (chunk_key : key) : string :=
  "chunk-meta-" +:+ _encode_key chunk_key +:+ ".json".

(** The fields of the [NetCDFtoZarrRecipe] dataclass.  [cache_input] is
    the truth value of [self.cache_input], the property that [BaseRecipe]
    declares and a concrete recipe supplies.  The options handed on to
    xarray and fsspec are part of the collaborators below. *)
Record Config : Type := {
  sequence_dim : string;
  inputs_per_chunk : Z;
  nitems_per_input : option Z;
  cache_inputs : bool;
  cache_input : bool;
  copy_input_to_local_file : bool;
  consolidate_zarr : bool;
  delete_input_encoding : bool;
  process_input : option (Dataset -> string -> Dataset);
  process_chunk : option (Dataset -> Dataset);
  target_chunks : PyDict.t string Z;
}.

(** The two subclasses, by what they are built from. *)
Inductive Pattern : Type :=
| Sequential (input_urls : list string)
| MultiVar (input_pattern : VariableSequencePattern).

(** A constructed recipe: the fields and what [__post_init__] derives. *)
Record Recipe : Type := {
  config :> Config;
  pattern : Pattern;
  _cache_metadata : bool;
  _sequence_dim_chunks : Z;
  _inputs : PyDict.t key string;
  _chunks_inputs : PyDict.t key (list key);
  _n_inputs_along_sequence : Z;
  _init_chunks : list key;
}.

(** ** [NetCDFtoZarrRecipe.__post_init__] *)
Definition base_post_init (c : Config) : result (bool * Z) :=
  let _cache_metadata := bool_decide (nitems_per_input c = None) in
  let target_sequence_dim_chunks := PyDict.get (target_chunks c) (sequence_dim c) in
  if bool_decide (nitems_per_input c = None)
     && bool_decide (target_sequence_dim_chunks = None)
  then Raise ValueError
  else if truthy target_sequence_dim_chunks
  then Ok (_cache_metadata, default 0 target_sequence_dim_chunks)
  else
    match nitems_per_input c with
    | Some n => Ok (_cache_metadata, n * inputs_per_chunk c)
    | None => Raise TypeError
    end.

(** ** [NetCDFtoZarrSequentialRecipe.__post_init__] *)
Definition sequential_post_init (c : Config) (input_urls : list string) : result Recipe :=
  let* base := base_post_init c in
  let input_pattern := ExplicitURLSequence input_urls in
  let inputs := PyDict.of_pairs input_pattern in
  let chunks_inputs :=
    PyDict.of_pairs
      (map (fun p : Z * list key => ([AInt (fst p)], snd p))
           (enumerate (chunked_iterable (PyDict.keys inputs) (inputs_per_chunk c)))) in
  (* just the first chunk is needed to initialize the recipe *)
  let* first := of_option StopIteration (head (PyDict.keys chunks_inputs)) in
  Ok {| config := c;
        pattern := Sequential input_urls;
        _cache_metadata := fst base;
        _sequence_dim_chunks := snd base;
        _inputs := inputs;
        _chunks_inputs := chunks_inputs;
        _n_inputs_along_sequence := Z.of_nat (length inputs);
        _init_chunks := [first] |}.

(** ** [NetCDFtoZarrMultiVarSequentialRecipe.__post_init__] *)

(** [k[i] == a] *)
Definition key_at_is (i : nat) (a : atom) (k : key) : result bool :=
  let* b := key_get k i in Ok (bool_decide (b = a)).

(** One round of the loop [for vname in self._variables]. *)
Definition multivar_chunks_step (c : Config) (inputs : PyDict.t key string)
    (chunks_inputs : PyDict.t key (list key)) (vname : string)
    : result (PyDict.t key (list key)) :=
  (* a hacky way to filter *)
  let* selected := filterR (key_at_is 0 (AStr vname)) (PyDict.keys inputs) in
  let* sequence_keys := mapR (fun k => key_get k 1) selected in
  Ok (fold_left
        (fun (d : PyDict.t key (list key)) (p : Z * list atom) =>
           PyDict.set d [AStr vname; AInt (fst p)]
             (map (fun input_sequence_key => [AStr vname; input_sequence_key]) (snd p)))
        (enumerate (chunked_iterable sequence_keys (inputs_per_chunk c)))
        chunks_inputs).

Definition multivar_chunks_inputs (c : Config) (inputs : PyDict.t key string)
    (variables : list string) : result (PyDict.t key (list key)) :=
  foldR (multivar_chunks_step c inputs) [] variables.

Definition multivar_post_init (c : Config) (input_pattern : VariableSequencePattern)
    : result Recipe :=
  let* base := base_post_init c in
  let variables := keys_variable input_pattern in
  let inputs := PyDict.of_pairs (iter_pattern input_pattern) in
  let* chunks_inputs := multivar_chunks_inputs c inputs variables in
  (* should be the first chunk from each variable *)
  let* init_chunks := filterR (key_at_is 1 (AInt 0)) (PyDict.keys chunks_inputs) in
  Ok {| config := c;
        pattern := MultiVar input_pattern;
        _cache_metadata := fst base;
        _sequence_dim_chunks := snd base;
        _inputs := inputs;
        _chunks_inputs := chunks_inputs;
        _n_inputs_along_sequence := Z.of_nat (length (keys_other input_pattern));
        _init_chunks := init_chunks |}.

(** ** Keys and positions *)

Definition inputs_for_chunk (r : Recipe) (chunk_key : key) : result (list key) :=
  PyDict.getitem (_chunks_inputs r) chunk_key.

Definition iter_chunks (r : Recipe) : list key := PyDict.keys (_chunks_inputs r).

Definition iter_inputs (r : Recipe) : result (list key) :=
  let* groups := mapR (inputs_for_chunk r) (iter_chunks r) in
  Ok (concat groups).

Definition input_position (r : Recipe) (input_key : key) : result Z :=
  match pattern r with
  | Sequential _ => let* a := key_get input_key 0 in as_int a
  | MultiVar p => let* a := key_get input_key 1 in list_index a (keys_other p)
  end.

Definition chunk_position (r : Recipe) (chunk_key : key) : result Z :=
  match pattern r with
  | Sequential _ => let* a := key_get chunk_key 0 in as_int a
  | MultiVar _ => let* a := key_get chunk_key 1 in as_int a
  end.

(** ** Lengths along the sequence dimension *)

(** [meta_mapper.getitems(names)]: every name must be there. *)
Definition mapper_getitems (m : gmap string string) (names : list string)
    : result (PyDict.t string string) :=
  let* raw := mapR (fun k => of_option KeyError (m !! k)) names in
  Ok (PyDict.of_pairs (zip names raw)).

Definition get_input_meta (w : World) (input_keys : list key)
    : result (PyDict.t string Json.t) :=
  let meta_mapper := metadata_cache w in
  let* all_meta_raw := mapper_getitems meta_mapper (map _input_metadata_fname input_keys) in
  mapR (fun p : string * string =>
          let* m := Json.loads (snd p) in Ok (fst p, m))
       all_meta_raw.

Definition input_sequence_lens (r : Recipe) (w : World) (input_keys : list key)
    : result (list Z) :=
  if truthy (nitems_per_input r)
  then Ok (replicate (length input_keys) (default 0 (nitems_per_input r)))
  else
    (* read per-input metadata; this is distinct from global metadata *)
    let* input_meta := get_input_meta w input_keys in
    mapR (fun m =>
            let* d := Json.getitem m "dims" in
            let* n := Json.getitem d (sequence_dim r) in
            Json.as_int n)
         (PyDict.values input_meta).

(** [NetCDFtoZarrMultiVarSequentialRecipe.sequence_lens].  After the loop
    over the variables, [v] is still bound to the last of them, and that is
    the [v] of the comparison. *)
Definition multivar_sequence_lens (r : Recipe) (w : World) (p : VariableSequencePattern)
    : result (list Z) :=
  let variables := keys_variable p in
  let* lens_by_variable :=
    foldR (fun (lens_by_variable : PyDict.t string (list Z)) (v : string) =>
             let* inputs := iter_inputs r in
             let* variable_input_keys := filterR (key_at_is 0 (AStr v)) inputs in
             let* lens := input_sequence_lens r w variable_input_keys in
             Ok (PyDict.set lens_by_variable v lens))
          [] variables in
  let* v := of_option NameError (last variables) in
  let* lens_v := PyDict.getitem lens_by_variable v in
  let* first := of_option IndexError (head variables) in
  let* lens_first := PyDict.getitem lens_by_variable first in
  if negb (forallb id [bool_decide (lens_v = lens_first)])
  then Raise ValueError
  else Ok lens_first.

Definition sequence_lens (r : Recipe) (w : World) : result (list Z) :=
  match pattern r with
  | Sequential _ => let* inputs := iter_inputs r in input_sequence_lens r w inputs
  | MultiVar p => multivar_sequence_lens r w p
  end.

(** ** [region_and_conflicts_for_chunk] *)

(** [json.loads(metadata_cache.get_mapper()[_GLOBAL_METADATA_KEY])["input_sequence_lens"]] *)
Definition global_input_sequence_lens (w : World) : result (list Z) :=
  let* raw := of_option KeyError (metadata_cache w !! _GLOBAL_METADATA_KEY) in
  let* doc := Json.loads raw in
  let* lens := Json.getitem doc "input_sequence_lens" in
  Json.as_int_list lens.

(** A write region [{dim: slice(start, stop)}]. *)
Definition Region : Type := string * (Z * Z).

Definition region_and_conflicts_for_chunk (r : Recipe) (w : World) (chunk_key : key)
    : result (Region * list (list Z)) :=
  let* input_keys := inputs_for_chunk r chunk_key in
  let* bounds :=
    if truthy (nitems_per_input r) then
      let nitems := default 0 (nitems_per_input r) in
      let stride := nitems * inputs_per_chunk r in
      let* position := chunk_position r chunk_key in
      let start := position * stride in
      let stop := start + stride in
      Ok (start, stop, replicate (Z.to_nat (_n_inputs_along_sequence r)) nitems)
    else
      let* input_sequence_lens := global_input_sequence_lens w in
      let* first := py_index input_keys 0 in
      let* first_position := input_position r first in
      let start := sum (py_slice_to input_sequence_lens first_position) in
      let* lens :=
        mapR (fun k => let* i := input_position r k in py_index input_sequence_lens i)
             input_keys in
      let chunk_len := sum lens in
      let stop := start + chunk_len in
      Ok (start, stop, input_sequence_lens) in
  let '(start, stop, input_sequence_lens) := bounds in
  let all_chunk_conflicts :=
    calc_chunk_conflicts input_sequence_lens (_sequence_dim_chunks r) in
  let* this_chunk_conflicts :=
    mapR (fun k => let* i := input_position r k in py_index all_chunk_conflicts i)
         input_keys in
  Ok ((sequence_dim r, (start, stop)), this_chunk_conflicts).


(** The write region alone, and its length. *)
Definition region_for_chunk (r : Recipe) (w : World) (chunk_key : key) : result Region :=
  let* rc := region_and_conflicts_for_chunk r w chunk_key in Ok (fst rc).

Definition region_length (region : Region) : Z := snd (snd region) - fst (snd region).

(** Constructing a recipe of either class. *)
Definition post_init (c : Config) (pat : Pattern) : result Recipe :=
  match pat with
  | Sequential input_urls => sequential_post_init c input_urls
  | MultiVar input_pattern => multivar_post_init c input_pattern
  end.

(** ** Opening inputs, chunks and the target *)

Section lifecycle.

(** The collaborators: [xr.concat(dsets, dim, **xarray_concat_kwargs)]
    and [utils.fix_scalar_attr_encoding]. *)
Context (xr_concat : list Dataset -> string -> result Dataset).
Context (fix_scalar_attr_encoding : Dataset -> Dataset).

Definition clear_encoding (v : DataArray) : DataArray :=
  {| axes := axes v; data := data v; encoding_chunks := None |}.

(** [input_opener] and [xr.open_dataset]: the file must be there. *)
Definition open_input (r : Recipe) (w : World) (input_key : key) : result Dataset :=
  let* fname := PyDict.getitem (_inputs r) input_key in
  if copy_input_to_local_file r && negb (cache_input r) then Raise ValueError
  else
    let* ds := of_option FileNotFoundError (sources w !! fname) in
    let ds := fix_scalar_attr_encoding ds in
    let ds :=
      if delete_input_encoding r
      then map (fun p => (fst p, clear_encoding (snd p))) ds
      else ds in
    let ds :=
      match process_input r with
      | Some f => f ds fname
      | None => ds
      end in
    Ok ds.

Definition open_chunk (r : Recipe) (w : World) (chunk_key : key) : result Dataset :=
  let* inputs := inputs_for_chunk r chunk_key in
  let* dsets := mapR (open_input r w) inputs in
  let* ds := xr_concat dsets (sequence_dim r) in
  let ds :=
    match process_chunk r with
    | Some f => f ds
    | None => ds
    end in
  Ok ds.

Definition open_target : M Dataset := xr_open_zarr.

(** [ds.dims]: every dimension of the dataset with its size. *)
Definition dataset_dims (ds : Dataset) : PyDict.t string Z :=
  PyDict.of_pairs (p ← ds; axes (snd p)).

(** The per-input record; of [ds.to_dict(data=False)] only the table of
    dimension sizes is kept. *)
Definition cache_input_metadata (r : Recipe) (input_key : key) : M unit :=
  fun w =>
    match open_input r w input_key with
    | Ok ds =>
        let metadata :=
          Json.JDict [("dims", Json.JDict (map (fun p => (fst p, Json.JInt (snd p)))
                                             (dataset_dims ds)))] in
        (Ok tt,
         with_metadata (<[_input_metadata_fname input_key := Json.dumps metadata]>
                          (metadata_cache w)) w)
    | Raise e => (Raise e, w)
    end.

(** ** [expand_target_dim] *)

Definition zgroup_getitem (name : string) : M ZArray :=
  fun w => (of_option KeyError (default ∅ (target w) !! name), w).

Definition zgroup_setitem (name : string) (arr : ZArray) : M unit :=
  fun w => (Ok tt, with_target (Some (<[name := arr]> (default ∅ (target w)))) w).

(** [{v: ds[v].get_axis_num(dim) for v in ds.variables if dim in ds[v].dims}] *)
Definition sequence_axes_of (dim : string) (ds : Dataset) : result (PyDict.t string Z) :=
  let* pairs := mapR (fun p : string * DataArray =>
                        let* axis := get_axis_num (snd p) dim in Ok (fst p, axis))
                     (filter (fun p => dim ∈ dims (snd p)) ds) in
  Ok (PyDict.of_pairs pairs).

Definition expand_target_dim (dim : string) (dimsize : Z) : M unit :=
  (zgroup <- zarr_open_group ;;
   ds <- open_target ;;
   sequence_axes <- reading (fun _ => sequence_axes_of dim ds) ;;
   for_each sequence_axes (fun va : string * Z =>
     arr <- zgroup_getitem (fst va) ;;
     let shape := <[Z.to_nat (snd va) := dimsize]> (z_shape arr) in
     zgroup_setitem (fst va) (zarr_resize arr shape)) ;;
   (* now explicity write the sequence coordinate to avoid missing data
      when reopening *)
   g <- reading (fun w => Ok (default ∅ (target w))) ;;
   if bool_decide (is_Some (g !! dim))
   then (arr <- zgroup_getitem dim ;; zgroup_setitem dim (zarr_fill arr 0))
   else ret tt)%M.

(** ** [prepare_target] *)

(** The chunks [prepare_target] gives a variable before writing it. *)
Definition init_encoding_chunks (r : Recipe) (this_var : DataArray) : result (list Z) :=
  if bool_decide (target_chunks r <> []) then
    let* pairs :=
      mapR (fun dc : string * Z =>
              let* axis := get_axis_num this_var (fst dc) in Ok (axis, snd dc))
           (filter (fun dc => fst dc ∈ dims this_var) (target_chunks r)) in
    let chunks := PyDict.of_pairs pairs in
    Ok (map (fun ns : Z * Z => default (snd ns) (PyDict.get chunks (fst ns)))
            (enumerate (shape this_var)))
  else Ok (shape this_var).

Definition with_init_encoding (r : Recipe) (ds : Dataset) : result Dataset :=
  mapR (fun p : string * DataArray =>
          let* chunks := init_encoding_chunks r (snd p) in
          Ok (fst p, {| axes := axes (snd p); data := data (snd p);
                        encoding_chunks := Some chunks |}))
       ds.

(** [except (FileNotFoundError, IOError, zarr.errors.GroupNotFoundError)] *)
Definition target_probe_handled (e : exn) : bool :=
  bool_decide (e = FileNotFoundError) || is_IOError e || bool_decide (e = GroupNotFoundError).

Definition create_target (r : Recipe) : M unit :=
  for_each (_init_chunks r) (fun chunk_key =>
    (ds <- reading (fun w => open_chunk r w chunk_key) ;;
     (* need to have the data in memory to avoid weird chunk problems *)
     ds <- reading (fun _ => with_init_encoding r ds) ;;
     to_zarr_append ds)%M).

(** What [_prepare_target] does after its [try] statement. *)
Definition expand_and_record (r : Recipe) : M unit :=
  ((* Regardless of whether there is an existing dataset or we are creating
      a new one, we need to expand the sequence_dim to hold the entire
      expected size of the data *)
   input_sequence_lens <- reading (sequence_lens r) ;;
   let n_sequence := sum input_sequence_lens in
   expand_target_dim (sequence_dim r) n_sequence ;;
   if negb (truthy (nitems_per_input r)) then
     (* if nitems_per_input is not constant, we need to cache this info *)
     let recipe_meta :=
       Json.JDict [("input_sequence_lens", Json.JList (map Json.JInt input_sequence_lens))] in
     fun w =>
       (Ok tt, with_metadata (<[_GLOBAL_METADATA_KEY := Json.dumps recipe_meta]>
                                (metadata_cache w)) w)
   else ret tt)%M.

Definition _prepare_target (r : Recipe) : M unit :=
  (try_except
     (ds <- open_target ;; ret tt)
     target_probe_handled
     (create_target r) ;;
   expand_and_record r)%M.

(** ** [store_chunk] *)

(** [with lock_for_conflicts(conflicts): body].  The locks serialise
    writers that run at the same time; one call, run on its own, does
    what its body does. *)
Definition lock_for_conflicts {A} (conflicts : list (list Z)) (body : M A) : M A := body.

Definition _store_chunk (r : Recipe) (chunk_key : key) : M unit :=
  (ds_chunk <- reading (fun w => open_chunk r w chunk_key) ;;
   (* writing a region means that all the variables MUST have sequence_dim *)
   let to_drop :=
     map fst (filter (fun p => sequence_dim r ∉ dims (snd p)) ds_chunk) in
   let ds_chunk := drop_vars ds_chunk to_drop in
   rc <- reading (fun w => region_and_conflicts_for_chunk r w chunk_key) ;;
   let '(write_region, conflicts) := rc in
   lock_for_conflicts conflicts
     (to_zarr_region ds_chunk (fst write_region)
        (fst (snd write_region)) (snd (snd write_region))))%M.

(** ** [finalize_target] *)
Definition _finalize_target (r : Recipe) : M unit :=
  if consolidate_zarr r
  then (t <- access_target ;;
        match t with
        | Some _ => ret tt
        | None => raise GroupNotFoundError
        end)%M
  else ret tt.

End lifecycle.

(** ** [BaseRecipe.to_pipelines] *)

(** The four operations of a recipe, as the functions a stage holds. *)
Inductive Operation : Type :=
| op_cache_input
| op_prepare_target
| op_store_chunk
| op_finalize_target.

(** [rechunker.types.Stage]: a function, and the items to map it over
    ([None] for a function called once, without argument). *)
Record Stage : Type := {
  function : Operation;
  mappable : option (list key);
}.

(** What [to_pipelines] asks of a recipe. *)
Class BaseRecipe (R : Type) : Type := {
  base_iter_inputs : R -> result (list key);
  base_iter_chunks : R -> list key;
  (** [getattr(self, "cache_inputs", False)] *)
  base_cache_inputs : R -> option bool;
}.

#[global] Instance recipe_base : BaseRecipe Recipe := {|
  base_iter_inputs := iter_inputs;
  base_iter_chunks := iter_chunks;
  base_cache_inputs := fun r => Some (cache_inputs r);
|}.

Definition to_pipelines `{BaseRecipe R} (self : R) : result (list (list Stage)) :=
  let pipeline := [] in
  let* pipeline :=
    if default false (base_cache_inputs self) then
      let* inputs := base_iter_inputs self in
      Ok (pipeline ++ [{| function := op_cache_input; mappable := Some inputs |}])
    else Ok pipeline in
  let pipeline := pipeline ++ [{| function := op_prepare_target; mappable := None |}] in
  let pipeline :=
    pipeline ++ [{| function := op_store_chunk; mappable := Some (base_iter_chunks self) |}] in
  let pipeline := pipeline ++ [{| function := op_finalize_target; mappable := None |}] in
  let pipelines := [] in
  let pipelines := pipelines ++ [pipeline] in
  Ok pipelines.


(* ===================================================================== *)
(** * Concrete collaborators and worlds, for the examples *)
(* ===================================================================== *)

Module Examples.

(** One way [xr.concat] can behave: the variables of the first dataset
    that have the dimension are joined along it with the variables of the
    same name in the other datasets; the others are taken from the first. *)
Fixpoint concat_data (axis : nat) (parts : list (Z * (list Z -> Z))) (idx : list Z) : Z :=
  match parts with
  | [] => 0
  | (n, d) :: parts' =>
      match idx !! axis with
      | Some i => if i <? n then d idx else concat_data axis parts' (<[axis := i - n]> idx)
      | None => 0
      end
  end.

Definition lookup_variable (name : string) (ds : Dataset) : result DataArray :=
  of_option KeyError (PyDict.get ds name).

Definition extent (dim : string) (v : DataArray) : result Z :=
  of_option ValueError (PyDict.get (axes v) dim).

Definition concat_variable (dsets : list Dataset) (dim : string)
    (p : string * DataArray) : result (string * DataArray) :=
  if has_dim dim (snd p) then
    let* axis := get_axis_num (snd p) dim in
    let* vars := mapR (lookup_variable (fst p)) dsets in
    let* sizes := mapR (extent dim) vars in
    Ok (fst p,
        {| axes := <[Z.to_nat axis := (dim, sum sizes)]> (axes (snd p));
           data := concat_data (Z.to_nat axis) (zip sizes (map data vars));
           encoding_chunks := encoding_chunks (snd p) |})
  else Ok p.

Definition concat_datasets (dsets : list Dataset) (dim : string) : result Dataset :=
  match dsets with
  | [] => Raise ValueError
  | first :: _ => mapR (concat_variable dsets dim) first
  end.

(** The coordinate [x] of the example files: two points, no [time] axis. *)
Definition x_coordinate : DataArray :=
  {| axes := [("x", 2)];
     data := fun idx => 50 + default 0 (idx !! 0%nat);
     encoding_chunks := None |}.

(** An input file with a [time] coordinate of [n] steps, holding the
    values [t0, t0+1, ...], a variable [temp] over [time] and two points
    of [x], and the coordinate [x] itself, which has no [time] axis. *)
Definition input_file (n t0 : Z) : Dataset :=
  [("time", {| axes := [("time", n)];
               data := fun idx => t0 + default 0 (idx !! 0%nat);
               encoding_chunks := None |});
   ("temp", {| axes := [("time", n); ("x", 2)];
               data := fun idx => 100 * (t0 + default 0 (idx !! 0%nat)) + default 0 (idx !! 1%nat);
               encoding_chunks := None |});
   ("x", x_coordinate)].

Definition empty_world : World :=
  {| target := None; target_fault := None; metadata_cache := ∅; sources := ∅ |}.

Definition with_sources (files : list (string * Dataset)) (w : World) : World :=
  {| target := target w; target_fault := target_fault w;
     metadata_cache := metadata_cache w; sources := list_to_map files |}.

Definition with_fault (e : exn) (w : World) : World :=
  {| target := target w; target_fault := Some e;
     metadata_cache := metadata_cache w; sources := sources w |}.

(** The fields of a recipe that the examples leave at their defaults. *)
Definition example_config (dim : string) (per_chunk : Z) (nitems : option Z)
    (chunks : PyDict.t string Z) : Config :=
  {| sequence_dim := dim;
     inputs_per_chunk := per_chunk;
     nitems_per_input := nitems;
     cache_inputs := true;
     cache_input := true;
     copy_input_to_local_file := false;
     consolidate_zarr := true;
     delete_input_encoding := true;
     process_input := None;
     process_chunk := None;
     target_chunks := chunks |}.

(** Run a computation and keep the world it leaves. *)
Definition exec {A} (m : M A) (w : World) : World := snd (m w).

(** Example B of the specification: four inputs of lengths 3, 4, 2 and 5,
    one input per chunk, target chunks of size 4. *)
Definition urls_B : list string := ["a.nc"; "b.nc"; "c.nc"; "d.nc"].

Definition files_B : list (string * Dataset) :=
  [("a.nc", input_file 3 0); ("b.nc", input_file 4 3);
   ("c.nc", input_file 2 7); ("d.nc", input_file 5 9)].

Definition recipe_B : result Recipe :=
  sequential_post_init (example_config "time" 1 None [("time", 4)]) urls_B.

(** The recipe a successful construction returns (a blank one otherwise). *)
Definition built (constructed : result Recipe) : Recipe :=
  match constructed with
  | Ok r => r
  | Raise _ =>
      {| config := example_config "" 0 None []; pattern := Sequential [];
         _cache_metadata := false; _sequence_dim_chunks := 0; _inputs := [];
         _chunks_inputs := []; _n_inputs_along_sequence := 0; _init_chunks := [] |}
  end.

(** The world in which the files are there and the metadata of every input
    of the recipe has been cached. *)
Definition cached (r : Recipe) (files : list (string * Dataset)) : World :=
  exec (for_each (PyDict.keys (_inputs r)) (cache_input_metadata id r))
       (with_sources files empty_world).

(** The world [prepare_target] leaves from there. *)
Definition prepared (r : Recipe) (files : list (string * Dataset)) : World :=
  exec (_prepare_target concat_datasets id r) (cached r files).

(** The world after every chunk has been stored as well. *)
Definition stored (r : Recipe) (files : list (string * Dataset)) : World :=
  exec (for_each (iter_chunks r) (_store_chunk concat_datasets id r)) (prepared r files).

(** The dataset a chunk opens to (an empty one if opening fails). *)
Definition opened (r : Recipe) (w : World) (chunk_key : key) : Dataset :=
  match open_chunk concat_datasets id r w chunk_key with
  | Ok ds => ds
  | Raise _ => []
  end.

(** An element of an array of the target, if the array is there. *)
Definition target_element (w : World) (name : string) (idx : list Z) : option Z :=
  g ← target w; arr ← g !! name; Some (z_data arr idx).

(** Three inputs of one item each, two inputs per chunk: the last chunk
    holds a single input. *)
Definition urls_ragged : list string := ["a.nc"; "b.nc"; "c.nc"].

Definition files_ragged : list (string * Dataset) :=
  [("a.nc", input_file 1 0); ("b.nc", input_file 1 1); ("c.nc", input_file 1 2)].

Definition recipe_ragged (nitems : option Z) : result Recipe :=
  sequential_post_init (example_config "time" 2 nitems [("time", 2)]) urls_ragged.

(** File names of a multi-variable pattern: [variable-position.nc]. *)
Definition variable_file (v : string) (o : atom) : string :=
  v +:+ "-" +:+ py_str o +:+ ".nc".

(** Three variables at one position; the middle one is longer. *)
Definition pattern_abc : VariableSequencePattern :=
  {| keys_variable := ["a"; "b"; "c"]; keys_other := [AInt 0]; format := variable_file |}.

Definition files_abc : list (string * Dataset) :=
  [("a-0.nc", input_file 3 0); ("b-0.nc", input_file 4 0); ("c-0.nc", input_file 3 0)].

Definition recipe_abc : result Recipe :=
  multivar_post_init (example_config "time" 1 None [("time", 4)]) pattern_abc.

(** Example C of the specification: two variables at four positions, two
    inputs per chunk, one item per input. *)
Definition pattern_C : VariableSequencePattern :=
  {| keys_variable := ["temp"; "salt"];
     keys_other := [AInt 0; AInt 1; AInt 2; AInt 3];
     format := variable_file |}.

Definition recipe_C : result Recipe :=
  multivar_post_init (example_config "time" 2 (Some 1) []) pattern_C.

End Examples.


(* ===================================================================== *)
(** * Properties *)
(* ===================================================================== *)

(** ** Strings *)

Lemma app_String (c : ascii) (s r : string) : String c s +:+ r = String c (s +:+ r).
Proof. reflexivity. Qed.

Lemma app_empty_l (r : string) : EmptyString +:+ r = r.
Proof. reflexivity. Qed.

Lemma string_app_assoc (s1 s2 s3 : string) : (s1 +:+ s2) +:+ s3 = s1 +:+ (s2 +:+ s3).
Proof. induction s1 as [|c s1 IH]; [reflexivity|]. rewrite !app_String. by f_equal. Qed.

Lemma string_length_app (s1 s2 : string) :
  String.length (s1 +:+ s2) = (String.length s1 + String.length s2)%nat.
Proof. induction s1 as [|c s1 IH]; [reflexivity|]. rewrite app_String. simpl. lia. Qed.

(** ** The JSON codec: what [json.dumps] writes, [json.loads] reads back *)

Module JsonFacts.
Import Json.

Fixpoint all_digits (s : string) : bool :=
  match s with
  | EmptyString => true
  | String c s' => is_digit c && all_digits s'
  end.

(** What may follow a number for it to end there. *)
Definition number_ends (rest : string) : bool :=
  negb (starts_with is_digit rest) && negb (starts_with is_float_mark rest).

Lemma string_of_uint_digits (d : uint) : all_digits (NilEmpty.string_of_uint d) = true.
Proof. induction d; simpl; auto. Qed.

Lemma span_digits_app (d rest : string) :
  all_digits d = true -> starts_with is_digit rest = false ->
  span_digits (d +:+ rest) = (d, rest).
Proof.
  induction d as [|c d IH]; intros Hd Hr.
  - rewrite app_empty_l. destruct rest as [|c r]; [reflexivity|].
    simpl in *. by rewrite Hr.
  - rewrite app_String. simpl in *. apply andb_prop in Hd as [Hc Hd].
    rewrite Hc, IH by done. reflexivity.
Qed.

(** A normalised positive number does not start with the digit [0]. *)
Lemma to_uint_no_leading_zero (p : positive) (u : uint) : Pos.to_uint p <> D0 u.
Proof.
  intros E.
  pose proof (DecimalPos.Unsigned.to_of (Pos.to_uint p)) as H.
  rewrite DecimalPos.Unsigned.of_to in H. simpl in H.
  rewrite E in H. rewrite DecimalFacts.unorm_D0 in H.
  unfold unorm in H. destruct (nzhead u) eqn:En; try discriminate H.
  - apply (DecimalPos.Unsigned.to_uint_nonzero p). by rewrite E.
  - by apply (DecimalFacts.nzhead_nonzero u u0).
Qed.

Lemma digit_not_minus (c : ascii) : is_digit c = true -> Ascii.eqb "-" c = false.
Proof. destruct (Ascii.eqb_spec "-" c) as [<-|]; [discriminate|done]. Qed.

(** The digits of a number that is not [Nil]: a first character and the
    rest, the first being [0] only for a number written with a leading
    zero. *)
Lemma string_of_uint_cons (u : uint) :
  u <> Nil ->
  exists d ds, NilEmpty.string_of_uint u = String d ds
               /\ (Ascii.eqb d "0" = true -> exists u', u = D0 u').
Proof.
  destruct u; intros Hu; [done|..]; simpl; do 2 eexists;
    (split; [reflexivity|]); intros H; try discriminate H; eauto.
Qed.

Lemma loads_int_unsigned (u : uint) (rest : string) :
  u <> Nil -> (forall u', u = D0 u' -> u' = Nil) -> number_ends rest = true ->
  loads_int (NilEmpty.string_of_uint u +:+ rest) = Some (Z.of_int (Pos u), rest).
Proof.
  intros Hu Hz Hr. apply andb_prop in Hr as [Hr1 Hr2].
  apply negb_true_iff in Hr1, Hr2.
  pose proof (string_of_uint_digits u) as Hd.
  pose proof (NilZero.isi (Pos u)) as Hisi.
  destruct (string_of_uint_cons u Hu) as (d & ds & E & Hd0).
  assert (NilZero.string_of_int (Pos u) = String d ds) as Es.
  { simpl. unfold NilZero.string_of_uint. destruct u; try done. }
  rewrite Es in Hisi. rewrite E in Hd |- *. rewrite app_String.
  unfold loads_int. cbn [starts_with].
  assert (is_digit d = true) as Hdd by (simpl in Hd; by apply andb_prop in Hd as [? _]).
  rewrite (digit_not_minus d Hdd).
  rewrite <- app_String, (span_digits_app _ _ Hd Hr1).
  assert ((Ascii.eqb d "0" && negb (String.eqb ds EmptyString))%bool = false) as ->.
  { destruct (Ascii.eqb d "0") eqn:E0; [|done].
    destruct (Hd0 eq_refl) as [u' ->]. rewrite (Hz u' eq_refl) in E.
    simpl in E. by inversion E. }
  rewrite Hr2, Hisi; [done|congruence|congruence].
Qed.

Lemma loads_int_negative (u : uint) (rest : string) :
  u <> Nil -> (forall u', u <> D0 u') -> number_ends rest = true ->
  loads_int (String "-" (NilEmpty.string_of_uint u) +:+ rest) = Some (Z.of_int (Neg u), rest).
Proof.
  intros Hu Hz Hr. apply andb_prop in Hr as [Hr1 Hr2].
  apply negb_true_iff in Hr1, Hr2.
  pose proof (string_of_uint_digits u) as Hd.
  pose proof (NilZero.isi (Neg u)) as Hisi.
  destruct (string_of_uint_cons u Hu) as (d & ds & E & Hd0).
  assert (NilZero.string_of_int (Neg u) = String "-" (String d ds)) as Es.
  { simpl. unfold NilZero.string_of_uint. destruct u; try done; by rewrite <- E. }
  rewrite Es in Hisi. rewrite E in Hd |- *. rewrite app_String.
  unfold loads_int. cbn [starts_with]. rewrite Ascii.eqb_refl.
  rewrite (span_digits_app _ _ Hd Hr1).
  assert ((Ascii.eqb d "0" && negb (String.eqb ds EmptyString))%bool = false) as ->.
  { destruct (Ascii.eqb d "0") eqn:E0; [|done].
    destruct (Hd0 eq_refl) as [u' ->]. by destruct (Hz u'). }
  rewrite Hr2, Hisi; [done|congruence|congruence].
Qed.

(** An integer written by [json.dumps] is read back by [json.loads]. *)
Lemma loads_int_dumps (z : Z) (rest : string) :
  number_ends rest = true -> loads_int (dumps_int z +:+ rest) = Some (z, rest).
Proof.
  intros Hr. unfold dumps_int. destruct z as [|p|p].
  - change (NilZero.string_of_int (Z.to_int 0)) with (NilEmpty.string_of_uint zero).
    rewrite loads_int_unsigned; [done|done| |done].
    intros u' E. by inversion E.
  - pose proof (DecimalPos.Unsigned.to_uint_nonnil p) as Hn.
    assert (NilZero.string_of_int (Z.to_int (Z.pos p))
            = NilEmpty.string_of_uint (Pos.to_uint p)) as ->.
    { simpl. unfold NilZero.string_of_uint. by destruct (Pos.to_uint p). }
    rewrite loads_int_unsigned; [|done| |done].
    + change (Pos (Pos.to_uint p)) with (Z.to_int (Z.pos p)). by rewrite DecimalZ.of_to.
    + intros u' E. by destruct (to_uint_no_leading_zero p u').
  - pose proof (DecimalPos.Unsigned.to_uint_nonnil p) as Hn.
    assert (NilZero.string_of_int (Z.to_int (Z.neg p))
            = String "-" (NilEmpty.string_of_uint (Pos.to_uint p))) as ->.
    { simpl. unfold NilZero.string_of_uint. by destruct (Pos.to_uint p). }
    rewrite loads_int_negative; [|done| |done].
    + change (Neg (Pos.to_uint p)) with (Z.to_int (Z.neg p)). by rewrite DecimalZ.of_to.
    + intros u'. apply to_uint_no_leading_zero.
Qed.

Lemma dumps_int_head (z : Z) :
  exists c s, dumps_int z = String c s /\ (is_digit c || Ascii.eqb "-" c)%bool = true.
Proof.
  unfold dumps_int. destruct z as [|p|p].
  - by exists "0"%char, EmptyString.
  - pose proof (DecimalPos.Unsigned.to_uint_nonnil p) as Hn.
    pose proof (string_of_uint_digits (Pos.to_uint p)) as Hd.
    simpl. unfold NilZero.string_of_uint.
    destruct (Pos.to_uint p); try done; simpl; do 2 eexists; split; reflexivity.
  - simpl. do 2 eexists; split; reflexivity.
Qed.

Lemma number_head_dispatch (c : ascii) :
  (is_digit c || Ascii.eqb "-" c)%bool = true ->
  is_ws c = false /\ Ascii.eqb c "[" = false /\ Ascii.eqb c "{" = false
  /\ Ascii.eqb c quote = false /\ Ascii.eqb c "]" = false.
Proof.
  destruct c as [[] [] [] [] [] [] [] []]; vm_compute; intros H;
    try discriminate H; auto.
Qed.

Lemma loads_value_int (fuel : nat) (z : Z) (rest : string) :
  number_ends rest = true ->
  loads_value (S fuel) (dumps_int z +:+ rest) = Some (JInt z, rest).
Proof.
  intros Hr. pose proof (loads_int_dumps z rest Hr) as Hl.
  destruct (dumps_int_head z) as (c & s & E & Hc).
  destruct (number_head_dispatch c Hc) as (Hw & H1 & H2 & H3 & _).
  rewrite E in Hl |- *. rewrite app_String in Hl |- *.
  cbn [loads_value skip_ws]. rewrite Hw, H1, H2, H3, Hl. reflexivity.
Qed.

Lemma loads_value_space (fuel : nat) (s : string) :
  loads_value fuel (String " " s) = loads_value fuel s.
Proof. destruct fuel; reflexivity. Qed.

Lemma join_cons2 (sep a b : string) (l : list string) :
  str_join sep (a :: b :: l) = a +:+ sep +:+ str_join sep (b :: l).
Proof. reflexivity. Qed.

Lemma dumps_map_JInt (l : list Z) : map dumps (map JInt l) = map dumps_int l.
Proof. induction l; simpl; by f_equal. Qed.

Lemma loads_items_S (fuel : nat) (s : string) :
  loads_items (S fuel) s =
  match loads_value fuel s with
  | Some (v, r) =>
      match expect "," r with
      | Some r1 =>
          match loads_items fuel r1 with
          | Some (vs, r2) => Some (v :: vs, r2)
          | None => None
          end
      | None =>
          match expect "]" r with
          | Some r1 => Some ([v], r1)
          | None => None
          end
      end
  | None => None
  end.
Proof. reflexivity. Qed.

Lemma loads_items_space (fuel : nat) (s : string) :
  loads_items fuel (String " " s) = loads_items fuel s.
Proof. destruct fuel; [done|]. by rewrite !loads_items_S, loads_value_space. Qed.

(** The items of a non-empty array of integers, up to its closing bracket. *)
Lemma loads_items_ints (l : list Z) : forall (z : Z) (rest : string) (fuel : nat),
  (length l + 2 <= fuel)%nat ->
  loads_items fuel (str_join ", " (map dumps_int (z :: l)) +:+ String "]" rest)
  = Some (map JInt (z :: l), rest).
Proof.
  induction l as [|z' l IH]; intros z rest fuel Hf.
  - destruct fuel as [|[|fuel]]; [simpl in Hf; lia..|].
    cbn [map str_join]. rewrite loads_items_S, loads_value_int by done. reflexivity.
  - destruct fuel as [|[|fuel]]; [simpl in Hf; lia..|].
    cbn [map]. rewrite join_cons2, !string_app_assoc.
    rewrite loads_items_S, loads_value_int by done.
    change (expect "," (", " +:+ str_join ", " (dumps_int z' :: map dumps_int l) +:+ String "]" rest))
      with (Some (String " " (str_join ", " (map dumps_int (z' :: l)) +:+ String "]" rest))).
    cbn beta match.
    rewrite loads_items_space, IH; [done|simpl in *; lia].
Qed.

Lemma loads_str_body_escape (k rest : string) :
  loads_str_body (escape k +:+ String quote rest) = Some (k, rest).
Proof.
  induction k as [|c k IH]; [reflexivity|].
  cbn [escape]. destruct (Ascii.eqb c quote) eqn:Eq.
  - apply Ascii.eqb_eq in Eq as ->. cbn [orb]. rewrite !app_String.
    change (loads_str_body (String backslash (String quote (escape k +:+ String quote rest))))
      with (match loads_str_body (escape k +:+ String quote rest) with
            | Some (b, r) => Some (String quote b, r)
            | None => None
            end).
    by rewrite IH.
  - destruct (Ascii.eqb c backslash) eqn:Eb.
    + apply Ascii.eqb_eq in Eb as ->. cbn [orb]. rewrite !app_String.
      change (loads_str_body (String backslash (String backslash (escape k +:+ String quote rest))))
        with (match loads_str_body (escape k +:+ String quote rest) with
              | Some (b, r) => Some (String backslash b, r)
              | None => None
              end).
      by rewrite IH.
    + cbn [orb]. rewrite app_String. cbn [loads_str_body]. by rewrite Eq, Eb, IH.
Qed.

Lemma join_length_ge (l : list Z) :
  (length l <= String.length (str_join ", " (map dumps_int l)) + 1)%nat.
Proof.
  induction l as [|z [|z' l] IH]; [simpl; lia..|].
  cbn [map] in *. rewrite join_cons2, !string_length_app. simpl in *. lia.
Qed.

Lemma loads_value_object (fuel : nat) (s : string) :
  loads_value (S fuel) (String "{" (String quote s)) =
  match loads_members fuel (String quote s) with
  | Some (kv, r) => Some (JDict kv, r)
  | None => None
  end.
Proof. reflexivity. Qed.

Lemma loads_value_array (fuel : nat) (s : string) :
  loads_value (S fuel) (String "[" s) =
  match expect "]" s with
  | Some s2 => Some (JList [], s2)
  | None =>
      match loads_items fuel s with
      | Some (l, r) => Some (JList l, r)
      | None => None
      end
  end.
Proof. reflexivity. Qed.

Lemma loads_members_S (fuel : nat) (s : string) :
  loads_members (S fuel) (String quote s) =
  match loads_str_body s with
  | Some (k, r) =>
      match expect ":" r with
      | Some r1 =>
          match loads_value fuel r1 with
          | Some (v, r2) =>
              match expect "," r2 with
              | Some r3 =>
                  match loads_members fuel r3 with
                  | Some (kv, r4) => Some ((k, v) :: kv, r4)
                  | None => None
                  end
              | None =>
                  match expect "}" r2 with
                  | Some r3 => Some ([(k, v)], r3)
                  | None => None
                  end
              end
          | None => None
          end
      | None => None
      end
  | None => None
  end.
Proof. reflexivity. Qed.

Lemma expect_close_number (z : Z) (rest : string) :
  expect "]" (dumps_int z +:+ rest) = None.
Proof.
  destruct (dumps_int_head z) as (c & s & E & Hc).
  destruct (number_head_dispatch c Hc) as (Hw & _ & _ & _ & Hb).
  rewrite E, app_String. unfold expect. cbn [skip_ws]. by rewrite Hw, Hb.
Qed.

(** An array of integers, whatever follows it. *)
Lemma loads_value_int_list (l : list Z) (rest : string) (fuel : nat) :
  (length l + 2 <= fuel)%nat ->
  loads_value fuel (dumps (JList (map JInt l)) +:+ rest) = Some (JList (map JInt l), rest).
Proof.
  intros Hf. destruct fuel as [|fuel]; [lia|].
  cbn [dumps]. rewrite dumps_map_JInt, !app_String, app_empty_l, string_app_assoc.
  rewrite loads_value_array. destruct l as [|z l]; [reflexivity|].
  assert (expect "]" (str_join ", " (map dumps_int (z :: l)) +:+ "]" +:+ rest) = None) as ->.
  { cbn [map]. destruct l as [|z' l]; cbn [map].
    - cbn [str_join]. apply expect_close_number.
    - rewrite join_cons2, !string_app_assoc. apply expect_close_number. }
  change ("]" +:+ rest) with (String "]" rest).
  rewrite loads_items_ints; [done|simpl in *; lia].
Qed.

(** The global record [{key: [z1, ..., zn]}] survives the round trip. *)
Theorem loads_dumps_int_list_record (key : string) (l : list Z) :
  loads (dumps (JDict [(key, JList (map JInt l))]))
  = Ok (JDict [(key, JList (map JInt l))]).
Proof.
  unfold loads.
  set (doc := dumps (JDict [(key, JList (map JInt l))])).
  assert (forall fuel, (length l + 4 <= fuel)%nat ->
            loads_value fuel doc = Some (JDict [(key, JList (map JInt l))], EmptyString)) as H.
  { intros fuel Hf. subst doc.
    destruct fuel as [|[|fuel]]; [lia..|].
    cbn [dumps map str_join fst snd].
    unfold dumps_str. rewrite !app_String, !string_app_assoc, !app_String, !app_empty_l.
    rewrite loads_value_object, loads_members_S, loads_str_body_escape.
    change (expect ":" (String ":" ?s)) with (Some s). cbn beta match.
    rewrite loads_value_space.
    change (String "[" (str_join ", " (map dumps (map JInt l)) +:+ "]"))
      with (dumps (JList (map JInt l))).
    rewrite loads_value_int_list by lia. reflexivity. }
  rewrite H; [done|].
  subst doc. cbn [dumps map str_join fst snd]. rewrite dumps_map_JInt.
  rewrite !string_length_app. pose proof (join_length_ge l). simpl. lia.
Qed.

End JsonFacts.

(** ** Results and comprehensions *)

Lemma mapR_Ok_all {A B} (f : A -> result B) (l : list A) :
  (forall a, a ∈ l -> exists b, f a = Ok b) ->
  exists bs, mapR f l = Ok bs /\ length bs = length l.
Proof.
  induction l as [|a l IH]; intros H.
  - by exists [].
  - destruct (H a) as [b Hb]; [by left|].
    destruct IH as (bs & Hbs & Hlen); [intros a' Ha'; apply H; by right|].
    exists (b :: bs). simpl. rewrite Hb, Hbs. simpl. by rewrite Hlen.
Qed.

Lemma mapR_Ok_map {A B} (f : A -> result B) (g : A -> B) (l : list A) :
  (forall a, a ∈ l -> f a = Ok (g a)) -> mapR f l = Ok (map g l).
Proof.
  induction l as [|a l IH]; intros H; [done|].
  simpl. rewrite H by left. rewrite IH; [done|]. intros a' Ha'. apply H. by right.
Qed.

Lemma mapR_length {A B} (f : A -> result B) (l : list A) (bs : list B) :
  mapR f l = Ok bs -> length bs = length l.
Proof.
  revert bs. induction l as [|a l IH]; intros bs H; simpl in H.
  - by inversion H.
  - destruct (f a); [|done]. simpl in H. destruct (mapR f l); [|done].
    simpl in H. inversion H. simpl. by rewrite (IH _ eq_refl).
Qed.

(** ** Dictionaries *)

Lemma pydict_get_keys {K V} `{EqDecision K} (d : PyDict.t K V) (k : K) :
  k ∈ PyDict.keys d -> is_Some (PyDict.get d k).
Proof.
  induction d as [|[k' v] d IH]; simpl; intros H.
  - by apply elem_of_nil in H.
  - destruct (decide (k' = k)); [by eexists|].
    apply IH. apply elem_of_cons in H as [H|H]; [congruence|done].
Qed.

(** ** The staged pipeline *)

(** Every chunk key the recipe iterates over has its inputs. *)
Lemma iter_inputs_Ok (r : Recipe) : exists inputs, iter_inputs r = Ok inputs.
Proof.
  unfold iter_inputs.
  destruct (mapR_Ok_all (inputs_for_chunk r) (iter_chunks r)) as (groups & Hg & _).
  - intros ck Hck. unfold inputs_for_chunk, PyDict.getitem.
    destruct (pydict_get_keys (_chunks_inputs r) ck Hck) as [v ->]. by eexists.
  - rewrite Hg. by eexists.
Qed.

(** C7. [to_pipelines] returns one pipeline.  Its stages are, in this
    order: [cache_input] over all input keys, present exactly when input
    caching is enabled; [prepare_target], called once; [store_chunk] over
    all chunk keys; [finalize_target], called once. *)
Theorem to_pipelines_stage_order (r : Recipe) :
  exists inputs,
    iter_inputs r = Ok inputs /\
    to_pipelines r =
    Ok [ (if cache_inputs r
          then [{| function := op_cache_input; mappable := Some inputs |}]
          else [])
         ++ [ {| function := op_prepare_target; mappable := None |};
              {| function := op_store_chunk; mappable := Some (iter_chunks r) |};
              {| function := op_finalize_target; mappable := None |} ] ].
Proof.
  destruct (iter_inputs_Ok r) as [inputs Hi]. exists inputs. split; [done|].
  unfold to_pipelines. simpl. rewrite Hi. by destruct (cache_inputs r).
Qed.

(** ** The code at the inputs where it departs from the specification *)

Import Examples.

(** C1 (what the code does instead).  With three variables whose length
    lists are [[3]], [[4]] and [[3]], [sequence_lens] compares only the
    last variable with the first: it raises nothing and returns [[3]],
    although the second variable's list differs from the first's. *)
Theorem sequence_lens_compares_only_last_variable :
  exists r,
    recipe_abc = Ok r /\
    input_sequence_lens r (cached r files_abc) [[AStr "a"; AInt 0]] = Ok [3] /\
    input_sequence_lens r (cached r files_abc) [[AStr "b"; AInt 0]] = Ok [4] /\
    input_sequence_lens r (cached r files_abc) [[AStr "c"; AInt 0]] = Ok [3] /\
    sequence_lens r (cached r files_abc) = Ok [3].
Proof. eexists. split; [reflexivity|]. vm_compute. tauto. Qed.

(** C3 (what the code does instead).  Three inputs of one item each, two
    inputs per chunk and [nitems_per_input = 1]: the last chunk holds the
    single input [(2,)], of length 1, and 2 items precede it, yet its
    region is [[2, 4)].  With the lengths read from the metadata cache
    ([nitems_per_input = None]) the same chunk gets [[2, 3)]. *)
Theorem fixed_length_region_overruns_last_chunk :
  (exists r,
     recipe_ragged (Some 1) = Ok r /\
     iter_chunks r = [[AInt 0]; [AInt 1]] /\
     inputs_for_chunk r [AInt 1] = Ok [[AInt 2]] /\
     input_sequence_lens r empty_world [[AInt 2]] = Ok [1] /\
     sequence_lens r empty_world = Ok [1; 1; 1] /\
     region_for_chunk r empty_world [AInt 1] = Ok ("time", (2, 4))) /\
  (exists r,
     recipe_ragged None = Ok r /\
     inputs_for_chunk r [AInt 1] = Ok [[AInt 2]] /\
     sequence_lens r (cached r files_ragged) = Ok [1; 1; 1] /\
     region_for_chunk r (prepared r files_ragged) [AInt 1] = Ok ("time", (2, 3))).
Proof.
  split; eexists; (split; [reflexivity|]); vm_compute; tauto.
Qed.

(** C4 (counterexample).  In Example C, two variables at four positions of
    one item each, the four chunk keys have regions of length 2: their
    lengths add up to 8, twice the declared size 4 of the axis. *)
Lemma multivar_region_lengths_exceed_declared_size :
  exists r regions lens,
    recipe_C = Ok r /\
    mapR (region_for_chunk r empty_world) (iter_chunks r) = Ok regions /\
    sequence_lens r empty_world = Ok lens /\
    sum (map region_length regions) = 8 /\
    sum lens = 4 /\
    sum (map region_length regions) <> sum lens.
Proof.
  do 3 eexists. split; [reflexivity|]. split; [vm_compute; reflexivity|].
  split; [vm_compute; reflexivity|]. vm_compute. repeat split. discriminate.
Qed.

(** ** What the lifecycle operations leave alone *)

(** A computation that never touches the metadata cache. *)
Definition keeps_metadata {A} (m : M A) : Prop :=
  forall w, metadata_cache (snd (m w)) = metadata_cache w.

Create HintDb keeps.

Lemma keeps_ret {A} (a : A) : keeps_metadata (ret a).
Proof. done. Qed.

Lemma keeps_raise {A} (e : exn) : keeps_metadata (@raise A e).
Proof. done. Qed.

Lemma keeps_reading {A} (f : World -> result A) : keeps_metadata (reading f).
Proof. done. Qed.

Lemma keeps_bind {A B} (m : M A) (k : A -> M B) :
  keeps_metadata m -> (forall a, keeps_metadata (k a)) -> keeps_metadata (bind m k).
Proof.
  intros Hm Hk w. unfold bind. specialize (Hm w).
  destruct (m w) as [[a|e] w1]; simpl in *; [|done]. by rewrite Hk.
Qed.

Lemma keeps_try_except {A} (body handler : M A) (handled : exn -> bool) :
  keeps_metadata body -> keeps_metadata handler ->
  keeps_metadata (try_except body handled handler).
Proof.
  intros Hb Hh w. unfold try_except. specialize (Hb w).
  destruct (body w) as [[a|e] w1]; simpl in *; [done|].
  destruct (handled e); simpl; [|done]. by rewrite Hh.
Qed.

Lemma keeps_for_each {A} (l : list A) (body : A -> M unit) :
  (forall a, keeps_metadata (body a)) -> keeps_metadata (for_each l body).
Proof.
  intros Hb. induction l as [|a l IH]; simpl; [apply keeps_ret|].
  apply keeps_bind; auto.
Qed.

Lemma keeps_access_target : keeps_metadata access_target.
Proof. intros w. unfold access_target. by destruct (target_fault w). Qed.

Lemma keeps_put_target (g : ZGroup) : keeps_metadata (put_target g).
Proof. done. Qed.

Lemma keeps_zgroup_getitem (name : string) : keeps_metadata (zgroup_getitem name).
Proof. done. Qed.

Lemma keeps_zgroup_setitem (name : string) (arr : ZArray) :
  keeps_metadata (zgroup_setitem name arr).
Proof. done. Qed.

#[local] Hint Resolve keeps_ret keeps_raise keeps_reading keeps_access_target
  keeps_put_target keeps_zgroup_getitem keeps_zgroup_setitem : keeps.

Ltac keeps :=
  repeat first
    [ progress intros
    | apply keeps_bind
    | apply keeps_try_except
    | apply keeps_for_each
    | solve [auto with keeps]
    | match goal with
      | |- keeps_metadata (match ?x with _ => _ end) => destruct x
      | |- keeps_metadata (if ?x then _ else _) => destruct x
      | |- keeps_metadata (let '(_, _) := ?x in _) => destruct x
      end ].

Lemma keeps_xr_open_zarr : keeps_metadata xr_open_zarr.
Proof. unfold xr_open_zarr. keeps. Qed.

Lemma keeps_zarr_open_group : keeps_metadata zarr_open_group.
Proof. unfold zarr_open_group. keeps. Qed.

Lemma keeps_to_zarr_append (ds : Dataset) : keeps_metadata (to_zarr_append ds).
Proof. unfold to_zarr_append. keeps. Qed.

#[local] Hint Resolve keeps_xr_open_zarr keeps_zarr_open_group keeps_to_zarr_append : keeps.

Lemma keeps_expand_target_dim (dim : string) (dimsize : Z) :
  keeps_metadata (expand_target_dim dim dimsize).
Proof. unfold expand_target_dim, open_target. keeps. Qed.

(** ** [expand_target_dim] *)

(** The group behind the target, empty when there is none. *)
Definition current_group (w : World) : ZGroup := default ∅ (target w).

Lemma list_index_Ok `{EqDecision A} (x : A) (l : list A) :
  x ∈ l -> exists i, list_index x l = Ok i.
Proof.
  induction l as [|y l IH]; intros H; [by apply elem_of_nil in H|].
  simpl. destruct (decide (y = x)); [by eexists|].
  destruct IH as [i ->]; [|by eexists].
  apply elem_of_cons in H as [H|H]; [congruence|done].
Qed.

Lemma pydict_set_keys {K V} `{EqDecision K} (d : PyDict.t K V) (k k' : K) (v : V) :
  k' ∈ PyDict.keys (PyDict.set d k v) -> k' = k \/ k' ∈ PyDict.keys d.
Proof.
  induction d as [|[k0 v0] d IH]; simpl.
  - intros H. apply list_elem_of_singleton in H. by left.
  - destruct (decide (k0 = k)); simpl; intros H.
    + by right.
    + apply elem_of_cons in H as [->|H]; [right; by left|].
      destruct (IH H) as [?|?]; [by left|right; by right].
Qed.

Lemma pydict_of_pairs_keys {K V} `{EqDecision K} (l : list (K * V)) (k : K) :
  k ∈ PyDict.keys (PyDict.of_pairs l) -> k ∈ map fst l.
Proof.
  unfold PyDict.of_pairs.
  assert (forall acc : PyDict.t K V,
            k ∈ PyDict.keys (fold_left (fun d p => PyDict.set d p.1 p.2) l acc) ->
            k ∈ PyDict.keys acc \/ k ∈ map fst l) as H.
  { induction l as [|p l IH]; intros acc Hk; simpl in *; [by left|].
    destruct (IH _ Hk) as [H|H]; [|right; by right].
    destruct (pydict_set_keys _ _ _ _ H) as [->|?]; [right; by left|by left]. }
  intros Hk. destruct (H [] Hk) as [Hn|?]; [|done]. by apply elem_of_nil in Hn.
Qed.

(** The pairs a comprehension [{v: f(v) for v in l}] is built from carry
    the names of [l]. *)
Lemma mapR_tagged_names {A B} (f : string * A -> result B) (l : list (string * A))
    (pairs : list (string * B)) :
  mapR (fun p => let* y := f p in Ok (p.1, y)) l = Ok pairs -> map fst pairs = map fst l.
Proof.
  revert pairs. induction l as [|p l IH]; intros pairs H; simpl in H.
  - by injection H as <-.
  - destruct (f p); [|done]. simpl in H.
    destruct (mapR _ l) as [ps|]; [|done]. simpl in H. injection H as <-.
    simpl. by rewrite (IH ps eq_refl).
Qed.

(** The loop of [expand_target_dim] over arrays that are there: it runs to
    its end and leaves the same arrays, resized. *)
Lemma resize_loop_runs (dimsize : Z) (sequence_axes : PyDict.t string Z) :
  forall w,
    (forall va, va ∈ sequence_axes -> is_Some (current_group w !! va.1)) ->
    exists w',
      for_each sequence_axes (fun va : string * Z =>
        bind (zgroup_getitem va.1) (fun arr =>
          zgroup_setitem va.1
            (zarr_resize arr (<[Z.to_nat va.2 := dimsize]> (z_shape arr))))) w
      = (Ok tt, w') /\
      target_fault w' = target_fault w /\
      (forall v, is_Some (current_group w' !! v) <-> is_Some (current_group w !! v)).
Proof.
  induction sequence_axes as [|va sa IH]; intros w Hin.
  - exists w. by repeat split.
  - destruct (Hin va) as [arr Harr]; [by left|].
    cbn [for_each]. unfold bind at 1. unfold bind at 1.
    unfold zgroup_getitem at 1. fold (current_group w). rewrite Harr.
    cbn [of_option]. unfold zgroup_setitem at 1. fold (current_group w).
    set (w1 := with_target _ w).
    assert (forall v, is_Some (current_group w1 !! v) <-> is_Some (current_group w !! v)) as Hdom.
    { intros v. unfold w1, current_group at 1. cbn [target with_target default from_option id].
      destruct (decide (va.1 = v)) as [<-|Hne].
      - rewrite lookup_insert_eq, Harr. split; by eexists.
      - by rewrite lookup_insert_ne. }
    destruct (IH w1) as (w' & Hrun & Hf & Hd).
    { intros va' Hva'. apply Hdom, Hin. by right. }
    exists w'. split; [done|]. split; [done|].
    intros v. by rewrite Hd, Hdom.
Qed.

Lemma zarr_open_group_run (w : World) (g : ZGroup) :
  target_fault w = None -> target w = Some g -> zarr_open_group w = (Ok g, w).
Proof.
  intros Hf Ht. unfold zarr_open_group, bind, access_target. by rewrite Hf, Ht.
Qed.

Lemma xr_open_zarr_run (w : World) (g : ZGroup) :
  target_fault w = None -> target w = Some g ->
  xr_open_zarr w = (Ok (map (fun p => (p.1, variable_of_zarr p.2)) (map_to_list g)), w).
Proof.
  intros Hf Ht. unfold xr_open_zarr, bind, access_target. by rewrite Hf, Ht.
Qed.

(** The axes [expand_target_dim] finds belong to arrays of the group. *)
Lemma sequence_axes_run (dim : string) (g : ZGroup) :
  exists sequence_axes : PyDict.t string Z,
    sequence_axes_of dim (map (fun p => (p.1, variable_of_zarr p.2)) (map_to_list g))
    = Ok sequence_axes /\
    forall va, va ∈ sequence_axes -> is_Some (g !! va.1).
Proof.
  unfold sequence_axes_of.
  set (ds := map (fun p => (p.1, variable_of_zarr p.2)) (map_to_list g)).
  match goal with
  | |- context [mapR ?f ?l] => destruct (mapR_Ok_all f l) as (pairs & Hp & _)
  end.
  { intros p Hin. apply list_elem_of_filter in Hin as [Hd _].
    unfold get_axis_num. destruct (list_index_Ok dim (dims p.2) Hd) as [i ->].
    by eexists. }
  exists (PyDict.of_pairs pairs). rewrite Hp. split; [done|].
  intros va Hva.
  assert (va.1 ∈ PyDict.keys (PyDict.of_pairs pairs)) as Hk.
  { unfold PyDict.keys. apply list_elem_of_fmap. by exists va. }
  apply pydict_of_pairs_keys in Hk.
  rewrite (mapR_tagged_names (fun p => get_axis_num p.2 dim) _ _ Hp) in Hk.
  apply list_elem_of_fmap in Hk as (p & Ep & Hin).
  apply list_elem_of_filter in Hin as [_ Hin].
  unfold ds in Hin. apply list_elem_of_fmap in Hin as ([name arr] & -> & Hin).
  apply elem_of_map_to_list in Hin. rewrite Ep. by eexists.
Qed.

(** C9.  [expand_target_dim], run on a target that is there and holds the
    dimension as an array, returns normally and leaves that array holding
    zeros at every index: whatever coordinate values it held, read from the
    initialization chunks or otherwise, are gone. *)
Theorem expand_target_dim_zeroes_coordinate (dim : string) (dimsize : Z)
    (w : World) (g : ZGroup) (a : ZArray)
    (Hfault : target_fault w = None)
    (Htarget : target w = Some g)
    (Hdim : g !! dim = Some a) :
  exists w' g' a',
    expand_target_dim dim dimsize w = (Ok tt, w') /\
    target w' = Some g' /\
    g' !! dim = Some a' /\
    forall idx, z_data a' idx = 0.
Proof.
  destruct (sequence_axes_run dim g) as (sa & Hsa & Hin).
  destruct (resize_loop_runs dimsize sa w) as (w2 & Hloop & Hf2 & Hdom).
  { intros va Hva. unfold current_group. rewrite Htarget. by apply Hin. }
  assert (is_Some (current_group w2 !! dim)) as [a2 Ha2].
  { apply Hdom. unfold current_group. rewrite Htarget. by eexists. }
  eexists _, _, (zarr_fill a2 0).
  unfold expand_target_dim. unfold bind at 1.
  rewrite (zarr_open_group_run w g Hfault Htarget).
  unfold bind at 1. unfold open_target.
  rewrite (xr_open_zarr_run w g Hfault Htarget).
  unfold bind at 1. unfold reading at 1. cbv beta. rewrite Hsa.
  unfold bind at 1. rewrite Hloop.
  unfold bind at 1. unfold reading at 1. cbv beta. fold (current_group w2).
  rewrite bool_decide_eq_true_2 by (by eexists).
  unfold bind, zgroup_getitem, zgroup_setitem. fold (current_group w2). rewrite Ha2.
  cbn [of_option target with_target].
  repeat split. apply lookup_insert_eq.
Qed.

(** The same without assumptions on the world before: if
    [expand_target_dim] returns at all, the dimension's array, if the
    target has one, holds zeros. *)
Lemma expand_target_dim_post (dim : string) (dimsize : Z) (w w' : World) :
  expand_target_dim dim dimsize w = (Ok tt, w') ->
  forall g' a', target w' = Some g' -> g' !! dim = Some a' ->
  forall idx, z_data a' idx = 0.
Proof.
  unfold expand_target_dim. intros H g' a' Hg' Ha' idx.
  unfold bind at 1 in H. destruct (zarr_open_group w) as [[zg|e] w1]; [|done].
  unfold bind at 1 in H. destruct (open_target w1) as [[ds|e] w2]; [|done].
  unfold bind at 1 in H. destruct (reading _ w2) as [[sa|e] w3]; [|done].
  unfold bind at 1 in H. destruct (for_each sa _ w3) as [[[]|e] w4]; [|done].
  unfold bind at 1, reading at 1 in H. fold (current_group w4) in H.
  destruct (bool_decide (is_Some (current_group w4 !! dim))) eqn:Hb.
  - unfold bind, zgroup_getitem, zgroup_setitem in H. fold (current_group w4) in H.
    destruct (current_group w4 !! dim) as [a4|]; [|done].
    cbn [of_option] in H. injection H as <-. cbn [target with_target] in Hg'.
    injection Hg' as <-. rewrite lookup_insert_eq in Ha'. by injection Ha' as <-.
  - apply bool_decide_eq_false in Hb. unfold ret in H. injection H as <-.
    destruct Hb. unfold current_group. rewrite Hg'. by eexists.
Qed.

(** ** [store_chunk] and the arrays it does not write *)

Lemma write_variables_region_frame (dim : string) (start stop : Z) (v : string)
    (ds : Dataset) :
  forall g g' : ZGroup,
    write_variables_region dim start stop g ds = Ok g' ->
    v ∉ map fst ds -> g' !! v = g !! v.
Proof.
  induction ds as [|p ds IH]; intros g g' H Hv; simpl in H.
  - by injection H as <-.
  - apply not_elem_of_cons in Hv as [Hne Hv].
    unfold write_variable_region in H at 1.
    destruct (get_axis_num p.2 dim); [|done]. simpl in H.
    destruct (g !! p.1); [|done]. simpl in H.
    rewrite (IH _ _ H Hv). by rewrite lookup_insert_ne.
Qed.

Lemma drop_vars_names (ds : Dataset) (names : list string) (v : string) :
  v ∈ names -> v ∉ map fst (drop_vars ds names).
Proof.
  intros Hv Hin. apply list_elem_of_fmap in Hin as (p & -> & Hp).
  unfold drop_vars in Hp. apply list_elem_of_filter in Hp as [Hp _]. done.
Qed.

Lemma drop_vars_keeps_dim (dim : string) (ds : Dataset) (p : string * DataArray) :
  p ∈ drop_vars ds (map fst (filter (fun q => dim ∉ dims q.2) ds)) -> dim ∈ dims p.2.
Proof.
  intros Hp. unfold drop_vars in Hp. apply list_elem_of_filter in Hp as [Hn Hp].
  destruct (decide (dim ∈ dims p.2)) as [|Hd]; [done|].
  destruct Hn. apply list_elem_of_fmap. exists p. split; [done|].
  by apply list_elem_of_filter.
Qed.

Section lifecycle_facts.
Context (xr_concat : list Dataset -> string -> result Dataset).
Context (fix_scalar_attr_encoding : Dataset -> Dataset).

Lemma keeps_create_target (r : Recipe) :
  keeps_metadata (create_target xr_concat fix_scalar_attr_encoding r).
Proof. unfold create_target. keeps. Qed.

(** The lengths depend on the world through the metadata cache only. *)
Lemma foldR_ext {A B} (f g : B -> A -> result B) (acc : B) (l : list A) :
  (forall b a, f b a = g b a) -> foldR f acc l = foldR g acc l.
Proof.
  intros H. revert acc. induction l as [|a l IH]; intros acc; [done|].
  simpl. rewrite H. destruct (g acc a); simpl; [apply IH|done].
Qed.

Lemma input_sequence_lens_metadata (r : Recipe) (w1 w2 : World) (ks : list key) :
  metadata_cache w1 = metadata_cache w2 ->
  input_sequence_lens r w1 ks = input_sequence_lens r w2 ks.
Proof. intros H. unfold input_sequence_lens, get_input_meta. by rewrite H. Qed.

Lemma sequence_lens_metadata (r : Recipe) (w1 w2 : World) :
  metadata_cache w1 = metadata_cache w2 -> sequence_lens r w1 = sequence_lens r w2.
Proof.
  intros H. unfold sequence_lens. destruct (pattern r) as [urls|p].
  - destruct (iter_inputs r); [|done]. simpl. by apply input_sequence_lens_metadata.
  - unfold multivar_sequence_lens.
    erewrite foldR_ext; [reflexivity|]. intros d v. cbv beta.
    destruct (iter_inputs r); [|done]. simpl.
    destruct (filterR _ _); [|done]. simpl.
    by rewrite (input_sequence_lens_metadata r w1 w2).
Qed.

Lemma global_input_sequence_lens_metadata (w1 w2 : World) :
  metadata_cache w1 = metadata_cache w2 ->
  global_input_sequence_lens w1 = global_input_sequence_lens w2.
Proof. intros H. unfold global_input_sequence_lens. by rewrite H. Qed.

Lemma as_int_list_JInt (lens : list Z) :
  Json.as_int_list (Json.JList (map Json.JInt lens)) = Ok lens.
Proof.
  simpl. induction lens as [|n lens IH]; [done|]. simpl. by rewrite IH.
Qed.

(** Reading the global record back right after it has been written. *)
Lemma global_input_sequence_lens_written (w : World) (lens : list Z) :
  global_input_sequence_lens
    (with_metadata
       (<[_GLOBAL_METADATA_KEY :=
            Json.dumps (Json.JDict [("input_sequence_lens", Json.JList (map Json.JInt lens))])]>
          (metadata_cache w)) w)
  = Ok lens.
Proof.
  unfold global_input_sequence_lens. cbn [metadata_cache with_metadata].
  rewrite lookup_insert_eq. cbn [of_option rbind].
  rewrite JsonFacts.loads_dumps_int_list_record. cbn [rbind].
  change (Json.getitem _ "input_sequence_lens")
    with (Ok (Json.JList (map Json.JInt lens))).
  cbn [rbind]. apply as_int_list_JInt.
Qed.

(** What a successful [expand_and_record] has done, when the lengths are
    not constant. *)
Lemma expand_and_record_persists (r : Recipe) (w w' : World) :
  truthy (nitems_per_input r) = false ->
  expand_and_record r w = (Ok tt, w') ->
  exists lens, sequence_lens r w = Ok lens /\ global_input_sequence_lens w' = Ok lens.
Proof.
  intros Hn H. unfold expand_and_record, bind, reading in H.
  destruct (sequence_lens r w) as [lens|e] eqn:Hl; [|done].
  exists lens. split; [done|].
  destruct (expand_target_dim (sequence_dim r) (sum lens) w) as [[[]|e] w2] eqn:He; [|done].
  rewrite Hn in H. simpl in H. inversion H. apply global_input_sequence_lens_written.
Qed.

Lemma prepare_target_persists (r : Recipe) (w w' : World) :
  truthy (nitems_per_input r) = false ->
  _prepare_target xr_concat fix_scalar_attr_encoding r w = (Ok tt, w') ->
  exists lens, sequence_lens r w = Ok lens /\ global_input_sequence_lens w' = Ok lens.
Proof.
  intros Hn H. unfold _prepare_target in H. unfold bind at 1 in H.
  pose proof (keeps_try_except
                (bind open_target (fun _ => ret tt)) (create_target xr_concat fix_scalar_attr_encoding r)
                target_probe_handled) as Hk.
  match type of H with
  | match ?m w with _ => _ end = _ => destruct (m w) as [[[]|e] w1] eqn:Ht; [|done]
  end.
  specialize (Hk ltac:(unfold open_target; keeps) (keeps_create_target r) w).
  rewrite Ht in Hk. simpl in Hk.
  destruct (expand_and_record_persists r w1 w' Hn H) as (lens & Hl & Hg).
  exists lens. split; [|done]. by rewrite <- (sequence_lens_metadata r w1 w).
Qed.

(** C8.  When [nitems_per_input] is [None] and [prepare_target] has run,
    the list of lengths that [region_and_conflicts_for_chunk] decodes from
    the global metadata record is the list [sequence_lens()] that
    [prepare_target] computed and wrote there: writing it as JSON and
    reading it back keeps the lengths and their order. *)
Theorem global_metadata_round_trip (r : Recipe) (w w' : World)
    (Hnone : nitems_per_input r = None)
    (Hrun : _prepare_target xr_concat fix_scalar_attr_encoding r w = (Ok tt, w')) :
  exists lens,
    sequence_lens r w = Ok lens /\
    metadata_cache w' !! _GLOBAL_METADATA_KEY
      = Some (Json.dumps (Json.JDict [("input_sequence_lens", Json.JList (map Json.JInt lens))])) /\
    global_input_sequence_lens w' = Ok lens.
Proof.
  assert (truthy (nitems_per_input r) = false) as Hn by (by rewrite Hnone).
  destruct (prepare_target_persists r w w' Hn Hrun) as (lens & Hl & Hg).
  exists lens. split; [done|]. split; [|done].
  unfold _prepare_target in Hrun. unfold bind at 1 in Hrun.
  match type of Hrun with
  | match ?m w with _ => _ end = _ => destruct (m w) as [[[]|e] w1] eqn:Ht; [|done]
  end.
  unfold expand_and_record, bind, reading in Hrun.
  pose proof (sequence_lens_metadata r w1 w) as Hs.
  pose proof (keeps_try_except
                (bind open_target (fun _ => ret tt)) (create_target xr_concat fix_scalar_attr_encoding r)
                target_probe_handled ltac:(unfold open_target; keeps) (keeps_create_target r) w) as Hk.
  rewrite Ht in Hk. simpl in Hk. rewrite (Hs Hk), Hl in Hrun.
  destruct (expand_target_dim (sequence_dim r) (sum lens) w1) as [[[]|e] w2]; [|done].
  rewrite Hn in Hrun. simpl in Hrun. inversion Hrun.
  cbn [metadata_cache with_metadata]. by rewrite lookup_insert_eq.
Qed.

(** C5.  A single-sequence recipe with [nitems_per_input = None], one
    input per chunk and four inputs whose cached lengths are 3, 4, 2 and
    5: once [prepare_target] has run, the four chunk keys are, in order,
    [(0,)], [(1,)], [(2,)] and [(3,)], and their write regions are
    [[0,3)], [[3,7)], [[7,9)] and [[9,14)]. *)
Theorem example_B_regions (c : Config) (u0 u1 u2 u3 : string) (r : Recipe) (w w' : World)
    (Hnone : nitems_per_input c = None)
    (Hone : inputs_per_chunk c = 1)
    (Hr : sequential_post_init c [u0; u1; u2; u3] = Ok r)
    (Hlens : sequence_lens r w = Ok [3; 4; 2; 5])
    (Hrun : _prepare_target xr_concat fix_scalar_attr_encoding r w = (Ok tt, w')) :
  iter_chunks r = [[AInt 0]; [AInt 1]; [AInt 2]; [AInt 3]] /\
  mapR (region_for_chunk r w') (iter_chunks r)
  = Ok [(sequence_dim c, (0, 3)); (sequence_dim c, (3, 7));
        (sequence_dim c, (7, 9)); (sequence_dim c, (9, 14))].
Proof.
  unfold sequential_post_init in Hr. rewrite Hone in Hr.
  destruct (base_post_init c) as [b|e] eqn:Hb; [|done].
  vm_compute in Hr. injection Hr as Er.
  assert (config r = c) as Hc by (by rewrite <- Er).
  assert (pattern r = Sequential [u0; u1; u2; u3]) as Hp by (by rewrite <- Er).
  assert (_chunks_inputs r
          = [([AInt 0], [[AInt 0]]); ([AInt 1], [[AInt 1]]);
             ([AInt 2], [[AInt 2]]); ([AInt 3], [[AInt 3]])]) as Hci by (by rewrite <- Er).
  clear Er.
  assert (truthy (nitems_per_input r) = false) as Hn by (by rewrite Hc, Hnone).
  destruct (prepare_target_persists r w w' Hn Hrun) as (lens & Hl & Hg).
  rewrite Hl in Hlens. injection Hlens as ->.
  unfold iter_chunks. rewrite Hci. split; [reflexivity|].
  unfold region_for_chunk, region_and_conflicts_for_chunk, inputs_for_chunk, input_position.
  rewrite Hn, Hg, Hci, Hp, Hc.
  generalize (_sequence_dim_chunks r) (sequence_dim c). intros z d.
  cbv -[Z.div Z.sub Z.add Z.to_nat]. reflexivity.
Qed.

(** Every [prepare_target] call that returns has run [expand_target_dim]:
    the array of the sequence dimension, if the target has one, holds
    zeros. *)
Lemma prepare_target_zeroes_coordinate (r : Recipe) (w w' : World) :
  _prepare_target xr_concat fix_scalar_attr_encoding r w = (Ok tt, w') ->
  forall g' a', target w' = Some g' -> g' !! sequence_dim r = Some a' ->
  forall idx, z_data a' idx = 0.
Proof.
  intros H g' a' Hg' Ha'. unfold _prepare_target in H. unfold bind at 1 in H.
  match type of H with
  | match ?m w with _ => _ end = _ => destruct (m w) as [[[]|e] w1]; [|done]
  end.
  unfold expand_and_record, bind, reading in H.
  destruct (sequence_lens r w1) as [lens|e]; [|done].
  destruct (expand_target_dim (sequence_dim r) (sum lens) w1) as [[[]|e] w2] eqn:He; [|done].
  apply (expand_target_dim_post _ _ _ _ He g' a'); [|done].
  destruct (negb (truthy (nitems_per_input r))); injection H as <-; done.
Qed.

(** C2 (amended).  When opening the existing target raises [e], what
    [prepare_target] does depends on the class of [e] alone:
    for [FileNotFoundError], for every other [IOError] (that is, [OSError])
    and for [GroupNotFoundError] it creates the target from the
    initialization chunks and goes on; any other exception propagates to
    the caller, and nothing is created. *)
Theorem probe_failure_handling (r : Recipe) (w w1 : World) (e : exn)
    (Hprobe : open_target w = (Raise e, w1)) :
  (is_IOError e = true \/ e = GroupNotFoundError ->
   _prepare_target xr_concat fix_scalar_attr_encoding r w
   = bind (create_target xr_concat fix_scalar_attr_encoding r)
          (fun _ => expand_and_record r) w1) /\
  (is_IOError e = false -> e <> GroupNotFoundError ->
   _prepare_target xr_concat fix_scalar_attr_encoding r w = (Raise e, w1)).
Proof.
  assert (bind open_target (fun _ => ret tt) w = (Raise e, w1)) as Hbody.
  { unfold bind. by rewrite Hprobe. }
  split.
  - intros He. unfold _prepare_target. unfold bind at 1. unfold try_except.
    rewrite Hbody.
    assert (target_probe_handled e = true) as ->; [|reflexivity].
    unfold target_probe_handled. destruct He as [-> | ->]; [|done].
    by rewrite orb_true_r.
  - intros Hio Hne. unfold _prepare_target. unfold bind at 1. unfold try_except.
    rewrite Hbody.
    assert (target_probe_handled e = false) as ->; [|reflexivity].
    unfold target_probe_handled. rewrite Hio.
    rewrite (bool_decide_eq_false_2 (e = GroupNotFoundError)) by done.
    destruct e; done.
Qed.

(** C10.  Whatever variable of the opened chunk dataset lacks the sequence
    dimension, [store_chunk] leaves the target array of that name as it
    was: the variable is dropped before the region write, and every
    variable that is written has the sequence dimension. *)
Theorem store_chunk_leaves_other_variables (r : Recipe) (chunk_key : key) (w : World)
    (ds : Dataset) (v : string) (var : DataArray)
    (Hopen : open_chunk xr_concat fix_scalar_attr_encoding r w chunk_key = Ok ds)
    (Hvar : (v, var) ∈ ds)
    (Hnodim : sequence_dim r ∉ dims var) :
  (forall p,
     p ∈ drop_vars ds (map fst (filter (fun q => sequence_dim r ∉ dims q.2) ds)) ->
     p.1 <> v /\ sequence_dim r ∈ dims p.2) /\
  current_group (snd (_store_chunk xr_concat fix_scalar_attr_encoding r chunk_key w)) !! v
  = current_group w !! v.
Proof.
  assert (v ∈ map fst (filter (fun q => sequence_dim r ∉ dims q.2) ds)) as Hdrop.
  { apply list_elem_of_fmap. exists (v, var). split; [done|].
    by apply list_elem_of_filter. }
  split.
  - intros p Hp. split; [|by apply (drop_vars_keeps_dim _ ds)].
    intros <-. apply (drop_vars_names ds _ p.1 Hdrop).
    apply list_elem_of_fmap. by exists p.
  - unfold _store_chunk. unfold bind at 1. unfold reading at 1. rewrite Hopen.
    unfold bind at 1. unfold reading at 1.
    destruct (region_and_conflicts_for_chunk r w chunk_key) as [[region conflicts]|e]; [|done].
    unfold lock_for_conflicts, to_zarr_region, bind, access_target.
    destruct (target_fault w); [done|].
    destruct (target w) as [g|] eqn:Ht; [|done].
    destruct (forallb _ _); [|done].
    destruct (write_variables_region _ _ _ g _) as [g'|e] eqn:Hw; [|done].
    unfold put_target, current_group. cbn [snd target with_target]. rewrite Ht.
    cbn [default from_option id].
    apply (write_variables_region_frame _ _ _ _ _ _ _ Hw).
    by apply drop_vars_names.
Qed.

End lifecycle_facts.


(** ** The theorems at concrete inputs *)

(** Example B: C8's hypotheses hold there, and so does its conclusion. *)
Lemma global_metadata_round_trip_witness :
  nitems_per_input (built recipe_B) = None /\
  _prepare_target concat_datasets id (built recipe_B) (cached (built recipe_B) files_B)
  = (Ok tt, prepared (built recipe_B) files_B) /\
  exists lens,
    sequence_lens (built recipe_B) (cached (built recipe_B) files_B) = Ok lens /\
    metadata_cache (prepared (built recipe_B) files_B) !! _GLOBAL_METADATA_KEY
      = Some (Json.dumps (Json.JDict [("input_sequence_lens", Json.JList (map Json.JInt lens))])) /\
    global_input_sequence_lens (prepared (built recipe_B) files_B) = Ok lens.
Proof.
  split; [vm_compute; reflexivity|]. split; [vm_compute; reflexivity|].
  apply (global_metadata_round_trip concat_datasets id (built recipe_B)
           (cached (built recipe_B) files_B) (prepared (built recipe_B) files_B));
    vm_compute; reflexivity.
Defined.

(** Example B: C5's hypotheses hold there, and so does its conclusion. *)
Lemma example_B_regions_witness :
  iter_chunks (built recipe_B) = [[AInt 0]; [AInt 1]; [AInt 2]; [AInt 3]] /\
  mapR (region_for_chunk (built recipe_B) (prepared (built recipe_B) files_B))
       (iter_chunks (built recipe_B))
  = Ok [("time", (0, 3)); ("time", (3, 7)); ("time", (7, 9)); ("time", (9, 14))].
Proof.
  apply (example_B_regions concat_datasets id (example_config "time" 1 None [("time", 4)])
           "a.nc" "b.nc" "c.nc" "d.nc" (built recipe_B)
           (cached (built recipe_B) files_B) (prepared (built recipe_B) files_B));
    vm_compute; reflexivity.
Defined.


(** C2 (counterexample).  The target of Example B exists, with all its
    chunks stored, and the store fails once with a [PermissionError] when
    the probe opens it.  That is an I/O failure other than "not found", yet
    it does not reach the caller: [prepare_target] returns normally, having
    created the target anew from the initialization chunk, so that
    [temp[5, 0]], stored as 500, reads 0 afterwards. *)
Lemma permission_error_taken_for_absence :
  fst (open_target (with_fault PermissionError (stored (built recipe_B) files_B)))
  = Raise PermissionError /\
  PermissionError <> FileNotFoundError /\
  PermissionError <> GroupNotFoundError /\
  fst (_prepare_target concat_datasets id (built recipe_B)
         (with_fault PermissionError (stored (built recipe_B) files_B)))
  = Ok tt /\
  fst (_prepare_target concat_datasets id (built recipe_B)
         (with_fault PermissionError (stored (built recipe_B) files_B)))
  <> Raise PermissionError /\
  target_element (with_fault PermissionError (stored (built recipe_B) files_B))
    "temp" [5; 0] = Some 500 /\
  target_element
    (exec (_prepare_target concat_datasets id (built recipe_B))
          (with_fault PermissionError (stored (built recipe_B) files_B)))
    "temp" [5; 0] = Some 0.
Proof.
  split; [vm_compute; reflexivity|]. split; [discriminate|]. split; [discriminate|].
  assert (fst (_prepare_target concat_datasets id (built recipe_B)
                 (with_fault PermissionError (stored (built recipe_B) files_B)))
          = Ok tt) as H by (vm_compute; reflexivity).
  split; [exact H|]. split; [rewrite H; discriminate|].
  split; vm_compute; reflexivity.
Qed.

(** Example B with the failing probe: C2's amended statement applies. *)
Lemma probe_failure_handling_witness :
  open_target (with_fault PermissionError (stored (built recipe_B) files_B))
  = (Raise PermissionError, stored (built recipe_B) files_B) /\
  (is_IOError PermissionError = true \/ PermissionError = GroupNotFoundError ->
   _prepare_target concat_datasets id (built recipe_B)
     (with_fault PermissionError (stored (built recipe_B) files_B))
   = bind (create_target concat_datasets id (built recipe_B))
          (fun _ => expand_and_record (built recipe_B))
          (stored (built recipe_B) files_B)) /\
  (is_IOError PermissionError = false -> PermissionError <> GroupNotFoundError ->
   _prepare_target concat_datasets id (built recipe_B)
     (with_fault PermissionError (stored (built recipe_B) files_B))
   = (Raise PermissionError, stored (built recipe_B) files_B)).
Proof.
  assert (open_target (with_fault PermissionError (stored (built recipe_B) files_B))
          = (Raise PermissionError, stored (built recipe_B) files_B)) as H
    by (vm_compute; reflexivity).
  split; [exact H|].
  exact (probe_failure_handling concat_datasets id (built recipe_B) _ _ PermissionError H).
Defined.

(** Example B, all chunks stored: C9's hypotheses hold there, and the
    [time] coordinate, which held 0, 1, ..., 13, holds zeros afterwards. *)
Lemma expand_target_dim_zeroes_coordinate_witness :
  target_element (stored (built recipe_B) files_B) "time" [5] = Some 5 /\
  exists w' g' a',
    expand_target_dim "time" 14 (stored (built recipe_B) files_B) = (Ok tt, w') /\
    target w' = Some g' /\
    g' !! "time" = Some a' /\
    forall idx, z_data a' idx = 0.
Proof.
  split; [vm_compute; reflexivity|].
  eapply (expand_target_dim_zeroes_coordinate "time" 14 (stored (built recipe_B) files_B)).
  - vm_compute; reflexivity.
  - vm_compute; reflexivity.
  - vm_compute; reflexivity.
Defined.

(** Example B: the coordinate values of the initialization chunk (0, 1, 2)
    are not in the target after [prepare_target]. *)
Lemma prepare_target_drops_coordinate_values :
  (exists var,
     PyDict.get (opened (built recipe_B) (cached (built recipe_B) files_B) [AInt 0]) "time"
     = Some var /\ data var [1] = 1) /\
  target_element (prepared (built recipe_B) files_B) "time" [1] = Some 0.
Proof. split; [eexists; split|]; vm_compute; reflexivity. Qed.

(** Example B: the second chunk's dataset has the coordinate [x], which
    lacks [time]; C10's hypotheses hold, and storing the chunk leaves the
    target's [x] alone. *)
Lemma store_chunk_leaves_other_variables_witness :
  (forall p,
     p ∈ drop_vars (opened (built recipe_B) (prepared (built recipe_B) files_B) [AInt 1])
           (map fst (filter (fun q => sequence_dim (built recipe_B) ∉ dims q.2)
                            (opened (built recipe_B) (prepared (built recipe_B) files_B) [AInt 1]))) ->
     p.1 <> "x" /\ sequence_dim (built recipe_B) ∈ dims p.2) /\
  current_group (snd (_store_chunk concat_datasets id (built recipe_B) [AInt 1]
                        (prepared (built recipe_B) files_B))) !! "x"
  = current_group (prepared (built recipe_B) files_B) !! "x".
Proof.
  apply (store_chunk_leaves_other_variables concat_datasets id (built recipe_B) [AInt 1]
           (prepared (built recipe_B) files_B)
           (opened (built recipe_B) (prepared (built recipe_B) files_B) [AInt 1])
           "x" x_coordinate).
  - vm_compute; reflexivity.
  - apply list_elem_of_In. vm_compute. right. right. left. reflexivity.
  - apply (bool_decide_unpack (sequence_dim (built recipe_B) ∉ dims x_coordinate)).
    vm_compute. exact I.
Defined.


(** ** Dictionaries built from distinct keys *)

Lemma pydict_set_fresh {K V} `{EqDecision K} (d : PyDict.t K V) (k : K) (v : V) :
  k ∉ PyDict.keys d -> PyDict.set d k v = d ++ [(k, v)].
Proof.
  induction d as [|[k' v'] d IH]; simpl; intros Hk; [done|].
  apply not_elem_of_cons in Hk as [Hne Hk].
  destruct (decide (k' = k)); [congruence|]. by rewrite IH.
Qed.

Lemma pydict_fold_set_fresh {K V A} `{EqDecision K} (f : A -> K) (g : A -> V) (l : list A) :
  forall d : PyDict.t K V,
    NoDup (map f l) ->
    (forall k, k ∈ map f l -> k ∉ PyDict.keys d) ->
    fold_left (fun d a => PyDict.set d (f a) (g a)) l d
    = d ++ map (fun a => (f a, g a)) l.
Proof.
  induction l as [|a l IH]; intros d Hnd Hfresh; simpl.
  - by rewrite app_nil_r.
  - apply NoDup_cons in Hnd as [Ha Hnd].
    rewrite pydict_set_fresh by (apply Hfresh; by left).
    rewrite IH; [by rewrite <- app_assoc|done|].
    intros k Hk. unfold PyDict.keys. rewrite map_app. simpl.
    intros Hin. apply elem_of_app in Hin as [Hin|Hin].
    + apply (Hfresh k); [by right|done].
    + apply list_elem_of_singleton in Hin. by subst.
Qed.

Lemma pydict_of_pairs_NoDup {K V} `{EqDecision K} (l : list (K * V)) :
  NoDup (map fst l) -> PyDict.of_pairs l = l.
Proof.
  intros Hnd. unfold PyDict.of_pairs.
  rewrite (pydict_fold_set_fresh fst snd l []); [|done|].
  - simpl. induction l as [|[k v] l IH]; [done|]. simpl. f_equal. apply IH.
    by apply NoDup_cons in Hnd as [_ ?].
  - intros k _ Hin. by apply elem_of_nil in Hin.
Qed.

Lemma pydict_get_elem {K V} `{EqDecision K} (d : PyDict.t K V) (k : K) (v : V) :
  NoDup (PyDict.keys d) -> (k, v) ∈ d -> PyDict.get d k = Some v.
Proof.
  induction d as [|[k' v'] d IH]; simpl; intros Hnd Hin.
  - by apply elem_of_nil in Hin.
  - apply NoDup_cons in Hnd as [Hk' Hnd].
    apply elem_of_cons in Hin as [Heq|Hin].
    + injection Heq as -> ->. by rewrite decide_True.
    + destruct (decide (k' = k)) as [->|]; [|by apply IH].
      destruct Hk'. apply list_elem_of_fmap. by exists (k, v).
Qed.

(** A comprehension over the keys of a dictionary, item by item. *)
Lemma mapR_keys {K V B} `{EqDecision K} (f : K -> result B) (h : K * V -> B)
    (d : PyDict.t K V) :
  (forall p, p ∈ d -> f p.1 = Ok (h p)) ->
  mapR f (PyDict.keys d) = Ok (map h d).
Proof.
  induction d as [|p d IH]; intros H; [done|].
  simpl. rewrite H by left. simpl. rewrite IH; [done|].
  intros q Hq. apply H. by right.
Qed.

(** ** Batches *)

Lemma chunks_of_concat {A} (size : nat) (l : list A) :
  (0 < size)%nat -> concat (chunks_of size l) = l.
Proof.
  intros Hs. funelim (chunks_of size l); simp chunks_of; try done; [lia|].
  simpl. rewrite H by lia. by rewrite take_drop.
Qed.

Lemma chunks_of_nonempty {A} (size : nat) (l : list A) :
  (0 < size)%nat -> l <> [] -> chunks_of size l <> [].
Proof.
  intros Hs Hl. destruct size as [|n]; [lia|]. destruct l as [|x l]; [done|].
  by simp chunks_of.
Qed.

(** When the batch size divides the number of items, every batch is full. *)
Lemma chunks_of_length_exact {A} (size : nat) (q : nat) : forall l : list A,
  (0 < size)%nat -> length l = (q * size)%nat -> length (chunks_of size l) = q.
Proof.
  induction q as [|q IH]; intros l Hs Hl.
  - destruct l; [|simpl in Hl; lia]. destruct size; by simp chunks_of.
  - destruct size as [|n]; [lia|]. destruct l as [|x l]; [simpl in Hl; lia|].
    simp chunks_of. simpl. f_equal. apply IH; [lia|].
    rewrite length_drop. simpl in Hl. lia.
Qed.

(** ** Sums *)

Lemma sum_app (l1 l2 : list Z) : sum (l1 ++ l2) = sum l1 + sum l2.
Proof. unfold sum. induction l1 as [|x l1 IH]; simpl; lia. Qed.

Lemma sum_concat_map {A} (f : A -> Z) (groups : list (list A)) :
  sum (map (fun group => sum (map f group)) groups) = sum (map f (concat groups)).
Proof.
  induction groups as [|b groups IH]; [done|].
  simpl. rewrite map_app, sum_app. unfold sum in *. simpl. lia.
Qed.

Lemma sum_replicate (n : nat) (x : Z) : sum (replicate n x) = Z.of_nat n * x.
Proof. unfold sum. induction n as [|n IH]; simpl; lia. Qed.

Lemma sum_map_const {A} (x : Z) (l : list A) :
  sum (map (fun _ => x) l) = Z.of_nat (length l) * x.
Proof. unfold sum. induction l as [|a l IH]; simpl; lia. Qed.


(** ** What [__post_init__] builds: the single-sequence recipe *)

(** The input keys [(0,), ..., (n-1,)]. *)
Definition sequence_keys (n : nat) : list key :=
  map (fun i => [AInt i]) (seqZ 0 (Z.of_nat n)).

#[local] Instance AInt_key_inj : Inj (=) (=) (fun i : Z => [AInt i]).
Proof. intros i j H. by injection H. Qed.

Lemma enumerate_fst {A} (l : list A) : map fst (enumerate l) = seqZ 0 (Z.of_nat (length l)).
Proof. unfold enumerate. apply fst_zip. rewrite length_seqZ. lia. Qed.

Lemma enumerate_snd {A} (l : list A) : map snd (enumerate l) = l.
Proof. unfold enumerate. apply snd_zip. rewrite length_seqZ. lia. Qed.

(** The dictionary [{(k,): v for k, v in enumerate(l)}]. *)
Lemma enumerated_dict {A} (l : list A) :
  let pairs : list (key * A) :=
    map (fun p : Z * A => (([AInt p.1] : key), p.2)) (enumerate l) in
  PyDict.of_pairs pairs = pairs /\
  PyDict.keys pairs = sequence_keys (length l) /\
  PyDict.values pairs = l /\
  NoDup (PyDict.keys pairs).
Proof.
  intros pairs.
  assert (PyDict.keys pairs = sequence_keys (length l)) as Hk.
  { unfold PyDict.keys, pairs, sequence_keys. rewrite map_map. simpl.
    rewrite <- (enumerate_fst l), map_map. done. }
  assert (NoDup (PyDict.keys pairs)) as Hnd.
  { rewrite Hk. unfold sequence_keys. apply (NoDup_fmap_2 _). apply NoDup_seqZ. }
  split; [by apply pydict_of_pairs_NoDup|]. split; [done|]. split; [|done].
  unfold PyDict.values, pairs. rewrite map_map. simpl. apply enumerate_snd.
Qed.

Lemma sequence_keys_head (n : nat) : (0 < n)%nat -> head (sequence_keys n) = Some [AInt 0].
Proof.
  intros Hn. unfold sequence_keys. rewrite seqZ_cons by lia. done.
Qed.

Lemma sequence_keys_elem (n : nat) (k : key) :
  k ∈ sequence_keys n <-> exists i, k = [AInt i] /\ 0 <= i < Z.of_nat n.
Proof.
  unfold sequence_keys. rewrite list_elem_of_fmap. split.
  - intros (i & -> & Hi). apply elem_of_seqZ in Hi. exists i. split; [done|lia].
  - intros (i & -> & Hi). exists i. split; [done|]. apply elem_of_seqZ. lia.
Qed.

(** The recipe [NetCDFtoZarrSequentialRecipe.__post_init__] returns. *)
Lemma sequential_post_init_shape (c : Config) (urls : list string) (r : Recipe) :
  sequential_post_init c urls = Ok r ->
  let batches :=
    chunks_of (Z.to_nat (inputs_per_chunk c)) (sequence_keys (length urls)) in
  config r = c /\
  pattern r = Sequential urls /\
  _n_inputs_along_sequence r = Z.of_nat (length urls) /\
  (exists b, base_post_init c = Ok b /\ _sequence_dim_chunks r = b.2) /\
  _chunks_inputs r = map (fun p : Z * list key => ([AInt p.1], p.2)) (enumerate batches) /\
  iter_chunks r = sequence_keys (length batches) /\
  PyDict.values (_chunks_inputs r) = batches /\
  NoDup (iter_chunks r) /\
  _init_chunks r = [[AInt 0]] /\
  (0 < length batches)%nat /\
  (0 < Z.to_nat (inputs_per_chunk c))%nat.
Proof.
  intros H batches. unfold sequential_post_init in H.
  destruct (base_post_init c) as [b|e] eqn:Hb; [|done]. cbn [rbind] in H.
  destruct (enumerated_dict urls) as (Hi1 & Hi2 & Hi3 & Hi4).
  unfold ExplicitURLSequence in H. rewrite Hi1, Hi2 in H.
  unfold chunked_iterable in H. fold batches in H.
  destruct (enumerated_dict batches) as (Hc1 & Hc2 & Hc3 & Hc4).
  rewrite Hc1, Hc2 in H.
  assert (0 < length batches)%nat as Hm.
  { destruct batches; [done|simpl; lia]. }
  rewrite (sequence_keys_head _ Hm) in H. cbn [of_option rbind] in H.
  injection H as <-. cbn [config pattern _n_inputs_along_sequence _sequence_dim_chunks
                          _chunks_inputs _init_chunks iter_chunks].
  rewrite length_map. unfold enumerate at 1. rewrite length_zip, length_seqZ.
  repeat split; try done.
  - lia.
  - by exists b.
  - unfold batches in Hm. destruct (Z.to_nat (inputs_per_chunk c)); [|lia].
    revert Hm. by simp chunks_of.
Qed.


Lemma chunks_of_elem_nonempty {A} (size : nat) (l : list A) (b : list A) :
  b ∈ chunks_of size l -> b <> [].
Proof.
  funelim (chunks_of size l); simp chunks_of; intros Hb.
  - by apply elem_of_nil in Hb.
  - by apply elem_of_nil in Hb.
  - apply elem_of_cons in Hb as [->|Hb]; [done|]. by apply H.
Qed.

Lemma elem_of_concat_group {A} (groups : list (list A)) (b : list A) (x : A) :
  b ∈ groups -> x ∈ b -> x ∈ concat groups.
Proof.
  induction groups as [|g groups IH]; intros Hb Hx; [by apply elem_of_nil in Hb|].
  simpl. apply elem_of_app. apply elem_of_cons in Hb as [->|Hb]; [by left|].
  right. by apply IH.
Qed.

(** A chunk of the single-sequence recipe: its key is [(j,)], its inputs
    are a non-empty batch of input keys [(i,)] with [i] below the number
    of inputs. *)
Lemma sequential_chunk_members (c : Config) (urls : list string) (r : Recipe)
    (p : key * list key) :
  sequential_post_init c urls = Ok r ->
  p ∈ _chunks_inputs r ->
  (exists j, p.1 = [AInt j]) /\
  inputs_for_chunk r p.1 = Ok p.2 /\
  p.2 <> [] /\
  (forall k, k ∈ p.2 -> exists i, k = [AInt i] /\ 0 <= i < Z.of_nat (length urls)).
Proof.
  intros Hr Hp.
  destruct (sequential_post_init_shape c urls r Hr)
    as (_ & _ & _ & _ & _ & Hkeys & Hvals & Hnd & _ & _ & Hsize).
  assert (p.2 ∈ chunks_of (Z.to_nat (inputs_per_chunk c)) (sequence_keys (length urls))) as Hb.
  { rewrite <- Hvals. unfold PyDict.values. apply list_elem_of_fmap. by exists p. }
  split; [|split; [|split]].
  - assert (p.1 ∈ iter_chunks r) as Hk.
    { unfold iter_chunks, PyDict.keys. apply list_elem_of_fmap. by exists p. }
    rewrite Hkeys in Hk. apply sequence_keys_elem in Hk as (j & Hj & _). by exists j.
  - unfold inputs_for_chunk, PyDict.getitem.
    rewrite (pydict_get_elem (_chunks_inputs r) p.1 p.2 Hnd); [done|by destruct p].
  - by apply (chunks_of_elem_nonempty _ _ _ Hb).
  - intros k Hk. apply sequence_keys_elem.
    rewrite <- (chunks_of_concat (Z.to_nat (inputs_per_chunk c))
                  (sequence_keys (length urls)) Hsize).
    by apply (elem_of_concat_group _ p.2).
Qed.

Lemma sequential_iter_inputs (c : Config) (urls : list string) (r : Recipe) :
  sequential_post_init c urls = Ok r ->
  iter_inputs r = Ok (sequence_keys (length urls)).
Proof.
  intros Hr.
  destruct (sequential_post_init_shape c urls r Hr)
    as (_ & _ & _ & _ & _ & _ & Hvals & _ & _ & _ & Hsize).
  unfold iter_inputs, iter_chunks.
  rewrite (mapR_keys (inputs_for_chunk r) snd).
  - cbn [rbind]. fold (PyDict.values (_chunks_inputs r)). rewrite Hvals.
    by rewrite chunks_of_concat.
  - intros p Hp. by destruct (sequential_chunk_members c urls r p Hr Hp) as (_ & ? & _).
Qed.

(** A comprehension over the keys of a dictionary, measured item by item. *)
Lemma mapR_keys_measure {K V B} `{EqDecision K} (f : K -> result B) (g : K * V -> Z)
    (m : B -> Z) (d : PyDict.t K V) :
  (forall p, p ∈ d -> exists y, f p.1 = Ok y /\ m y = g p) ->
  exists ys, mapR f (PyDict.keys d) = Ok ys /\ sum (map m ys) = sum (map g d).
Proof.
  induction d as [|p d IH]; intros H; [by exists []|].
  destruct (H p) as (y & Hy & Hm); [by left|].
  destruct IH as (ys & Hys & Hsum); [intros q Hq; apply H; by right|].
  exists (y :: ys). simpl. rewrite Hy. cbn [rbind]. rewrite Hys. cbn [rbind].
  split; [done|]. unfold sum in *. simpl. lia.
Qed.


(** ** The lengths of a single sequence *)

Lemma dumps_int_inj (i j : Z) : Json.dumps_int i = Json.dumps_int j -> i = j.
Proof.
  intros H.
  pose proof (JsonFacts.loads_int_dumps i EmptyString eq_refl) as Hi.
  pose proof (JsonFacts.loads_int_dumps j EmptyString eq_refl) as Hj.
  rewrite H, Hj in Hi. by injection Hi.
Qed.

Lemma string_app_inj_r (s1 s2 t : string) : s1 +:+ t = s2 +:+ t -> s1 = s2.
Proof.
  revert s2. induction s1 as [|a s1 IH]; intros [|b s2] H.
  - done.
  - apply (f_equal String.length) in H. rewrite app_empty_l, app_String in H.
    simpl in H. rewrite string_length_app in H. lia.
  - apply (f_equal String.length) in H. rewrite app_empty_l, app_String in H.
    simpl in H. rewrite string_length_app in H. lia.
  - rewrite !app_String in H. injection H as -> H. f_equal. by apply IH.
Qed.

(** Distinct inputs of a single sequence have distinct metadata files. *)
Lemma input_metadata_fname_inj (i j : Z) :
  _input_metadata_fname [AInt i] = _input_metadata_fname [AInt j] -> i = j.
Proof.
  unfold _input_metadata_fname, _encode_key. cbn [map py_str str_join].
  intros H. apply (String.app_inj "input-meta-") in H.
  apply string_app_inj_r in H. by apply dumps_int_inj.
Qed.

Lemma sequence_keys_fnames_NoDup (n : nat) :
  NoDup (map _input_metadata_fname (sequence_keys n)).
Proof.
  unfold sequence_keys. rewrite map_map.
  apply NoDup_fmap_2_strong; [|apply NoDup_seqZ].
  intros i j _ _ H. by apply input_metadata_fname_inj.
Qed.

(** One length per input, when the inputs have distinct metadata files. *)
Lemma input_sequence_lens_length (r : Recipe) (w : World) (ks : list key) (lens : list Z) :
  NoDup (map _input_metadata_fname ks) ->
  input_sequence_lens r w ks = Ok lens -> length lens = length ks.
Proof.
  intros Hnd H. unfold input_sequence_lens in H.
  destruct (truthy (nitems_per_input r)).
  - injection H as <-. by rewrite length_replicate.
  - unfold get_input_meta, mapper_getitems in H.
    destruct (mapR _ (map _input_metadata_fname ks)) as [raw|] eqn:Hraw; [|done].
    cbn [rbind] in H. apply mapR_length in Hraw.
    rewrite pydict_of_pairs_NoDup in H by (rewrite fst_zip; [done|lia]).
    destruct (mapR _ (zip _ raw)) as [meta|] eqn:Hmeta; [|done].
    cbn [rbind] in H. apply mapR_length in Hmeta, H.
    unfold PyDict.values in H. rewrite length_map in H.
    rewrite H, Hmeta, length_zip, Hraw, length_map. lia.
Qed.

(** The length an input key [(i,)] has in a list of lengths. *)
Definition length_at (lens : list Z) (k : key) : Z :=
  match k with
  | [AInt i] => default 0 (lens !! Z.to_nat i)
  | _ => 0
  end.

Lemma py_index_in_range {A} (l : list A) (i : Z) :
  0 <= i < Z.of_nat (length l) -> exists x, l !! Z.to_nat i = Some x /\ py_index l i = Ok x.
Proof.
  intros Hi. destruct (lookup_lt_is_Some_2 l (Z.to_nat i)) as [x Hx]; [lia|].
  exists x. split; [done|]. unfold py_index.
  destruct (Z.ltb_spec i 0); [lia|]. destruct (Z.ltb_spec i 0); [lia|].
  by rewrite Hx.
Qed.

Lemma length_at_sequence_keys (lens : list Z) :
  map (length_at lens) (sequence_keys (length lens)) = lens.
Proof.
  apply list_eq. intros i. unfold sequence_keys. rewrite map_map, list_lookup_fmap.
  destruct (decide (i < length lens)%nat) as [Hi|Hi].
  - rewrite lookup_seqZ_lt by lia. simpl. rewrite Z.add_0_l, Nat2Z.id.
    destruct (lookup_lt_is_Some_2 lens i Hi) as [x ->]. done.
  - rewrite lookup_seqZ_ge by lia. simpl. symmetry. apply lookup_ge_None. lia.
Qed.


(** ** Write regions of the single-sequence recipe *)

Lemma bounds_from_length (from : Z) (lens : list Z) :
  length (bounds_from from lens) = length lens.
Proof. revert from. induction lens as [|n lens IH]; intros from; simpl; by f_equal. Qed.

Lemma calc_chunk_conflicts_length (chunks : list Z) (zchunks : Z) :
  length (calc_chunk_conflicts chunks zchunks) = length chunks.
Proof. unfold calc_chunk_conflicts. by rewrite length_map, bounds_from_length. Qed.

Lemma sequential_input_position (r : Recipe) (urls : list string) (i : Z) :
  pattern r = Sequential urls -> input_position r [AInt i] = Ok i.
Proof. intros Hp. unfold input_position. by rewrite Hp. Qed.

Lemma sequential_chunk_position (r : Recipe) (urls : list string) (j : Z) :
  pattern r = Sequential urls -> chunk_position r [AInt j] = Ok j.
Proof. intros Hp. unfold chunk_position. by rewrite Hp. Qed.

(** The conflicts of a chunk can be looked up whenever the table has an
    entry for each of its inputs. *)
Lemma chunk_conflicts_Ok (r : Recipe) (urls : list string) (table : list (list Z))
    (input_keys : list key) :
  pattern r = Sequential urls ->
  (forall k, k ∈ input_keys -> exists i, k = [AInt i] /\ 0 <= i < Z.of_nat (length table)) ->
  exists conflicts,
    mapR (fun k => let* i := input_position r k in py_index table i) input_keys
    = Ok conflicts.
Proof.
  intros Hp Hk.
  destruct (mapR_Ok_all (fun k => let* i := input_position r k in py_index table i)
              input_keys) as (cs & Hcs & _); [|by exists cs].
  intros k Hin. destruct (Hk k Hin) as (i & -> & Hi).
  rewrite (sequential_input_position r urls i Hp). cbn [rbind].
  destruct (py_index_in_range table i Hi) as (x & _ & ->). by exists x.
Qed.

(** On the metadata path a chunk's region starts after the lengths of the
    inputs before its first input, and is as long as its own inputs. *)
Lemma sequential_region_from_metadata (c : Config) (urls : list string) (r : Recipe)
    (w : World) (lens : list Z) (p : key * list key) :
  sequential_post_init c urls = Ok r ->
  truthy (nitems_per_input c) = false ->
  global_input_sequence_lens w = Ok lens ->
  length lens = length urls ->
  p ∈ _chunks_inputs r ->
  exists i0 rest,
    p.2 = [AInt i0] :: rest /\
    region_for_chunk r w p.1
    = Ok (sequence_dim c,
          (sum (take (Z.to_nat i0) lens),
           sum (take (Z.to_nat i0) lens) + sum (map (length_at lens) p.2))).
Proof.
  intros Hr Hn Hg Hlen Hp.
  destruct (sequential_post_init_shape c urls r Hr) as (Hc & Hpat & _).
  destruct (sequential_chunk_members c urls r p Hr Hp) as (_ & Hin & Hne & Hmem).
  destruct (p.2) as [|k0 rest] eqn:Ep2; [done|].
  destruct (Hmem k0) as (i0 & -> & Hi0); [by left|].
  exists i0, rest. split; [done|].
  unfold region_for_chunk, region_and_conflicts_for_chunk.
  rewrite Hin, Hc, Hn, Hg. cbn [rbind].
  change (py_index ([AInt i0] :: rest) 0) with (Ok [AInt i0] : result key).
  cbn [rbind]. rewrite (sequential_input_position r urls i0 Hpat). cbn [rbind].
  rewrite (mapR_Ok_map _ (length_at lens)).
  - cbn [rbind].
    destruct (chunk_conflicts_Ok r urls
                (calc_chunk_conflicts lens (_sequence_dim_chunks r))
                ([AInt i0] :: rest) Hpat) as (cs & ->).
    { intros k Hk. rewrite calc_chunk_conflicts_length, Hlen. by apply Hmem. }
    cbn [rbind fst]. unfold py_slice_to.
    destruct (Z.ltb_spec i0 0); [lia|]. done.
  - intros k Hk. destruct (Hmem k Hk) as (i & -> & Hi).
    rewrite (sequential_input_position r urls i Hpat). cbn [rbind].
    destruct (py_index_in_range lens i) as (x & Hx & ->); [lia|].
    unfold length_at. by rewrite Hx.
Qed.

(** On the fixed-length path a chunk's region is one stride long, whatever
    the chunk holds. *)
Lemma sequential_region_fixed (c : Config) (urls : list string) (r : Recipe)
    (w : World) (nitems : Z) (p : key * list key) :
  sequential_post_init c urls = Ok r ->
  nitems_per_input c = Some nitems -> nitems <> 0 ->
  p ∈ _chunks_inputs r ->
  exists j,
    p.1 = [AInt j] /\
    region_for_chunk r w p.1
    = Ok (sequence_dim c,
          (j * (nitems * inputs_per_chunk c),
           j * (nitems * inputs_per_chunk c) + nitems * inputs_per_chunk c)).
Proof.
  intros Hr Hn Hnz Hp.
  destruct (sequential_post_init_shape c urls r Hr) as (Hc & Hpat & Hnin & _).
  destruct (sequential_chunk_members c urls r p Hr Hp) as ((j & Hj) & Hin & Hne & Hmem).
  exists j. split; [done|].
  unfold region_for_chunk, region_and_conflicts_for_chunk.
  rewrite Hin, Hc, Hn, Hj. cbn [rbind truthy default from_option id].
  rewrite (proj2 (Z.eqb_neq nitems 0) Hnz). cbn [negb].
  rewrite (sequential_chunk_position r urls j Hpat). cbn [rbind].
  destruct (chunk_conflicts_Ok r urls
              (calc_chunk_conflicts
                 (replicate (Z.to_nat (_n_inputs_along_sequence r)) nitems)
                 (_sequence_dim_chunks r))
              p.2 Hpat) as (cs & ->); [|done].
  intros k Hk. rewrite calc_chunk_conflicts_length, length_replicate, Hnin, Nat2Z.id.
  by apply Hmem.
Qed.


Lemma sequence_keys_length (n : nat) : length (sequence_keys n) = n.
Proof. unfold sequence_keys. rewrite length_map, length_seqZ. lia. Qed.

(** C4 (amended).  For a single-sequence recipe whose lengths are read from
    the metadata cache, or whose number of inputs is a multiple of
    [inputs_per_chunk], every chunk key has a write region, and the lengths
    of the regions of all chunk keys add up to the declared size of the
    concatenation axis, the sum of [sequence_lens()]. *)
Theorem region_lengths_sum_to_declared_size (c : Config) (urls : list string)
    (r : Recipe) (w : World) (lens : list Z)
    (Hr : sequential_post_init c urls = Ok r)
    (Hlens : sequence_lens r w = Ok lens)
    (Hpath : (truthy (nitems_per_input c) = false /\
              global_input_sequence_lens w = Ok lens) \/
             (truthy (nitems_per_input c) = true /\
              Z.of_nat (length urls) mod inputs_per_chunk c = 0)) :
  exists regions,
    mapR (region_for_chunk r w) (iter_chunks r) = Ok regions /\
    sum (map region_length regions) = sum lens.
Proof.
  destruct (sequential_post_init_shape c urls r Hr)
    as (Hc & Hpat & _ & _ & _ & _ & Hvals & _ & _ & _ & Hsize).
  unfold sequence_lens in Hlens. rewrite Hpat in Hlens.
  rewrite (sequential_iter_inputs c urls r Hr) in Hlens. cbn [rbind] in Hlens.
  pose proof (input_sequence_lens_length r w _ lens
                (sequence_keys_fnames_NoDup (length urls)) Hlens) as Hlen.
  rewrite sequence_keys_length in Hlen.
  unfold iter_chunks.
  destruct Hpath as [[Hn Hg]|[Hn Hdiv]].
  - destruct (mapR_keys_measure (region_for_chunk r w)
                (fun p : key * list key => sum (map (length_at lens) p.2))
                region_length (_chunks_inputs r)) as (regions & Hregions & Hsum).
    { intros p Hp.
      destruct (sequential_region_from_metadata c urls r w lens p Hr Hn Hg Hlen Hp)
        as (i0 & rest & _ & ->).
      eexists. split; [done|]. unfold region_length. simpl. lia. }
    exists regions. split; [done|]. rewrite Hsum.
    rewrite <- (map_map snd (fun b => sum (map (length_at lens) b))).
    fold (PyDict.values (_chunks_inputs r)). rewrite Hvals.
    rewrite sum_concat_map, chunks_of_concat by done.
    rewrite <- Hlen. by rewrite length_at_sequence_keys.
  - destruct (nitems_per_input c) as [nitems|] eqn:Hni; [|done].
    assert (nitems <> 0) as Hnz.
    { simpl in Hn. apply negb_true_iff in Hn. by apply Z.eqb_neq. }
    destruct (mapR_keys_measure (region_for_chunk r w)
                (fun _ : key * list key => nitems * inputs_per_chunk c)
                region_length (_chunks_inputs r)) as (regions & Hregions & Hsum).
    { intros p Hp.
      destruct (sequential_region_fixed c urls r w nitems p Hr Hni Hnz Hp)
        as (j & _ & ->).
      eexists. split; [done|]. unfold region_length. simpl. lia. }
    exists regions. split; [done|]. rewrite Hsum, sum_map_const.
    unfold input_sequence_lens in Hlens. rewrite Hc, Hni in Hlens.
    cbn [truthy] in Hlens. rewrite (proj2 (Z.eqb_neq nitems 0) Hnz) in Hlens.
    injection Hlens as <-. rewrite sum_replicate, sequence_keys_length.
    cbn [default from_option id].
    assert (length (_chunks_inputs r)
            = Z.to_nat (Z.of_nat (length urls) / inputs_per_chunk c)) as ->.
    { rewrite <- (length_map snd). fold (PyDict.values (_chunks_inputs r)).
      rewrite Hvals. apply chunks_of_length_exact; [done|].
      rewrite sequence_keys_length.
      apply Nat2Z.inj. rewrite Nat2Z.inj_mul, !Z2Nat.id by
        (try apply Z.div_pos; lia).
      rewrite Z.mul_comm. apply Z.div_exact; lia. }
    rewrite Z2Nat.id by (apply Z.div_pos; lia).
    apply Z.div_exact in Hdiv; [|lia].
    rewrite Hdiv at 2. lia.
Qed.

(** Example B: C4's amended statement applies on the metadata path. *)
Lemma region_lengths_sum_to_declared_size_witness :
  exists regions,
    mapR (region_for_chunk (built recipe_B) (prepared (built recipe_B) files_B))
         (iter_chunks (built recipe_B)) = Ok regions /\
    sum (map region_length regions) = sum [3; 4; 2; 5].
Proof.
  apply (region_lengths_sum_to_declared_size
           (example_config "time" 1 None [("time", 4)]) urls_B (built recipe_B)
           (prepared (built recipe_B) files_B) [3; 4; 2; 5]).
  - vm_compute; reflexivity.
  - vm_compute; reflexivity.
  - left. split; vm_compute; reflexivity.
Defined.


(** ** What [__post_init__] builds: the multi-variable recipe *)

(** An input key [(variable, position)] and a chunk key [(variable, j)]. *)
Definition is_variable_key (k : key) : Prop := exists v o, k = [AStr v; o].
Definition is_chunk_key (k : key) : Prop := exists v j, k = [AStr v; AInt j].

Lemma foldR_invariant {A B} (P : B -> Prop) (f : B -> A -> result B) (l : list A) :
  forall acc res,
    P acc -> (forall b a b', P b -> f b a = Ok b' -> P b') ->
    foldR f acc l = Ok res -> P res.
Proof.
  induction l as [|a l IH]; intros acc res Hacc Hstep H; simpl in H.
  - by injection H as <-.
  - destruct (f acc a) as [b'|] eqn:Hf; [|done]. cbn [rbind] in H.
    apply (IH b' res); [by apply (Hstep acc a)|done|done].
Qed.

Lemma fold_left_invariant {A B} (P : B -> Prop) (f : B -> A -> B) (l : list A) :
  forall acc, P acc -> (forall b a, P b -> P (f b a)) -> P (fold_left f l acc).
Proof.
  induction l as [|a l IH]; intros acc Hacc Hstep; simpl; [done|].
  apply IH; [by apply Hstep|done].
Qed.

Lemma pydict_set_keys_Forall {K V} `{EqDecision K} (P : K -> Prop)
    (d : PyDict.t K V) (k : K) (v : V) :
  P k -> Forall P (PyDict.keys d) -> Forall P (PyDict.keys (PyDict.set d k v)).
Proof.
  intros Hk Hd. apply Forall_forall. intros k' Hk'.
  destruct (pydict_set_keys d k k' v Hk') as [->|Hin]; [done|].
  by apply (proj1 (Forall_forall _ _) Hd).
Qed.

Lemma filterR_Ok_filter {A} (cond : A -> result bool) (P : A -> Prop)
    `{forall a, Decision (P a)} (l : list A) :
  (forall a, a ∈ l -> cond a = Ok (bool_decide (P a))) ->
  filterR cond l = Ok (filter P l).
Proof.
  induction l as [|a l IH]; intros Hc; [done|].
  simpl. rewrite Hc by left. cbn [rbind]. rewrite IH by (intros; apply Hc; by right).
  cbn [rbind]. rewrite filter_cons. by destruct (decide (P a)) as [Hp|Hp];
    [rewrite bool_decide_eq_true_2|rewrite bool_decide_eq_false_2].
Qed.

(** Every key of the chunk dictionary is a pair of a variable and a number. *)
Lemma multivar_chunk_keys (c : Config) (inputs : PyDict.t key string)
    (variables : list string) (d : PyDict.t key (list key)) :
  multivar_chunks_inputs c inputs variables = Ok d -> Forall is_chunk_key (PyDict.keys d).
Proof.
  unfold multivar_chunks_inputs.
  apply (foldR_invariant (fun d => Forall is_chunk_key (PyDict.keys d))).
  - constructor.
  - intros b v b' Hb Hstep. unfold multivar_chunks_step in Hstep.
    destruct (filterR _ _) as [selected|]; [|done]. cbn [rbind] in Hstep.
    destruct (mapR _ selected) as [positions|]; [|done]. cbn [rbind] in Hstep.
    injection Hstep as <-.
    apply (fold_left_invariant (fun d => Forall is_chunk_key (PyDict.keys d))); [done|].
    intros d' p Hd'. apply pydict_set_keys_Forall; [|done]. by exists v, p.1.
Qed.

Lemma key_at_is_position (k : key) :
  is_chunk_key k ->
  key_at_is 1 (AInt 0) k = Ok (bool_decide (k !! 1%nat = Some (AInt 0))).
Proof.
  intros (v & j & ->). unfold key_at_is, key_get. cbn.
  f_equal. apply bool_decide_ext. split; [by intros ->|by intros [= ->]].
Qed.

(** The initialization chunks of a multi-variable recipe are the chunk keys
    whose position index is 0. *)
Lemma multivar_init_chunks (c : Config) (p : VariableSequencePattern) (r : Recipe) :
  multivar_post_init c p = Ok r ->
  _init_chunks r = filter (fun ck => ck !! 1%nat = Some (AInt 0)) (iter_chunks r).
Proof.
  intros H. unfold multivar_post_init in H.
  destruct (base_post_init c); [|done]. cbn [rbind] in H.
  destruct (multivar_chunks_inputs _ _ _) as [d|] eqn:Hd; [|done]. cbn [rbind] in H.
  rewrite (filterR_Ok_filter _ (fun ck => ck !! 1%nat = Some (AInt 0))) in H.
  - cbn [rbind] in H. by injection H as <-.
  - intros k Hk. apply key_at_is_position.
    by apply (proj1 (Forall_forall _ _) (multivar_chunk_keys _ _ _ _ Hd)).
Qed.


(** The positions at which a variable occurs among input keys. *)
Definition positions_of (v : string) (input_keys : list key) : list atom :=
  omap (fun k : key =>
          match k with
          | [AStr v'; o] => if decide (v' = v) then Some o else None
          | _ => None
          end)
       input_keys.

(** The chunks of one variable: [(v, j)] holds the [j]-th batch of its
    input keys. *)
Definition variable_block (c : Config) (input_keys : list key) (v : string)
    : PyDict.t key (list key) :=
  map (fun p : Z * list atom => ([AStr v; AInt p.1], map (fun o => [AStr v; o]) p.2))
      (enumerate (chunked_iterable (positions_of v input_keys) (inputs_per_chunk c))).

(** No chunk of the variable is in the dictionary yet. *)
Definition fresh_for (v : string) (d : PyDict.t key (list key)) : Prop :=
  forall k, k ∈ PyDict.keys d -> k !! 0%nat <> Some (AStr v).

Lemma iter_pattern_keys (p : VariableSequencePattern) (k : key) :
  k ∈ map fst (iter_pattern p) <->
  exists v o, k = [AStr v; o] /\ v ∈ keys_variable p /\ o ∈ keys_other p.
Proof.
  unfold iter_pattern. rewrite list_elem_of_fmap. split.
  - intros (x & -> & Hx). apply list_elem_of_bind in Hx as (v & Hx & Hv).
    apply list_elem_of_bind in Hx as (o & Hx & Ho).
    apply list_elem_of_singleton in Hx as ->. by exists v, o.
  - intros (v & o & -> & Hv & Ho). exists ([AStr v; o], format p v o). split; [done|].
    apply list_elem_of_bind. exists v. split; [|done].
    apply list_elem_of_bind. exists o. split; [|done]. by apply list_elem_of_singleton.
Qed.

Lemma pydict_set_keys_rev {K V} `{EqDecision K} (d : PyDict.t K V) (k k' : K) (v : V) :
  k' = k \/ k' ∈ PyDict.keys d -> k' ∈ PyDict.keys (PyDict.set d k v).
Proof.
  induction d as [|[k0 v0] d IH]; simpl.
  - intros [->|H]; [by left|by apply elem_of_nil in H].
  - destruct (decide (k0 = k)) as [->|Hne]; simpl.
    + intros [->|H]; [by left|done].
    + intros [->|H].
      * right. apply IH. by left.
      * apply elem_of_cons in H as [->|H]; [by left|]. right. apply IH. by right.
Qed.

Lemma pydict_of_pairs_keys_rev {K V} `{EqDecision K} (l : list (K * V)) (k : K) :
  k ∈ map fst l -> k ∈ PyDict.keys (PyDict.of_pairs l).
Proof.
  unfold PyDict.of_pairs.
  assert (forall acc : PyDict.t K V,
            k ∈ PyDict.keys acc \/ k ∈ map fst l ->
            k ∈ PyDict.keys (fold_left (fun d p => PyDict.set d p.1 p.2) l acc)) as H.
  { induction l as [|p l IH]; intros acc Hk; simpl in *.
    - destruct Hk as [?|Hk]; [done|by apply elem_of_nil in Hk].
    - apply IH. destruct Hk as [Hk|Hk].
      + left. apply pydict_set_keys_rev. by right.
      + apply elem_of_cons in Hk as [->|Hk]; [|by right].
        left. apply pydict_set_keys_rev. by left. }
  intros Hk. apply H. by right.
Qed.

(** The input keys of a pattern are pairs of a variable and a position, and
    every variable occurs at every position. *)
Lemma multivar_input_keys (p : VariableSequencePattern) :
  Forall is_variable_key (PyDict.keys (PyDict.of_pairs (iter_pattern p))) /\
  forall v o, v ∈ keys_variable p -> o ∈ keys_other p ->
              [AStr v; o] ∈ PyDict.keys (PyDict.of_pairs (iter_pattern p)).
Proof.
  split.
  - apply Forall_forall. intros k Hk. apply pydict_of_pairs_keys in Hk.
    apply iter_pattern_keys in Hk as (v & o & -> & _). by exists v, o.
  - intros v o Hv Ho. apply pydict_of_pairs_keys_rev, iter_pattern_keys. by exists v, o.
Qed.

(** The two comprehensions that pick a variable's positions. *)
Lemma select_positions (v : string) (input_keys : list key) :
  Forall is_variable_key input_keys ->
  exists selected,
    filterR (key_at_is 0 (AStr v)) input_keys = Ok selected /\
    mapR (fun k => key_get k 1) selected = Ok (positions_of v input_keys).
Proof.
  induction 1 as [|k ks (v' & o & ->) _ (selected & Hf & Hm)].
  - by exists [].
  - cbn [filterR]. rewrite Hf.
    change (key_at_is 0 (AStr v) [AStr v'; o]) with (Ok (bool_decide (AStr v' = AStr v))).
    cbn [rbind]. unfold positions_of. cbn [omap list_omap].
    fold (positions_of v ks).
    destruct (decide (v' = v)) as [->|Hne].
    + rewrite bool_decide_eq_true_2 by done. eexists. split; [done|].
      cbn [mapR]. rewrite Hm. done.
    + rewrite bool_decide_eq_false_2 by congruence. by exists selected.
Qed.


Lemma variable_block_keys (c : Config) (input_keys : list key) (v : string) :
  PyDict.keys (variable_block c input_keys v)
  = map (fun j => [AStr v; AInt j])
        (seqZ 0 (Z.of_nat (length (chunked_iterable (positions_of v input_keys)
                                                    (inputs_per_chunk c))))).
Proof.
  unfold PyDict.keys, variable_block. rewrite map_map. cbn [fst].
  rewrite <- enumerate_fst, map_map. done.
Qed.

(** One round of the loop, for a variable that has no chunk yet, appends
    the variable's chunks. *)
Lemma multivar_chunks_step_fresh (c : Config) (inputs : PyDict.t key string)
    (d : PyDict.t key (list key)) (v : string) :
  Forall is_variable_key (PyDict.keys inputs) ->
  fresh_for v d ->
  multivar_chunks_step c inputs d v = Ok (d ++ variable_block c (PyDict.keys inputs) v).
Proof.
  intros Hkeys Hfresh. unfold multivar_chunks_step.
  destruct (select_positions v (PyDict.keys inputs) Hkeys) as (selected & -> & Hm).
  cbn [rbind]. rewrite Hm. cbn [rbind]. f_equal.
  apply (pydict_fold_set_fresh
           (fun p : Z * list atom => [AStr v; AInt p.1])
           (fun p : Z * list atom => map (fun o => [AStr v; o]) p.2)).
  - rewrite <- (map_map fst (fun j => [AStr v; AInt j])), enumerate_fst.
    apply NoDup_fmap_2_strong; [|apply NoDup_seqZ].
    intros i j _ _ Hij. by injection Hij.
  - intros k Hk Hin. apply list_elem_of_fmap in Hk as (q & -> & _).
    by apply (Hfresh _ Hin).
Qed.

Lemma multivar_chunks_fold (c : Config) (inputs : PyDict.t key string)
    (variables : list string) :
  Forall is_variable_key (PyDict.keys inputs) ->
  NoDup variables ->
  forall d,
    (forall v, v ∈ variables -> fresh_for v d) ->
    foldR (multivar_chunks_step c inputs) d variables
    = Ok (d ++ concat (map (variable_block c (PyDict.keys inputs)) variables)).
Proof.
  intros Hkeys. induction variables as [|v vs IH]; intros Hnd d Hfresh.
  - simpl. by rewrite app_nil_r.
  - apply NoDup_cons in Hnd as [Hv Hnd]. cbn [foldR].
    rewrite multivar_chunks_step_fresh; [|done|apply Hfresh; by left].
    cbn [rbind]. rewrite IH; [|done|].
    + cbn [map concat]. by rewrite app_assoc.
    + intros v' Hv' k Hk. unfold PyDict.keys in Hk. rewrite map_app in Hk.
      apply elem_of_app in Hk as [Hk|Hk].
      * apply (Hfresh v'); [by right|done].
      * change (k ∈ PyDict.keys (variable_block c (PyDict.keys inputs) v)) in Hk.
        rewrite variable_block_keys in Hk.
        apply list_elem_of_fmap in Hk as (j & -> & _). cbn. intros [= ->]. done.
Qed.

(** The chunk dictionary of a multi-variable recipe with distinct
    variables: the variables' chunks, variable after variable. *)
Lemma multivar_chunks_inputs_shape (c : Config) (p : VariableSequencePattern) :
  NoDup (keys_variable p) ->
  multivar_chunks_inputs c (PyDict.of_pairs (iter_pattern p)) (keys_variable p)
  = Ok (concat (map (variable_block c (PyDict.keys (PyDict.of_pairs (iter_pattern p))))
                    (keys_variable p))).
Proof.
  intros Hnd. unfold multivar_chunks_inputs.
  rewrite multivar_chunks_fold; [done|apply multivar_input_keys|done|].
  intros v _ k Hk. by apply elem_of_nil in Hk.
Qed.

(** Of a variable's chunk keys [(v, 0), (v, 1), ...], the first, if there
    is any, is the one at position index 0. *)
Lemma filter_first_position (v : string) (m : nat) :
  (0 < m)%nat ->
  filter (fun ck : key => ck !! 1%nat = Some (AInt 0))
         (map (fun j => [AStr v; AInt j]) (seqZ 0 (Z.of_nat m)))
  = [[AStr v; AInt 0]].
Proof.
  intros Hm. rewrite seqZ_cons by lia. cbn [map].
  rewrite filter_cons_True by done. f_equal.
  apply elem_of_nil_inv. intros k Hk.
  apply list_elem_of_filter in Hk as [Hpos Hk].
  apply list_elem_of_fmap in Hk as (j & -> & Hj). apply elem_of_seqZ in Hj.
  cbn in Hpos. injection Hpos as ->. lia.
Qed.


Lemma variable_has_chunks (c : Config) (p : VariableSequencePattern) (v : string) :
  v ∈ keys_variable p -> keys_other p <> [] -> 0 < inputs_per_chunk c ->
  (0 < length (chunked_iterable
                 (positions_of v (PyDict.keys (PyDict.of_pairs (iter_pattern p))))
                 (inputs_per_chunk c)))%nat.
Proof.
  intros Hv Ho Hc. destruct (keys_other p) as [|o0 others] eqn:Eo; [done|].
  assert (o0 ∈ positions_of v (PyDict.keys (PyDict.of_pairs (iter_pattern p)))) as Hin.
  { apply list_elem_of_omap. exists [AStr v; o0]. split.
    - apply multivar_input_keys; [done|]. rewrite Eo. by left.
    - by rewrite decide_True. }
  unfold chunked_iterable.
  pose proof (chunks_of_nonempty (Z.to_nat (inputs_per_chunk c))
                (positions_of v (PyDict.keys (PyDict.of_pairs (iter_pattern p))))) as Hne.
  destruct (chunks_of _ _); [|simpl; lia].
  destruct Hne; [lia| |done]. intros E. rewrite E in Hin. by apply elem_of_nil in Hin.
Qed.

Lemma filter_first_positions (c : Config) (input_keys : list key) (variables : list string) :
  (forall v, v ∈ variables ->
     (0 < length (chunked_iterable (positions_of v input_keys) (inputs_per_chunk c)))%nat) ->
  filter (fun ck : key => ck !! 1%nat = Some (AInt 0))
         (PyDict.keys (concat (map (variable_block c input_keys) variables)))
  = map (fun v => [AStr v; AInt 0]) variables.
Proof.
  induction variables as [|v vs IH]; intros Hpos; [done|].
  cbn [map concat]. unfold PyDict.keys. rewrite map_app.
  change (map fst (variable_block c input_keys v))
    with (PyDict.keys (variable_block c input_keys v)).
  rewrite filter_app, variable_block_keys, filter_first_position by (apply Hpos; by left).
  cbn [app]. f_equal. apply IH. intros v' Hv'. apply Hpos. by right.
Qed.

(** With distinct variables that have inputs, there is one initialization
    chunk per variable: its first chunk. *)
Lemma multivar_init_chunks_per_variable (c : Config) (p : VariableSequencePattern)
    (r : Recipe) :
  multivar_post_init c p = Ok r ->
  NoDup (keys_variable p) -> keys_other p <> [] -> 0 < inputs_per_chunk c ->
  _init_chunks r = map (fun v => [AStr v; AInt 0]) (keys_variable p).
Proof.
  intros H Hnd Ho Hc. rewrite (multivar_init_chunks c p r H).
  unfold multivar_post_init in H.
  destruct (base_post_init c); [|done]. cbn [rbind] in H.
  rewrite (multivar_chunks_inputs_shape c p Hnd) in H. cbn [rbind] in H.
  destruct (filterR _ _); [|done]. cbn [rbind] in H. injection H as <-.
  cbn [iter_chunks _chunks_inputs].
  apply filter_first_positions. intros v Hv. by apply variable_has_chunks.
Qed.

(** C6.  The initialization chunks of a constructed recipe.  For the
    single-sequence recipe they are exactly the first chunk key, [(0,)].
    For the multi-variable recipe they are exactly the chunk keys whose
    position index is 0, and these are one per variable, [(v, 0)], when
    the variables are distinct and have inputs. *)
Theorem init_chunks_are_first_chunks (c : Config) (pat : Pattern) (r : Recipe)
    (Hr : post_init c pat = Ok r) :
  match pat with
  | Sequential _ =>
      exists rest, iter_chunks r = [AInt 0] :: rest /\ _init_chunks r = [[AInt 0]]
  | MultiVar p =>
      _init_chunks r = filter (fun ck => ck !! 1%nat = Some (AInt 0)) (iter_chunks r) /\
      (NoDup (keys_variable p) -> keys_other p <> [] -> 0 < inputs_per_chunk c ->
       _init_chunks r = map (fun v => [AStr v; AInt 0]) (keys_variable p))
  end.
Proof.
  destruct pat as [urls|p]; cbn [post_init] in Hr.
  - destruct (sequential_post_init_shape c urls r Hr)
      as (_ & _ & _ & _ & _ & Hkeys & _ & _ & Hinit & Hm & _).
    pose proof (sequence_keys_head _ Hm) as Hh. rewrite <- Hkeys in Hh.
    destruct (iter_chunks r) as [|first rest]; [done|]. injection Hh as ->.
    by exists rest.
  - split; [by apply (multivar_init_chunks c p)|].
    by apply multivar_init_chunks_per_variable.
Qed.

(** Example C: two variables at four positions, two inputs per chunk.
    C6 applies: of the four chunk keys, the two at position index 0 are
    the initialization chunks, one per variable. *)
Lemma init_chunks_are_first_chunks_witness :
  post_init (example_config "time" 2 (Some 1) []) (MultiVar pattern_C)
  = Ok (built recipe_C) /\
  length (iter_chunks (built recipe_C)) = 4%nat /\
  _init_chunks (built recipe_C)
  = filter (fun ck => ck !! 1%nat = Some (AInt 0)) (iter_chunks (built recipe_C)) /\
  _init_chunks (built recipe_C) = [[AStr "temp"; AInt 0]; [AStr "salt"; AInt 0]].
Proof.
  assert (post_init (example_config "time" 2 (Some 1) []) (MultiVar pattern_C)
          = Ok (built recipe_C)) as H by (vm_compute; reflexivity).
  split; [exact H|]. split; [vm_compute; reflexivity|].
  destruct (init_chunks_are_first_chunks _ _ _ H) as [Hfilter Hper].
  split; [exact Hfilter|].
  apply Hper.
  - apply (bool_decide_unpack (NoDup (keys_variable pattern_C))). vm_compute. exact I.
  - discriminate.
  - reflexivity.
Defined.

(* ===================================================================== *)
(** * Further properties of the recipe code *)
(* ===================================================================== *)

(** ** Constructing a recipe *)













(** ** Inputs and chunks of the single-sequence recipe *)

Lemma chunks_of_elem_length {A} (size : nat) (l : list A) (b : list A) :
  b ∈ chunks_of size l -> (length b <= size)%nat.
Proof.
  funelim (chunks_of size l); simp chunks_of; intros Hb.
  - by apply elem_of_nil in Hb.
  - by apply elem_of_nil in Hb.
  - apply elem_of_cons in Hb as [->|Hb]; [|by apply H].
    cbn [length]. rewrite length_take. lia.
Qed.

(** X4.  The chunks of a single-sequence recipe partition its inputs:
    [iter_inputs], which walks the chunks in order and yields the inputs
    of each, yields exactly the keys of [_inputs], each once and in their
    order.  Every chunk key has inputs, at least one and at most
    [inputs_per_chunk]. *)
Theorem sequential_chunks_partition_inputs (c : Config) (urls : list string) (r : Recipe)
    (Hr : sequential_post_init c urls = Ok r) :
  iter_inputs r = Ok (PyDict.keys (_inputs r)) /\
  NoDup (PyDict.keys (_inputs r)) /\
  length (PyDict.keys (_inputs r)) = length urls /\
  forall chunk_key, chunk_key ∈ iter_chunks r ->
    exists inputs, inputs_for_chunk r chunk_key = Ok inputs /\
                   inputs <> [] /\
                   Z.of_nat (length inputs) <= inputs_per_chunk c.
Proof.
  assert (PyDict.keys (_inputs r) = sequence_keys (length urls)) as Hkeys.
  { unfold sequential_post_init in Hr.
    destruct (base_post_init c); [|done]. cbn [rbind] in Hr.
    destruct (head _); [|done]. cbn [of_option rbind] in Hr. injection Hr as <-.
    cbn [_inputs]. destruct (enumerated_dict urls) as (Hi1 & Hi2 & _).
    unfold ExplicitURLSequence. by rewrite Hi1, Hi2. }
  rewrite Hkeys. split; [by apply (sequential_iter_inputs c)|].
  split; [unfold sequence_keys; apply (NoDup_fmap_2 _), NoDup_seqZ|].
  split; [apply sequence_keys_length|].
  intros ck Hck. unfold iter_chunks, PyDict.keys in Hck.
  apply list_elem_of_fmap in Hck as (p & -> & Hp).
  destruct (sequential_chunk_members c urls r p Hr Hp) as (_ & Hin & Hne & _).
  exists p.2. split; [done|]. split; [done|].
  destruct (sequential_post_init_shape c urls r Hr)
    as (_ & _ & _ & _ & _ & _ & Hvals & _ & _ & _ & Hsize).
  assert (p.2 ∈ chunks_of (Z.to_nat (inputs_per_chunk c)) (sequence_keys (length urls))) as Hb.
  { rewrite <- Hvals. unfold PyDict.values. apply list_elem_of_fmap. by exists p. }
  apply chunks_of_elem_length in Hb. lia.
Qed.

Lemma sequential_chunks_partition_inputs_witness :
  iter_inputs (built (recipe_ragged (Some 3))) = Ok [[AInt 0]; [AInt 1]; [AInt 2]] /\
  inputs_for_chunk (built (recipe_ragged (Some 3))) [AInt 1] = Ok [[AInt 2]].
Proof.
  assert (sequential_post_init (example_config "time" 2 (Some 3) [("time", 2)]) urls_ragged
          = Ok (built (recipe_ragged (Some 3)))) as Hr by (vm_compute; reflexivity).
  destruct (sequential_chunks_partition_inputs _ _ _ Hr) as (Hiter & _).
  split; [exact Hiter|]. vm_compute. reflexivity.
Defined.

(** ** Write regions of the single-sequence recipe, chunk after chunk *)

Lemma sequence_keys_lookup (n i : nat) :
  (i < n)%nat -> sequence_keys n !! i = Some [AInt (Z.of_nat i)].
Proof.
  intros Hi. unfold sequence_keys. rewrite list_lookup_fmap, lookup_seqZ_lt by lia.
  simpl. by rewrite Z.add_0_l.
Qed.

Lemma sequence_keys_take (n k : nat) :
  (k <= n)%nat -> take k (sequence_keys n) = sequence_keys k.
Proof.
  intros Hk. apply list_eq. intros i. destruct (decide (i < k)%nat) as [Hi|Hi].
  - rewrite lookup_take_lt, !sequence_keys_lookup by lia. done.
  - rewrite lookup_take_ge by lia. symmetry. apply lookup_ge_None.
    rewrite sequence_keys_length. lia.
Qed.

(** Where an input key stands among the input keys, that is its number. *)
Lemma sequence_keys_split (n : nat) (before after : list key) (i : Z) :
  sequence_keys n = before ++ [AInt i] :: after ->
  i = Z.of_nat (length before) /\ before = sequence_keys (length before).
Proof.
  intros H.
  assert (length before < n)%nat as Hlt.
  { apply (f_equal length) in H. rewrite sequence_keys_length, length_app in H.
    simpl in H. lia. }
  split.
  - pose proof (sequence_keys_lookup n (length before) Hlt) as Hl.
    rewrite H, list_lookup_middle in Hl by done. by injection Hl.
  - rewrite <- (sequence_keys_take n) by lia. rewrite H. by rewrite take_app_length.
Qed.

Lemma length_at_take (lens : list Z) (k : nat) :
  (k <= length lens)%nat -> map (length_at lens) (sequence_keys k) = take k lens.
Proof.
  intros Hk. apply list_eq. intros i. rewrite list_lookup_fmap.
  destruct (decide (i < k)%nat) as [Hi|Hi].
  - rewrite sequence_keys_lookup, lookup_take_lt by lia. simpl. rewrite Nat2Z.id.
    destruct (lookup_lt_is_Some_2 lens i) as [x ->]; [lia|done].
  - rewrite lookup_take_ge by lia.
    rewrite (proj2 (lookup_ge_None (sequence_keys k) i)); [done|].
    rewrite sequence_keys_length. lia.
Qed.

(** The length of a chunk: the lengths of its inputs [(i,)], taken from a
    list of the lengths of all inputs, added up. *)
Definition chunk_length (lens : list Z) (inputs : list key) : Z :=
  sum (map (length_at lens) inputs).

(** A chunk's region starts where the inputs of the chunks before it end. *)
Lemma sequential_region_after (c : Config) (urls : list string) (r : Recipe)
    (w : World) (lens : list Z) (before after : PyDict.t key (list key))
    (p : key * list key) :
  sequential_post_init c urls = Ok r ->
  truthy (nitems_per_input c) = false ->
  global_input_sequence_lens w = Ok lens ->
  length lens = length urls ->
  _chunks_inputs r = before ++ p :: after ->
  region_for_chunk r w p.1
  = Ok (sequence_dim c,
        (sum (map (chunk_length lens) (PyDict.values before)),
         sum (map (chunk_length lens) (PyDict.values before)) + chunk_length lens p.2)).
Proof.
  intros Hr Hn Hg Hlen Hsplit.
  assert (p ∈ _chunks_inputs r) as Hp.
  { rewrite Hsplit. apply elem_of_app. right. by left. }
  destruct (sequential_region_from_metadata c urls r w lens p Hr Hn Hg Hlen Hp)
    as (i0 & rest & Hp2 & ->).
  destruct (sequential_post_init_shape c urls r Hr)
    as (_ & _ & _ & _ & _ & _ & Hvals & _ & _ & _ & Hsize).
  pose proof (chunks_of_concat (Z.to_nat (inputs_per_chunk c))
                (sequence_keys (length urls)) Hsize) as Hcat.
  rewrite <- Hvals, Hsplit in Hcat. unfold PyDict.values in Hcat.
  rewrite map_app, concat_app in Hcat. cbn [map concat] in Hcat.
  rewrite Hp2 in Hcat. cbn [app] in Hcat. symmetry in Hcat.
  destruct (sequence_keys_split _ _ _ _ Hcat) as [-> Hbefore].
  assert (length (concat (map snd before)) <= length lens)%nat as Hle.
  { apply (f_equal length) in Hcat.
    rewrite sequence_keys_length, length_app in Hcat. lia. }
  rewrite Nat2Z.id, <- length_at_take, <- Hbefore by done.
  unfold PyDict.values.
  rewrite <- (sum_concat_map (length_at lens)). done.
Qed.

Lemma regions_in_order (f : key -> result Region) (dim : string) (measure : list key -> Z)
    (d : PyDict.t key (list key)) :
  forall done_ : PyDict.t key (list key),
    (forall before p after,
       d = before ++ p :: after ->
       f p.1 = Ok (dim, (sum (map measure (PyDict.values (done_ ++ before))),
                         sum (map measure (PyDict.values (done_ ++ before))) + measure p.2))) ->
    mapR f (PyDict.keys d)
    = Ok (map (fun b => (dim, b))
              (bounds_from (sum (map measure (PyDict.values done_)))
                           (map measure (PyDict.values d)))).
Proof.
  induction d as [|p d IH]; intros done_ H; [done|].
  cbn [PyDict.keys PyDict.values map mapR bounds_from].
  rewrite (H [] p d eq_refl), app_nil_r. cbn [rbind].
  specialize (IH (done_ ++ [p])).
  unfold PyDict.keys, PyDict.values in IH.
  rewrite !map_app, sum_app in IH. cbn [map] in IH.
  change (sum [measure p.2]) with (measure p.2 + 0) in IH. rewrite Z.add_0_r in IH.
  rewrite IH; [done|].
  intros before q after ->. rewrite <- (app_assoc done_ [p] before).
  apply (H (p :: before) q after). done.
Qed.

(** X5.  With the lengths of the inputs read from the global metadata
    record, the write regions of the chunks of a single-sequence recipe,
    taken in the order of [iter_chunks], are consecutive half-open
    intervals: the first starts at 0, each is as long as the inputs of its
    chunk, each starts where the one before stops, and the last stops at
    the sum of all recorded lengths.  So the regions are disjoint and
    cover the whole sequence axis. *)
Theorem sequential_regions_tile (c : Config) (urls : list string) (r : Recipe)
    (w : World) (lens : list Z)
    (Hr : sequential_post_init c urls = Ok r)
    (Hn : truthy (nitems_per_input c) = false)
    (Hg : global_input_sequence_lens w = Ok lens)
    (Hlen : length lens = length urls) :
  mapR (region_for_chunk r w) (iter_chunks r)
  = Ok (map (fun b => (sequence_dim c, b))
            (bounds_from 0 (map (chunk_length lens) (PyDict.values (_chunks_inputs r))))) /\
  sum (map (chunk_length lens) (PyDict.values (_chunks_inputs r))) = sum lens.
Proof.
  split.
  - apply (regions_in_order (region_for_chunk r w) (sequence_dim c) (chunk_length lens)
             (_chunks_inputs r) []).
    intros before p after Hsplit. cbn [app].
    by apply (sequential_region_after c urls r w lens before after p).
  - destruct (sequential_post_init_shape c urls r Hr)
      as (_ & _ & _ & _ & _ & _ & Hvals & _ & _ & _ & Hsize).
    unfold chunk_length. rewrite (sum_concat_map (length_at lens)), Hvals.
    rewrite chunks_of_concat by done. by rewrite <- Hlen, length_at_sequence_keys.
Qed.

(** Example B with two inputs per chunk: the chunks hold the inputs of
    lengths 3 and 4, and those of lengths 2 and 5. *)
Lemma sequential_regions_tile_witness :
  mapR (region_for_chunk
          (built (sequential_post_init (example_config "time" 2 None [("time", 4)]) urls_B))
          (prepared (built recipe_B) files_B))
       [[AInt 0]; [AInt 1]]
  = Ok [("time", (0, 7)); ("time", (7, 14))] /\
  7 + 7 = sum [3; 4; 2; 5].
Proof.
  apply (sequential_regions_tile
           (example_config "time" 2 None [("time", 4)]) urls_B
           (built (sequential_post_init (example_config "time" 2 None [("time", 4)]) urls_B))
           (prepared (built recipe_B) files_B) [3; 4; 2; 5]);
    vm_compute; reflexivity.
Defined.

(** X6.  With a constant, non-zero [nitems_per_input] the write regions of
    a single-sequence recipe are computed from the position of the chunk
    alone, in any state of the metadata cache and of the target: the
    region of the chunk at position [j] is
    [[j * stride, j * stride + stride)] with
    [stride = nitems_per_input * inputs_per_chunk], whatever number of
    inputs the chunk holds. *)
Theorem sequential_regions_fixed_stride (c : Config) (urls : list string) (r : Recipe)
    (w : World) (nitems : Z)
    (Hr : sequential_post_init c urls = Ok r)
    (Hn : nitems_per_input c = Some nitems)
    (Hnz : nitems <> 0) :
  mapR (region_for_chunk r w) (iter_chunks r)
  = Ok (map (fun j => (sequence_dim c,
                       (j * (nitems * inputs_per_chunk c),
                        j * (nitems * inputs_per_chunk c) + nitems * inputs_per_chunk c)))
            (seqZ 0 (Z.of_nat (length (iter_chunks r))))).
Proof.
  set (region_at := fun j : Z =>
         (sequence_dim c,
          (j * (nitems * inputs_per_chunk c),
           j * (nitems * inputs_per_chunk c) + nitems * inputs_per_chunk c))).
  unfold iter_chunks at 1.
  rewrite (mapR_keys (region_for_chunk r w)
             (fun p : key * list key =>
                match p.1 with
                | [AInt j] => region_at j
                | _ => region_at 0
                end)).
  - f_equal.
    destruct (sequential_post_init_shape c urls r Hr)
      as (_ & _ & _ & _ & Hd & Hkeys & _).
    rewrite Hkeys, sequence_keys_length, Hd, map_map. cbn [fst].
    by rewrite <- (map_map fst region_at), enumerate_fst.
  - intros p Hp.
    destruct (sequential_region_fixed c urls r w nitems p Hr Hn Hnz Hp) as (j & Hj & ->).
    by rewrite Hj.
Qed.

(** Three inputs of three items each, two per chunk: the second chunk
    holds one input, and its region is six items long all the same. *)
Lemma sequential_regions_fixed_stride_witness :
  mapR (region_for_chunk (built (recipe_ragged (Some 3))) empty_world)
       (iter_chunks (built (recipe_ragged (Some 3))))
  = Ok [("time", (0, 6)); ("time", (6, 12))].
Proof.
  apply (sequential_regions_fixed_stride
           (example_config "time" 2 (Some 3) [("time", 2)]) urls_ragged
           (built (recipe_ragged (Some 3))) empty_world 3).
  - vm_compute; reflexivity.
  - reflexivity.
  - discriminate.
Defined.

(** ** Keys the recipe does not know, and steps run too early *)

Lemma pydict_get_None {K V} `{EqDecision K} (d : PyDict.t K V) (k : K) :
  k ∉ PyDict.keys d -> PyDict.get d k = None.
Proof.
  induction d as [|[k' v] d IH]; simpl; intros H; [done|].
  apply not_elem_of_cons in H as [Hne H].
  destruct (decide (k' = k)); [congruence|]. by apply IH.
Qed.

Section lifecycle_errors.
Context (xr_concat : list Dataset -> string -> result Dataset).
Context (fix_scalar_attr_encoding : Dataset -> Dataset).

(** X7.  A chunk key that [iter_chunks] does not yield has no inputs:
    [inputs_for_chunk], [region_and_conflicts_for_chunk] and [open_chunk]
    raise [KeyError] for it, and so does [store_chunk], before it has
    touched the target or anything else. *)
Theorem unknown_chunk_key (r : Recipe) (w : World) (chunk_key : key)
    (Hnew : chunk_key ∉ iter_chunks r) :
  inputs_for_chunk r chunk_key = Raise KeyError /\
  region_and_conflicts_for_chunk r w chunk_key = Raise KeyError /\
  open_chunk xr_concat fix_scalar_attr_encoding r w chunk_key = Raise KeyError /\
  _store_chunk xr_concat fix_scalar_attr_encoding r chunk_key w = (Raise KeyError, w).
Proof.
  assert (inputs_for_chunk r chunk_key = Raise KeyError) as Hin.
  { unfold inputs_for_chunk, PyDict.getitem. by rewrite pydict_get_None. }
  assert (open_chunk xr_concat fix_scalar_attr_encoding r w chunk_key = Raise KeyError)
    as Hopen.
  { unfold open_chunk. by rewrite Hin. }
  split; [done|]. split; [|split; [done|]].
  - unfold region_and_conflicts_for_chunk. by rewrite Hin.
  - unfold _store_chunk, bind, reading. by rewrite Hopen.
Qed.

(** X8.  When the lengths of the inputs are not constant, the regions are
    read from the global metadata record, which [prepare_target] writes.
    Without that record in the metadata cache,
    [region_and_conflicts_for_chunk] raises [KeyError] for every chunk
    key of the recipe, and [store_chunk], having opened the chunk, raises
    it too and writes nothing. *)
Theorem region_needs_global_metadata (r : Recipe) (w : World) (chunk_key : key)
    (Hknown : chunk_key ∈ iter_chunks r)
    (Hn : truthy (nitems_per_input r) = false)
    (Hmissing : metadata_cache w !! _GLOBAL_METADATA_KEY = None) :
  region_and_conflicts_for_chunk r w chunk_key = Raise KeyError /\
  forall ds,
    open_chunk xr_concat fix_scalar_attr_encoding r w chunk_key = Ok ds ->
    _store_chunk xr_concat fix_scalar_attr_encoding r chunk_key w = (Raise KeyError, w).
Proof.
  assert (region_and_conflicts_for_chunk r w chunk_key = Raise KeyError) as Hregion.
  { unfold region_and_conflicts_for_chunk, inputs_for_chunk, PyDict.getitem.
    destruct (pydict_get_keys (_chunks_inputs r) chunk_key Hknown) as [inputs ->].
    cbn [of_option rbind]. rewrite Hn.
    unfold global_input_sequence_lens. by rewrite Hmissing. }
  split; [done|]. intros ds Hopen.
  unfold _store_chunk, bind, reading. by rewrite Hopen, Hregion.
Qed.

End lifecycle_errors.

Lemma unknown_chunk_key_witness :
  region_and_conflicts_for_chunk (built recipe_B) (prepared (built recipe_B) files_B) [AInt 4]
  = Raise KeyError /\
  _store_chunk concat_datasets id (built recipe_B) [AInt 4] (prepared (built recipe_B) files_B)
  = (Raise KeyError, prepared (built recipe_B) files_B).
Proof.
  destruct (unknown_chunk_key concat_datasets id (built recipe_B)
              (prepared (built recipe_B) files_B) [AInt 4]) as (_ & Hregion & _ & Hstore).
  - apply (bool_decide_unpack ([AInt 4] ∉ iter_chunks (built recipe_B))).
    vm_compute. exact I.
  - split; [exact Hregion|exact Hstore].
Defined.

(** Example B with the metadata of the inputs cached, before
    [prepare_target] has run. *)
Lemma region_needs_global_metadata_witness :
  region_and_conflicts_for_chunk (built recipe_B) (cached (built recipe_B) files_B) [AInt 1]
  = Raise KeyError /\
  _store_chunk concat_datasets id (built recipe_B) [AInt 1] (cached (built recipe_B) files_B)
  = (Raise KeyError, cached (built recipe_B) files_B).
Proof.
  destruct (region_needs_global_metadata concat_datasets id (built recipe_B)
              (cached (built recipe_B) files_B) [AInt 1]) as (Hregion & Hstore).
  - apply (bool_decide_unpack ([AInt 1] ∈ iter_chunks (built recipe_B))).
    vm_compute. exact I.
  - reflexivity.
  - vm_compute. reflexivity.
  - split; [exact Hregion|].
    apply (Hstore (opened (built recipe_B) (cached (built recipe_B) files_B) [AInt 1])).
    vm_compute. reflexivity.
Defined.

(** ** The per-input metadata record *)

Module JsonTableFacts.
Import Json JsonFacts.

(** A member [key: number] of an object, as [dumps] writes it. *)
Definition dumps_member (p : string * Z) : string :=
  dumps_str p.1 +:+ ": " +:+ dumps_int p.2.

Definition table (kv : list (string * Z)) : t :=
  JDict (map (fun p => (p.1, JInt p.2)) kv).

Lemma dumps_table_members (kv : list (string * Z)) :
  map (fun p : string * t => dumps_str p.1 +:+ ": " +:+ dumps p.2)
      (map (fun p : string * Z => (p.1, JInt p.2)) kv)
  = map dumps_member kv.
Proof. induction kv as [|p kv IH]; simpl; by f_equal. Qed.

Lemma loads_members_space (fuel : nat) (s : string) :
  loads_members fuel (String " " s) = loads_members fuel s.
Proof. destruct fuel; reflexivity. Qed.

Lemma dumps_member_quote (p : string * Z) (rest : string) :
  dumps_member p +:+ rest
  = String quote (escape p.1 +:+ String quote (String ":" (String " " (dumps_int p.2 +:+ rest)))).
Proof.
  unfold dumps_member, dumps_str.
  by rewrite !app_String, !string_app_assoc, !app_String, !app_empty_l.
Qed.

(** The members of a non-empty table, up to its closing brace. *)
Lemma loads_members_table (kv : list (string * Z)) :
  forall (p : string * Z) (rest : string) (fuel : nat),
    (length kv + 2 <= fuel)%nat ->
    loads_members fuel (str_join ", " (map dumps_member (p :: kv)) +:+ String "}" rest)
    = Some (map (fun p => (p.1, JInt p.2)) (p :: kv), rest).
Proof.
  induction kv as [|p' kv IH]; intros p rest fuel Hf.
  - destruct fuel as [|[|fuel]]; [simpl in Hf; lia..|].
    cbn [map str_join]. rewrite dumps_member_quote.
    rewrite loads_members_S, loads_str_body_escape.
    change (expect ":" (String ":" ?s)) with (Some s). cbn beta match.
    rewrite loads_value_space, loads_value_int by done. reflexivity.
  - destruct fuel as [|[|fuel]]; [simpl in Hf; lia..|].
    cbn [map]. rewrite join_cons2, !string_app_assoc, dumps_member_quote.
    rewrite loads_members_S, loads_str_body_escape.
    change (expect ":" (String ":" ?s)) with (Some s). cbn beta match.
    rewrite loads_value_space, loads_value_int by done.
    change (expect "," (", " +:+ ?s)) with (Some (String " " s)).
    cbn beta match.
    rewrite loads_members_space.
    change (dumps_member p' :: map dumps_member kv) with (map dumps_member (p' :: kv)).
    rewrite IH; [done|simpl in *; lia].
Qed.

(** A table of numbers, whatever follows it. *)
Lemma loads_value_table (kv : list (string * Z)) (rest : string) (fuel : nat) :
  (length kv + 2 <= fuel)%nat ->
  loads_value fuel (dumps (table kv) +:+ rest) = Some (table kv, rest).
Proof.
  intros Hf. destruct fuel as [|fuel]; [lia|].
  unfold table. cbn [dumps]. rewrite dumps_table_members.
  destruct kv as [|p kv]; [reflexivity|].
  rewrite !app_String, app_empty_l, string_app_assoc.
  change ("}" +:+ rest) with (String "}" rest).
  assert (exists s, str_join ", " (map dumps_member (p :: kv)) +:+ String "}" rest
                    = String quote s) as [s Hs].
  { destruct kv as [|p' kv]; cbn [map].
    - cbn [str_join]. rewrite dumps_member_quote. by eexists.
    - rewrite join_cons2, !string_app_assoc, dumps_member_quote. by eexists. }
  rewrite Hs, loads_value_object, <- Hs.
  rewrite loads_members_table; [done|simpl in *; lia].
Qed.

Lemma members_length_ge (kv : list (string * Z)) :
  (length kv <= String.length (str_join ", " (map dumps_member kv)) + 1)%nat.
Proof.
  induction kv as [|p [|p' kv] IH]; [simpl; lia..|].
  cbn [map] in *. rewrite join_cons2, !string_length_app. simpl in *. lia.
Qed.

(** The record [{key: {name: number, ...}}] survives the round trip. *)
Lemma loads_dumps_table_record (key : string) (kv : list (string * Z)) :
  loads (dumps (JDict [(key, table kv)])) = Ok (JDict [(key, table kv)]).
Proof.
  unfold loads.
  set (doc := dumps (JDict [(key, table kv)])).
  assert (forall fuel, (length kv + 4 <= fuel)%nat ->
            loads_value fuel doc = Some (JDict [(key, table kv)], EmptyString)) as H.
  { intros fuel Hf. subst doc.
    destruct fuel as [|[|fuel]]; [lia..|].
    cbn [dumps map str_join fst snd].
    fold (dumps (table kv)).
    unfold dumps_str. rewrite !app_String, !string_app_assoc, !app_String, !app_empty_l.
    rewrite loads_value_object, loads_members_S, loads_str_body_escape.
    change (expect ":" (String ":" ?s)) with (Some s). cbn beta match.
    rewrite loads_value_space.
    rewrite loads_value_table by lia. reflexivity. }
  rewrite H; [done|].
  subst doc. unfold table. cbn [dumps map str_join fst snd]. rewrite dumps_table_members.
  rewrite !string_length_app. pose proof (members_length_ge kv). simpl. lia.
Qed.

Lemma assoc_elem (k : string) (v : t) (kv : list (string * t)) :
  NoDup (map fst kv) -> (k, v) ∈ kv -> assoc k kv = Some v.
Proof.
  induction kv as [|[k' v'] kv IH]; simpl; intros Hnd Hin.
  - by apply elem_of_nil in Hin.
  - apply NoDup_cons in Hnd as [Hk' Hnd].
    apply elem_of_cons in Hin as [Heq|Hin].
    + injection Heq as -> ->. by rewrite String.eqb_refl.
    + destruct (String.eqb_spec k' k) as [->|]; [|by apply IH].
      destruct Hk'. apply list_elem_of_fmap. by exists (k, v).
Qed.

Lemma assoc_None (k : string) (kv : list (string * t)) :
  k ∉ map fst kv -> assoc k kv = None.
Proof.
  induction kv as [|[k' v'] kv IH]; simpl; intros Hk; [done|].
  apply not_elem_of_cons in Hk as [Hne Hk].
  destruct (String.eqb_spec k' k) as [->|]; [done|by apply IH].
Qed.

End JsonTableFacts.

Lemma pydict_set_NoDup {K V} `{EqDecision K} (d : PyDict.t K V) (k : K) (v : V) :
  NoDup (PyDict.keys d) -> NoDup (PyDict.keys (PyDict.set d k v)).
Proof.
  induction d as [|[k' v'] d IH]; simpl; intros Hnd.
  - apply NoDup_singleton.
  - apply NoDup_cons in Hnd as [Hk' Hnd].
    destruct (decide (k' = k)) as [->|Hne]; simpl.
    + by apply NoDup_cons.
    + apply NoDup_cons. split; [|by apply IH].
      intros Hin. destruct (pydict_set_keys d k k' v Hin) as [?|?]; congruence.
Qed.

Lemma pydict_of_pairs_keys_NoDup {K V} `{EqDecision K} (l : list (K * V)) :
  NoDup (PyDict.keys (PyDict.of_pairs l)).
Proof.
  unfold PyDict.of_pairs.
  apply (fold_left_invariant (fun d : PyDict.t K V => NoDup (PyDict.keys d))).
  - apply NoDup_nil_2.
  - intros d p Hd. by apply pydict_set_NoDup.
Qed.

Lemma pydict_get_Some {K V} `{EqDecision K} (d : PyDict.t K V) (k : K) (v : V) :
  PyDict.get d k = Some v -> (k, v) ∈ d.
Proof.
  induction d as [|[k' v'] d IH]; simpl; [done|].
  destruct (decide (k' = k)) as [->|Hne].
  - intros [= ->]. by left.
  - intros H. right. by apply IH.
Qed.

Lemma pydict_get_None_keys {K V} `{EqDecision K} (d : PyDict.t K V) (k : K) :
  PyDict.get d k = None -> k ∉ PyDict.keys d.
Proof.
  intros Hg Hin. destruct (pydict_get_keys d k Hin) as [v Hv]. congruence.
Qed.

(** Reading a dimension off the decoded table of dimension sizes. *)
Lemma getitem_table (d : PyDict.t string Z) (k : string) :
  NoDup (PyDict.keys d) ->
  Json.getitem (Json.JDict (map (fun p => (p.1, Json.JInt p.2)) d)) k
  = match PyDict.get d k with
    | Some n => Ok (Json.JInt n)
    | None => Raise KeyError
    end.
Proof.
  intros Hnd. cbn [Json.getitem].
  set (kv := map (fun p : string * Z => (p.1, Json.JInt p.2)) d).
  assert (map fst kv = PyDict.keys d) as Hkeys.
  { unfold kv, PyDict.keys. by rewrite map_map. }
  destruct (PyDict.get d k) as [n|] eqn:Hg.
  - rewrite (JsonTableFacts.assoc_elem k (Json.JInt n)); [done| |].
    + rewrite map_rev, Hkeys. by rewrite <- Permutation_rev.
    + rewrite <- Permutation_rev.
      unfold kv. apply list_elem_of_fmap.
      exists (k, n). split; [done|]. by apply pydict_get_Some.
  - rewrite JsonTableFacts.assoc_None; [done|].
    rewrite map_rev, Hkeys, <- Permutation_rev.
    by apply (pydict_get_None_keys d k).
Qed.

Section input_metadata.
Context (fix_scalar_attr_encoding : Dataset -> Dataset).

(** X9.  Caching the metadata of an input and reading its length back.
    When [nitems_per_input] is not set and the input opens,
    [cache_input_metadata] returns normally, and [input_sequence_lens],
    asked for that input afterwards, decodes the record and returns the
    size the opened dataset has along [sequence_dim]; for a dataset
    without that dimension it raises [KeyError]. *)
Theorem input_metadata_round_trip (r : Recipe) (w : World) (input_key : key) (ds : Dataset)
    (Hn : truthy (nitems_per_input r) = false)
    (Hopen : open_input fix_scalar_attr_encoding r w input_key = Ok ds) :
  fst (cache_input_metadata fix_scalar_attr_encoding r input_key w) = Ok tt /\
  input_sequence_lens r (snd (cache_input_metadata fix_scalar_attr_encoding r input_key w))
    [input_key]
  = match PyDict.get (dataset_dims ds) (sequence_dim r) with
    | Some n => Ok [n]
    | None => Raise KeyError
    end.
Proof.
  unfold cache_input_metadata. rewrite Hopen. cbn [fst snd]. split; [done|].
  unfold input_sequence_lens. rewrite Hn.
  unfold get_input_meta, mapper_getitems.
  cbn [map mapR metadata_cache with_metadata].
  rewrite lookup_insert_eq. cbn [of_option rbind zip zip_with].
  unfold PyDict.of_pairs. cbn [fold_left PyDict.set fst snd mapR].
  pose proof (JsonTableFacts.loads_dumps_table_record "dims" (dataset_dims ds)) as Hload.
  unfold JsonTableFacts.table in Hload. rewrite Hload.
  cbn [rbind PyDict.values map snd mapR].
  change (Json.getitem (Json.JDict [("dims", ?x)]) "dims") with (Ok x).
  cbn [rbind]. rewrite getitem_table by apply pydict_of_pairs_keys_NoDup.
  by destruct (PyDict.get (dataset_dims ds) (sequence_dim r)).
Qed.

End input_metadata.

(** The second input of Example B is four items long. *)
Lemma input_metadata_round_trip_witness :
  input_sequence_lens (built recipe_B)
    (snd (cache_input_metadata id (built recipe_B) [AInt 1] (with_sources files_B empty_world)))
    [[AInt 1]]
  = Ok [4].
Proof.
  apply (input_metadata_round_trip id (built recipe_B) (with_sources files_B empty_world)
           [AInt 1] (input_file 4 3)).
  - reflexivity.
  - vm_compute. reflexivity.
Defined.

Lemma mapR_raises {A B} (f : A -> result B) (l : list A) (e : exn) :
  (forall a, a ∈ l -> f a = Raise e \/ exists b, f a = Ok b) ->
  (exists a, a ∈ l /\ f a = Raise e) ->
  mapR f l = Raise e.
Proof.
  induction l as [|a l IH]; intros Hall (a0 & Hin & Ha0).
  - by apply elem_of_nil in Hin.
  - cbn [mapR]. destruct (Hall a) as [->|[b Hb]]; [by left|done|].
    rewrite Hb. cbn [rbind]. rewrite IH; [done| |].
    + intros a' Ha'. apply Hall. by right.
    + apply elem_of_cons in Hin as [->|Hin]; [congruence|]. by exists a0.
Qed.

Lemma input_sequence_lens_missing (r : Recipe) (w : World) (input_keys : list key) (k : key) :
  truthy (nitems_per_input r) = false ->
  k ∈ input_keys ->
  metadata_cache w !! _input_metadata_fname k = None ->
  input_sequence_lens r w input_keys = Raise KeyError.
Proof.
  intros Hn Hk Hmissing. unfold input_sequence_lens. rewrite Hn.
  unfold get_input_meta, mapper_getitems.
  rewrite (mapR_raises _ _ KeyError); [done| |].
  - intros name _. destruct (metadata_cache w !! name); [right; by eexists|by left].
  - exists (_input_metadata_fname k). split; [|by rewrite Hmissing].
    apply list_elem_of_fmap. by exists k.
Qed.

Section metadata_order.
Context (xr_concat : list Dataset -> string -> result Dataset).
Context (fix_scalar_attr_encoding : Dataset -> Dataset).

(** X10.  The lengths of the inputs are read from their cached metadata,
    and a missing record is an error, not a length of zero.  When
    [nitems_per_input] is not set and the record of one of the inputs
    asked for is not in the metadata cache, [input_sequence_lens] raises
    [KeyError].  For a single-sequence recipe [sequence_lens] then raises
    [KeyError] as well, and [prepare_target] does not return normally and
    writes no global record: the metadata of every input has to be cached
    before the target is prepared. *)
Theorem prepare_target_needs_input_metadata (r : Recipe) (w : World)
    (urls : list string) (inputs : list key) (k : key)
    (Hpattern : pattern r = Sequential urls)
    (Hn : truthy (nitems_per_input r) = false)
    (Hinputs : iter_inputs r = Ok inputs)
    (Hk : k ∈ inputs)
    (Hmissing : metadata_cache w !! _input_metadata_fname k = None) :
  (forall input_keys, k ∈ input_keys -> input_sequence_lens r w input_keys = Raise KeyError) /\
  sequence_lens r w = Raise KeyError /\
  exists e w',
    _prepare_target xr_concat fix_scalar_attr_encoding r w = (Raise e, w') /\
    metadata_cache w' = metadata_cache w.
Proof.
  assert (forall w0, metadata_cache w0 = metadata_cache w ->
                     sequence_lens r w0 = Raise KeyError) as Hlens.
  { intros w0 Hw0. unfold sequence_lens. rewrite Hpattern, Hinputs. cbn [rbind].
    apply (input_sequence_lens_missing r w0 inputs k); [done|done|by rewrite Hw0]. }
  split; [|split].
  - intros input_keys Hin. by apply (input_sequence_lens_missing r w input_keys k).
  - by apply Hlens.
  - unfold _prepare_target. unfold bind at 1.
    pose proof (keeps_try_except
                  (bind open_target (fun _ => ret tt))
                  (create_target xr_concat fix_scalar_attr_encoding r)
                  target_probe_handled ltac:(unfold open_target; keeps)
                  (keeps_create_target xr_concat fix_scalar_attr_encoding r) w) as Hk1.
    match goal with
    | |- context [match ?m w with _ => _ end] => destruct (m w) as [[[]|e] w1]
    end; cbn [snd] in Hk1.
    + unfold expand_and_record, bind, reading. rewrite (Hlens w1 Hk1). by eexists _, _.
    + by exists e, w1.
Qed.

End metadata_order.

(** Example B with the files in place and no metadata cached:
    [prepare_target] creates the target from the first chunk and then
    fails. *)
Lemma prepare_target_needs_input_metadata_witness :
  sequence_lens (built recipe_B) (with_sources files_B empty_world) = Raise KeyError /\
  exists e w',
    _prepare_target concat_datasets id (built recipe_B) (with_sources files_B empty_world)
    = (Raise e, w') /\
    metadata_cache w' = metadata_cache (with_sources files_B empty_world).
Proof.
  destruct (prepare_target_needs_input_metadata concat_datasets id (built recipe_B)
              (with_sources files_B empty_world) urls_B
              [[AInt 0]; [AInt 1]; [AInt 2]; [AInt 3]] [AInt 2])
    as (_ & Hlens & Hprepare).
  - reflexivity.
  - reflexivity.
  - vm_compute. reflexivity.
  - apply (bool_decide_unpack ([AInt 2] ∈ [[AInt 0]; [AInt 1]; [AInt 2]; [AInt 3]])).
    vm_compute. exact I.
  - vm_compute. reflexivity.
  - split; [exact Hlens|exact Hprepare].
Defined.

(** ** Caching the metadata of all inputs *)

Section caching.
Context (fix_scalar_attr_encoding : Dataset -> Dataset).

(** The record [cache_input_metadata] writes for a dataset. *)
Definition input_record (ds : Dataset) : Json.t :=
  Json.JDict [("dims", Json.JDict (map (fun p => (p.1, Json.JInt p.2)) (dataset_dims ds)))].

(** The size an input has along [sequence_dim] when it is opened. *)
Definition input_size (r : Recipe) (w : World) (input_key : key) : result Z :=
  let* ds := open_input fix_scalar_attr_encoding r w input_key in
  of_option KeyError (PyDict.get (dataset_dims ds) (sequence_dim r)).

Lemma open_input_sources (r : Recipe) (w1 w2 : World) (input_key : key) :
  sources w1 = sources w2 ->
  open_input fix_scalar_attr_encoding r w1 input_key
  = open_input fix_scalar_attr_encoding r w2 input_key.
Proof. intros H. unfold open_input. by rewrite H. Qed.

(** What the loop [for k in ks: cache_input_metadata(k)] has done when it
    returns. *)
Lemma cache_loop (r : Recipe) (ks : list key) :
  forall w w',
    NoDup (map _input_metadata_fname ks) ->
    for_each ks (cache_input_metadata fix_scalar_attr_encoding r) w = (Ok tt, w') ->
    sources w' = sources w /\
    target w' = target w /\
    (forall name, name ∉ map _input_metadata_fname ks ->
                  metadata_cache w' !! name = metadata_cache w !! name) /\
    Forall (fun k => exists ds,
              open_input fix_scalar_attr_encoding r w k = Ok ds /\
              metadata_cache w' !! _input_metadata_fname k
              = Some (Json.dumps (input_record ds))) ks.
Proof.
  induction ks as [|k ks IH]; intros w w' Hnd Hrun.
  - injection Hrun as <-. by repeat split.
  - cbn [map] in Hnd. apply NoDup_cons in Hnd as [Hk Hnd].
    cbn [for_each] in Hrun. unfold bind in Hrun.
    unfold cache_input_metadata at 1 in Hrun.
    destruct (open_input fix_scalar_attr_encoding r w k) as [ds|e] eqn:Hopen; [|done].
    destruct (IH _ w' Hnd Hrun) as (Hs & Ht & Hframe & Hall).
    cbn [sources target metadata_cache with_metadata] in Hs, Ht, Hframe.
    split; [done|]. split; [done|]. split.
    + intros name Hname. cbn [map] in Hname.
      apply not_elem_of_cons in Hname as [Hne Hname].
      rewrite (Hframe name Hname). by apply lookup_insert_ne.
    + constructor.
      * exists ds. split; [done|]. rewrite (Hframe _ Hk). apply lookup_insert_eq.
      * eapply Forall_impl; [exact Hall|]. intros k' (ds' & Hopen' & Hrec).
        exists ds'. split; [|done]. rewrite <- Hopen'. by apply open_input_sources.
Qed.

Lemma read_records (r : Recipe) (w w' : World) (ks : list key) :
  truthy (nitems_per_input r) = false ->
  NoDup (map _input_metadata_fname ks) ->
  Forall (fun k => exists ds,
            open_input fix_scalar_attr_encoding r w k = Ok ds /\
            metadata_cache w' !! _input_metadata_fname k
            = Some (Json.dumps (input_record ds))) ks ->
  input_sequence_lens r w' ks = mapR (input_size r w) ks.
Proof.
  intros Hn Hnd Hall.
  assert (exists dss,
            Forall2 (fun k ds =>
                       open_input fix_scalar_attr_encoding r w k = Ok ds /\
                       metadata_cache w' !! _input_metadata_fname k
                       = Some (Json.dumps (input_record ds))) ks dss) as [dss Hdss].
  { clear Hnd. induction Hall as [|k ks (ds & Hk) _ [dss IH]]; [by exists []|].
    exists (ds :: dss). by constructor. }
  clear Hall.
  pose proof (Forall2_length _ _ _ Hdss) as Hlen.
  assert (mapR (fun name => of_option KeyError (metadata_cache w' !! name))
               (map _input_metadata_fname ks)
          = Ok (map (fun ds => Json.dumps (input_record ds)) dss)) as Hraw.
  { clear Hnd Hlen. induction Hdss as [|k ds ks dss [_ Hk] _ IH]; [done|].
    cbn [map mapR]. by rewrite Hk, IH. }
  assert (forall names : list string,
            mapR (fun p : string * string => let* m := Json.loads p.2 in Ok (p.1, m))
                 (zip names (map (fun ds => Json.dumps (input_record ds)) dss))
            = Ok (zip names (map input_record dss))) as Hdocs.
  { clear. induction dss as [|ds dss IH]; intros [|name names]; try done.
    cbn [map zip zip_with mapR snd fst].
    pose proof (JsonTableFacts.loads_dumps_table_record "dims" (dataset_dims ds)) as Hload.
    unfold JsonTableFacts.table in Hload. unfold input_record at 1. rewrite Hload.
    cbn [rbind]. by rewrite IH. }
  assert (mapR (fun m => let* d := Json.getitem m "dims" in
                         let* n := Json.getitem d (sequence_dim r) in Json.as_int n)
               (map input_record dss)
          = mapR (input_size r w) ks) as Hsizes.
  { clear Hnd Hlen Hraw Hdocs. induction Hdss as [|k ds ks dss [Hk _] _ IH]; [done|].
    cbn [map mapR]. rewrite IH. unfold input_size at 2. rewrite Hk. cbn [rbind].
    unfold input_record at 1.
    change (Json.getitem (Json.JDict [("dims", ?x)]) "dims") with (Ok x).
    cbn [rbind]. rewrite getitem_table by apply pydict_of_pairs_keys_NoDup.
    by destruct (PyDict.get (dataset_dims ds) (sequence_dim r)). }
  unfold input_sequence_lens. rewrite Hn.
  unfold get_input_meta, mapper_getitems. rewrite Hraw. cbn [rbind].
  rewrite pydict_of_pairs_NoDup
    by (rewrite fst_zip; [done|rewrite !length_map; lia]).
  rewrite Hdocs. cbn [rbind]. unfold PyDict.values.
  rewrite snd_zip by (rewrite !length_map; lia). done.
Qed.

(** X11.  Caching the metadata of a list of inputs with distinct metadata
    files, one after the other, and reading the lengths back: when
    [nitems_per_input] is not set and the loop over [cache_input_metadata]
    returns, [input_sequence_lens] of these inputs is the list of the
    sizes the inputs have along [sequence_dim] when they are opened, in
    the order of the inputs ([KeyError] if one of them lacks the
    dimension).  The loop leaves the target alone.  For a single-sequence
    recipe with all its inputs cached, this list is what [sequence_lens]
    returns. *)
Theorem cached_lengths_are_input_sizes (r : Recipe) (w w' : World) (input_keys : list key)
    (Hn : truthy (nitems_per_input r) = false)
    (Hdistinct : NoDup (map _input_metadata_fname input_keys))
    (Hrun : for_each input_keys (cache_input_metadata fix_scalar_attr_encoding r) w
            = (Ok tt, w')) :
  input_sequence_lens r w' input_keys = mapR (input_size r w) input_keys /\
  target w' = target w /\
  (forall urls, pattern r = Sequential urls -> iter_inputs r = Ok input_keys ->
                sequence_lens r w' = mapR (input_size r w) input_keys).
Proof.
  destruct (cache_loop r input_keys w w' Hdistinct Hrun) as (_ & Ht & _ & Hall).
  pose proof (read_records r w w' input_keys Hn Hdistinct Hall) as Hread.
  split; [done|]. split; [done|].
  intros urls Hp Hi. unfold sequence_lens. by rewrite Hp, Hi.
Qed.

End caching.

(** Example B: the four inputs are cached, and the lengths read back are
    3, 4, 2 and 5. *)
Lemma cached_lengths_are_input_sizes_witness :
  sequence_lens (built recipe_B) (cached (built recipe_B) files_B) = Ok [3; 4; 2; 5].
Proof.
  destruct (cached_lengths_are_input_sizes id (built recipe_B)
              (with_sources files_B empty_world) (cached (built recipe_B) files_B)
              [[AInt 0]; [AInt 1]; [AInt 2]; [AInt 3]]) as (_ & _ & Hlens).
  - reflexivity.
  - apply (sequence_keys_fnames_NoDup 4).
  - vm_compute. reflexivity.
  - rewrite (Hlens urls_B); [vm_compute; reflexivity|reflexivity|vm_compute; reflexivity].
Defined.

(** ** What [prepare_target] leaves of the metadata cache *)

Lemma input_fname_not_global (k : key) : _input_metadata_fname k <> _GLOBAL_METADATA_KEY.
Proof. unfold _input_metadata_fname, _GLOBAL_METADATA_KEY. by rewrite !app_String. Qed.

Lemma mapR_ext_in {A B} (f g : A -> result B) (l : list A) :
  (forall a, a ∈ l -> f a = g a) -> mapR f l = mapR g l.
Proof.
  induction l as [|a l IH]; intros H; [done|].
  cbn [mapR]. rewrite H by left. rewrite IH; [done|]. intros a' Ha'. apply H. by right.
Qed.

(** The lengths of inputs depend on the records of these inputs only. *)
Lemma input_sequence_lens_agree (r : Recipe) (w1 w2 : World) (ks : list key) :
  (forall k, k ∈ ks ->
     metadata_cache w1 !! _input_metadata_fname k
     = metadata_cache w2 !! _input_metadata_fname k) ->
  input_sequence_lens r w1 ks = input_sequence_lens r w2 ks.
Proof.
  intros H. unfold input_sequence_lens, get_input_meta, mapper_getitems.
  rewrite (mapR_ext_in (fun name => of_option KeyError (metadata_cache w1 !! name))
             (fun name => of_option KeyError (metadata_cache w2 !! name))); [done|].
  intros name Hname. apply list_elem_of_fmap in Hname as (k & -> & Hk). by rewrite H.
Qed.

Lemma sequence_lens_agree (r : Recipe) (w1 w2 : World) :
  (forall k, metadata_cache w1 !! _input_metadata_fname k
             = metadata_cache w2 !! _input_metadata_fname k) ->
  sequence_lens r w1 = sequence_lens r w2.
Proof.
  intros H. unfold sequence_lens. destruct (pattern r) as [urls|p].
  - destruct (iter_inputs r); [|done]. cbn [rbind]. by apply input_sequence_lens_agree.
  - unfold multivar_sequence_lens.
    erewrite foldR_ext; [reflexivity|]. intros d v. cbv beta.
    destruct (iter_inputs r); [|done]. cbn [rbind].
    destruct (filterR _ _); [|done]. cbn [rbind].
    by rewrite (input_sequence_lens_agree r w1 w2).
Qed.

Section prepare_target_metadata.
Context (xr_concat : list Dataset -> string -> result Dataset).
Context (fix_scalar_attr_encoding : Dataset -> Dataset).

Lemma prepare_target_cache (r : Recipe) (w : World) :
  metadata_cache (snd (_prepare_target xr_concat fix_scalar_attr_encoding r w))
  = metadata_cache w \/
  (truthy (nitems_per_input r) = false /\
   exists record,
     metadata_cache (snd (_prepare_target xr_concat fix_scalar_attr_encoding r w))
     = <[_GLOBAL_METADATA_KEY := record]> (metadata_cache w)).
Proof.
  remember (_prepare_target xr_concat fix_scalar_attr_encoding r w) as res eqn:Hres.
  unfold _prepare_target in Hres. unfold bind at 1 in Hres.
  pose proof (keeps_try_except
                (bind open_target (fun _ => ret tt))
                (create_target xr_concat fix_scalar_attr_encoding r)
                target_probe_handled ltac:(unfold open_target; keeps)
                (keeps_create_target xr_concat fix_scalar_attr_encoding r) w) as Hk1.
  match type of Hres with
  | _ = match ?m w with _ => _ end => destruct (m w) as [[[]|e] w1]
  end; cbn [snd] in Hk1; [|subst res; by left].
  unfold expand_and_record in Hres. unfold bind at 1, reading at 1 in Hres.
  destruct (sequence_lens r w1) as [lens|e]; [|subst res; by left].
  unfold bind at 1 in Hres.
  pose proof (keeps_expand_target_dim (sequence_dim r) (sum lens) w1) as Hk2.
  destruct (expand_target_dim (sequence_dim r) (sum lens) w1) as [[[]|e] w2];
    cbn [snd] in Hk2; [|subst res; left; cbn [snd]; congruence].
  destruct (truthy (nitems_per_input r)); cbn [negb] in Hres; subst res.
  - left. cbn [ret snd]. congruence.
  - right. split; [done|]. eexists. cbn [snd metadata_cache with_metadata].
    by rewrite Hk2, Hk1.
Qed.

(** X12.  [prepare_target] writes to the metadata cache at most the global
    record: every other file of the cache is as it was, whether the call
    returns or raises, and with a non-zero [nitems_per_input] the cache is
    not written at all.  The records of the inputs are among the files
    kept, so the lengths read from them, and with them [sequence_lens()],
    are the same after the call as before. *)
Theorem prepare_target_keeps_input_metadata (r : Recipe) (w : World) :
  (forall name, name <> _GLOBAL_METADATA_KEY ->
     metadata_cache (snd (_prepare_target xr_concat fix_scalar_attr_encoding r w)) !! name
     = metadata_cache w !! name) /\
  (truthy (nitems_per_input r) = true ->
   metadata_cache (snd (_prepare_target xr_concat fix_scalar_attr_encoding r w))
   = metadata_cache w) /\
  (forall input_keys,
     input_sequence_lens r (snd (_prepare_target xr_concat fix_scalar_attr_encoding r w))
       input_keys
     = input_sequence_lens r w input_keys) /\
  sequence_lens r (snd (_prepare_target xr_concat fix_scalar_attr_encoding r w))
  = sequence_lens r w.
Proof.
  assert (forall name, name <> _GLOBAL_METADATA_KEY ->
            metadata_cache (snd (_prepare_target xr_concat fix_scalar_attr_encoding r w))
              !! name
            = metadata_cache w !! name) as Hframe.
  { intros name Hname.
    destruct (prepare_target_cache r w) as [->|(_ & record & ->)]; [done|].
    by apply lookup_insert_ne. }
  split; [done|]. split; [|split].
  - intros Hn. destruct (prepare_target_cache r w) as [?|(Hf & _)]; [done|congruence].
  - intros ks. apply input_sequence_lens_agree. intros k _.
    apply Hframe, input_fname_not_global.
  - apply sequence_lens_agree. intros k. apply Hframe, input_fname_not_global.
Qed.

End prepare_target_metadata.

(** ** [expand_target_dim]: the arrays it resizes *)

Lemma zarr_resize_dims (arr : ZArray) (axis : nat) (n : Z) :
  z_dims (zarr_resize arr (<[axis := n]> (z_shape arr))) = z_dims arr.
Proof.
  unfold z_dims at 1. cbn [zarr_resize z_axes]. apply fst_zip.
  rewrite length_insert. unfold z_dims, z_shape. rewrite !length_map. lia.
Qed.

Lemma zarr_resize_shape (arr : ZArray) (axis : nat) (n : Z) :
  z_shape (zarr_resize arr (<[axis := n]> (z_shape arr))) = <[axis := n]> (z_shape arr).
Proof.
  unfold z_shape at 1. cbn [zarr_resize z_axes]. apply snd_zip.
  rewrite length_insert. unfold z_dims, z_shape. rewrite !length_map. lia.
Qed.

(** The loop of [expand_target_dim], array by array. *)
Lemma resize_loop_effect (dimsize : Z) (sequence_axes : PyDict.t string Z) :
  NoDup (map fst sequence_axes) ->
  forall w,
    (forall va, va ∈ sequence_axes -> is_Some (current_group w !! va.1)) ->
    exists w',
      for_each sequence_axes (fun va : string * Z =>
        bind (zgroup_getitem va.1) (fun arr =>
          zgroup_setitem va.1
            (zarr_resize arr (<[Z.to_nat va.2 := dimsize]> (z_shape arr))))) w
      = (Ok tt, w') /\
      (is_Some (target w) -> target w' = Some (current_group w')) /\
      (forall v, v ∉ map fst sequence_axes -> current_group w' !! v = current_group w !! v) /\
      (forall va, va ∈ sequence_axes ->
         exists arr,
           current_group w !! va.1 = Some arr /\
           current_group w' !! va.1
           = Some (zarr_resize arr (<[Z.to_nat va.2 := dimsize]> (z_shape arr)))).
Proof.
  induction sequence_axes as [|va sa IH]; intros Hnd w Hin.
  - exists w. split; [done|]. split.
    + intros [g Hg]. unfold current_group. by rewrite Hg.
    + split; [done|]. intros va Hva. by apply elem_of_nil in Hva.
  - cbn [map] in Hnd. apply NoDup_cons in Hnd as [Hva Hnd].
    destruct (Hin va) as [arr Harr]; [by left|].
    cbn [for_each]. unfold bind at 1. unfold bind at 1.
    unfold zgroup_getitem at 1. fold (current_group w). rewrite Harr.
    cbn [of_option]. unfold zgroup_setitem at 1. fold (current_group w).
    set (resized := zarr_resize arr (<[Z.to_nat va.2 := dimsize]> (z_shape arr))).
    set (w1 := with_target _ w).
    assert (current_group w1 = <[va.1 := resized]> (current_group w)) as Hw1 by done.
    destruct (IH Hnd w1) as (w' & Hrun & Htarget & Hframe & Heffect).
    { intros va' Hva'. rewrite Hw1.
      destruct (decide (va.1 = va'.1)) as [<-|Hne].
      - rewrite lookup_insert_eq. by eexists.
      - rewrite lookup_insert_ne by done. apply Hin. by right. }
    exists w'. split; [done|]. split; [|split].
    + intros _. apply Htarget. by eexists.
    + intros v Hv. cbn [map] in Hv. apply not_elem_of_cons in Hv as [Hne Hv].
      rewrite (Hframe v Hv), Hw1. by apply lookup_insert_ne.
    + intros va' Hva'. apply elem_of_cons in Hva' as [->|Hva'].
      * exists arr. split; [done|]. rewrite (Hframe _ Hva), Hw1. apply lookup_insert_eq.
      * destruct (Heffect va' Hva') as (arr' & Harr' & Hres).
        exists arr'. split; [|done]. rewrite Hw1 in Harr'.
        rewrite lookup_insert_ne in Harr'; [done|].
        intros Heq. apply Hva. rewrite Heq. apply list_elem_of_fmap. by exists va'.
Qed.

(** The axes [expand_target_dim] finds: one for each array of the group
    that has the dimension. *)
Lemma sequence_axes_spec (dim : string) (g : ZGroup) :
  exists sequence_axes : PyDict.t string Z,
    sequence_axes_of dim (map (fun p => (p.1, variable_of_zarr p.2)) (map_to_list g))
    = Ok sequence_axes /\
    NoDup (map fst sequence_axes) /\
    (forall v axis, (v, axis) ∈ sequence_axes ->
       exists arr, g !! v = Some arr /\ dim ∈ z_dims arr /\
                   list_index dim (z_dims arr) = Ok axis) /\
    (forall v arr, g !! v = Some arr -> dim ∈ z_dims arr -> v ∈ map fst sequence_axes).
Proof.
  unfold sequence_axes_of.
  set (ds := map (fun p : string * ZArray => (p.1, variable_of_zarr p.2)) (map_to_list g)).
  set (axis_of := fun p : string * DataArray =>
                    (p.1, match get_axis_num p.2 dim with Ok i => i | Raise _ => 0 end)).
  rewrite (mapR_Ok_map _ axis_of).
  2:{ intros p Hin. apply list_elem_of_filter in Hin as [Hd _].
      unfold axis_of, get_axis_num.
      by destruct (list_index_Ok dim (dims p.2) Hd) as [i ->]. }
  cbn [rbind].
  assert (map fst (map axis_of (filter (fun p => dim ∈ dims p.2) ds))
          = map fst (filter (fun p : string * DataArray => dim ∈ dims p.2) ds)) as Hnames.
  { by rewrite map_map. }
  assert (NoDup (map fst (map axis_of (filter (fun p => dim ∈ dims p.2) ds)))) as Hnd.
  { rewrite Hnames.
    apply (sublist_NoDup _ (map fst ds)); [|apply fmap_sublist, sublist_filter].
    unfold ds. rewrite map_map. cbn [fst]. apply NoDup_fst_map_to_list. }
  rewrite pydict_of_pairs_NoDup by done.
  eexists. split; [reflexivity|]. split; [done|]. split.
  - intros v axis Hin. apply list_elem_of_fmap in Hin as (p & Hp & Hin).
    apply list_elem_of_filter in Hin as [Hd Hin].
    unfold ds in Hin. apply list_elem_of_fmap in Hin as ([name arr] & -> & Hin).
    apply elem_of_map_to_list in Hin. unfold axis_of in Hp. cbn [fst snd] in Hp, Hd.
    injection Hp as -> ->. exists arr. split; [done|]. split; [done|].
    unfold get_axis_num. change (dims (variable_of_zarr arr)) with (z_dims arr).
    change (dims (variable_of_zarr arr)) with (z_dims arr) in Hd.
    by destruct (list_index_Ok dim (z_dims arr) Hd) as [i ->].
  - intros v arr Hv Hd. apply list_elem_of_fmap.
    exists (axis_of (v, variable_of_zarr arr)). split; [done|].
    apply list_elem_of_fmap. exists (v, variable_of_zarr arr). split; [done|].
    apply list_elem_of_filter. split; [done|].
    unfold ds. apply list_elem_of_fmap. exists (v, arr). split; [done|].
    by apply elem_of_map_to_list.
Qed.

(** What [expand_target_dim] makes of an array [arr] called [name]. *)
Definition expanded (dim : string) (dimsize : Z) (name : string) (arr arr' : ZArray) : Prop :=
  z_dims arr' = z_dims arr /\
  z_chunks arr' = z_chunks arr /\
  (dim ∈ z_dims arr ->
   exists axis,
     list_index dim (z_dims arr) = Ok axis /\
     z_shape arr' = <[Z.to_nat axis := dimsize]> (z_shape arr) /\
     (name <> dim ->
      forall idx, z_data arr' idx
                  = if in_bounds (z_shape arr) idx then z_data arr idx else z_fill arr)) /\
  (dim ∉ z_dims arr -> z_shape arr' = z_shape arr /\ (name <> dim -> arr' = arr)).

(** [expand_target_dim] on a target that is there. *)
Lemma expand_target_dim_effect (dim : string) (dimsize : Z) (w : World) (g : ZGroup)
    (Hfault : target_fault w = None)
    (Htarget : target w = Some g) :
  exists w' g',
    expand_target_dim dim dimsize w = (Ok tt, w') /\
    target w' = Some g' /\
    (forall name, g !! name = None -> g' !! name = None) /\
    (forall name arr, g !! name = Some arr ->
       exists arr', g' !! name = Some arr' /\ expanded dim dimsize name arr arr').
Proof.
  destruct (sequence_axes_spec dim g) as (sa & Hsa & Hnd & Hmem & Hall).
  assert (current_group w = g) as Hg by (unfold current_group; by rewrite Htarget).
  destruct (resize_loop_effect dimsize sa Hnd w) as (w2 & Hloop & Ht2 & Hframe & Heffect).
  { intros [v axis] Hva. rewrite Hg. cbn [fst].
    destruct (Hmem v axis Hva) as (arr & -> & _). by eexists. }
  specialize (Ht2 ltac:(rewrite Htarget; by eexists)).
  rewrite Hg in Hframe, Heffect.
  (* the group after the loop *)
  assert (forall name, g !! name = None -> current_group w2 !! name = None) as Hnone.
  { intros name Hname. rewrite Hframe; [done|].
    intros Hin. apply list_elem_of_fmap in Hin as ([v axis] & -> & Hva).
    destruct (Hmem v axis Hva) as (arr & Harr & _). cbn [fst] in Hname. congruence. }
  assert (forall name arr, g !! name = Some arr ->
            exists arr2, current_group w2 !! name = Some arr2 /\
                         z_dims arr2 = z_dims arr /\ z_chunks arr2 = z_chunks arr /\
                         z_fill arr2 = z_fill arr /\
                         (dim ∈ z_dims arr ->
                          exists axis,
                            list_index dim (z_dims arr) = Ok axis /\
                            arr2 = zarr_resize arr (<[Z.to_nat axis := dimsize]> (z_shape arr))) /\
                         (dim ∉ z_dims arr -> arr2 = arr)) as Hsome.
  { intros name arr Harr. destruct (decide (dim ∈ z_dims arr)) as [Hd|Hd].
    - pose proof (Hall name arr Harr Hd) as Hin.
      apply list_elem_of_fmap in Hin as ([v axis] & -> & Hva). cbn [fst] in Harr.
      destruct (Heffect _ Hva) as (arr0 & Harr0 & Hres). cbn [fst snd] in Harr0, Hres.
      assert (arr0 = arr) as -> by congruence.
      destruct (Hmem v axis Hva) as (arr1 & Harr1 & _ & Haxis).
      assert (arr1 = arr) as -> by congruence.
      eexists. split; [exact Hres|]. split; [apply zarr_resize_dims|].
      split; [done|]. split; [done|]. split; [|done].
      intros _. by exists axis.
    - exists arr. split.
      + rewrite Hframe; [done|].
        intros Hin. apply list_elem_of_fmap in Hin as ([v axis] & -> & Hva).
        destruct (Hmem v axis Hva) as (arr1 & Harr1 & Hd1 & _). cbn [fst] in Harr.
        assert (arr1 = arr) as -> by congruence. done.
      + repeat split; try done. }
  (* running the function *)
  assert (exists w',
            expand_target_dim dim dimsize w = (Ok tt, w') /\
            target w' = Some (current_group w') /\
            (forall name, name <> dim -> current_group w' !! name = current_group w2 !! name) /\
            match current_group w2 !! dim with
            | Some a2 => current_group w' !! dim = Some (zarr_fill a2 0)
            | None => current_group w' !! dim = None
            end) as (w' & Hrun & Ht' & Hother & Hdim).
  { unfold expand_target_dim. unfold bind at 1.
    rewrite (zarr_open_group_run w g Hfault Htarget).
    unfold bind at 1. unfold open_target.
    rewrite (xr_open_zarr_run w g Hfault Htarget).
    unfold bind at 1. unfold reading at 1. cbv beta. rewrite Hsa.
    unfold bind at 1. rewrite Hloop.
    unfold bind at 1. unfold reading at 1. cbv beta. fold (current_group w2).
    destruct (current_group w2 !! dim) as [a2|] eqn:Ha2.
    - rewrite bool_decide_eq_true_2 by (by eexists).
      unfold bind, zgroup_getitem, zgroup_setitem. fold (current_group w2). rewrite Ha2.
      cbn [of_option]. eexists. split; [reflexivity|].
      unfold current_group. cbn [target with_target default from_option id].
      fold (current_group w2). split; [done|]. split.
      + intros name Hname. by apply lookup_insert_ne.
      + apply lookup_insert_eq.
    - rewrite bool_decide_eq_false_2 by (intros [? ?]; congruence).
      exists w2. split; [reflexivity|]. split; [done|]. split; [done|]. done. }
  exists w', (current_group w'). split; [done|]. split; [done|]. split.
  - intros name Hname. pose proof (Hnone name Hname) as H2.
    destruct (decide (name = dim)) as [->|Hne].
    + by rewrite H2 in Hdim.
    + by rewrite Hother.
  - intros name arr Harr.
    destruct (Hsome name arr Harr) as (arr2 & H2 & Hdims & Hchunks & Hfill & Hhas & Hnot).
    destruct (decide (name = dim)) as [->|Hne].
    + rewrite H2 in Hdim. exists (zarr_fill arr2 0). split; [done|].
      unfold expanded. split; [done|]. split; [done|]. split.
      * intros Hd. destruct (Hhas Hd) as (axis & Haxis & ->).
        exists axis. split; [done|]. split; [|done].
        apply (zarr_resize_shape arr).
      * intros Hd. rewrite (Hnot Hd). split; [done|done].
    + exists arr2. split; [by rewrite Hother|].
      unfold expanded. split; [done|]. split; [done|]. split.
      * intros Hd. destruct (Hhas Hd) as (axis & Haxis & ->).
        exists axis. split; [done|]. split; [apply zarr_resize_shape|]. done.
      * intros Hd. rewrite (Hnot Hd). done.
Qed.

(** X13.  On a target that is there, [expand_target_dim] returns normally
    and leaves the same arrays under the same names.  An array that has
    the dimension is resized to [dimsize] along the axis of that dimension
    and keeps its other extents, its dimension names and its chunks; its
    elements inside the old shape are kept and the new ones hold the fill
    value, unless it is the array of the dimension itself, which is
    overwritten.  An array without the dimension keeps its shape, and is
    left as it is unless it bears the name of the dimension. *)
Theorem expand_target_dim_resizes (dim : string) (dimsize : Z) (w : World) (g : ZGroup)
    (Hfault : target_fault w = None)
    (Htarget : target w = Some g) :
  exists w' g',
    expand_target_dim dim dimsize w = (Ok tt, w') /\
    target w' = Some g' /\
    (forall name, g !! name = None -> g' !! name = None) /\
    (forall name arr, g !! name = Some arr ->
       exists arr', g' !! name = Some arr' /\ expanded dim dimsize name arr arr').
Proof. by apply expand_target_dim_effect. Qed.

(** The target of Example B, prepared for 14 items, is expanded to 20. *)
Lemma expand_target_dim_resizes_witness :
  exists w' g',
    expand_target_dim "time" 20 (prepared (built recipe_B) files_B) = (Ok tt, w') /\
    target w' = Some g' /\
    (forall name,
       current_group (prepared (built recipe_B) files_B) !! name = None ->
       g' !! name = None) /\
    (forall name arr,
       current_group (prepared (built recipe_B) files_B) !! name = Some arr ->
       exists arr', g' !! name = Some arr' /\ expanded "time" 20 name arr arr').
Proof.
  apply (expand_target_dim_resizes "time" 20 (prepared (built recipe_B) files_B)
           (current_group (prepared (built recipe_B) files_B))).
  - vm_compute; reflexivity.
  - vm_compute; reflexivity.
Defined.

Lemma list_index_bound `{EqDecision A} (x : A) (l : list A) (i : Z) :
  list_index x l = Ok i -> 0 <= i < Z.of_nat (length l).
Proof.
  revert i. induction l as [|y l IH]; intros i H; simpl in H; [done|].
  destruct (decide (y = x)).
  - injection H as <-. simpl. lia.
  - destruct (list_index x l) as [j|]; [|done]. injection H as <-.
    specialize (IH j eq_refl). simpl. lia.
Qed.

(** Whenever [expand_target_dim] returns, there is a target, and each of
    its arrays that has the dimension is [dimsize] long along it. *)
Lemma expand_target_dim_returns (dim : string) (dimsize : Z) (w w' : World) :
  expand_target_dim dim dimsize w = (Ok tt, w') ->
  exists g',
    target w' = Some g' /\
    forall name arr',
      g' !! name = Some arr' -> dim ∈ z_dims arr' ->
      exists axis, list_index dim (z_dims arr') = Ok axis /\
                   z_shape arr' !! Z.to_nat axis = Some dimsize.
Proof.
  intros Hrun.
  assert (target_fault w = None) as Hfault.
  { unfold expand_target_dim in Hrun. unfold bind at 1 in Hrun.
    unfold zarr_open_group, bind, access_target in Hrun.
    by destruct (target_fault w). }
  assert (exists w0 g, target_fault w0 = None /\ target w0 = Some g /\
                       expand_target_dim dim dimsize w0 = (Ok tt, w')) as (w0 & g & Hf0 & Ht0 & Hrun0).
  { destruct (target w) as [g|] eqn:Ht; [by exists w, g|].
    exists (with_target (Some ∅) w), ∅. split; [done|]. split; [done|].
    assert (zarr_open_group w = (Ok ∅, with_target (Some ∅) w)) as Hz.
    { unfold zarr_open_group, bind, access_target. by rewrite Hfault, Ht. }
    unfold expand_target_dim in Hrun |- *.
    unfold bind at 1 in Hrun. unfold bind at 1.
    rewrite Hz in Hrun.
    by rewrite (zarr_open_group_run (with_target (Some ∅) w) ∅). }
  destruct (expand_target_dim_effect dim dimsize w0 g Hf0 Ht0)
    as (w1 & g' & Hrun1 & Ht1 & Hnone & Hsome).
  rewrite Hrun1 in Hrun0. injection Hrun0 as ->.
  exists g'. split; [done|]. intros name arr' Harr' Hd.
  destruct (g !! name) as [arr|] eqn:Harr.
  - destruct (Hsome name arr Harr) as (arr'' & Harr'' & Hdims & _ & Hhas & _).
    assert (arr'' = arr') as -> by congruence.
    rewrite Hdims in Hd |- *. destruct (Hhas Hd) as (axis & Haxis & Hshape & _).
    exists axis. split; [done|]. rewrite Hshape. apply list_lookup_insert_eq.
    apply list_index_bound in Haxis. unfold z_shape, z_dims in *.
    rewrite length_map in *. lia.
  - rewrite (Hnone name Harr) in Harr'. done.
Qed.

Section prepare_target_size.
Context (xr_concat : list Dataset -> string -> result Dataset).
Context (fix_scalar_attr_encoding : Dataset -> Dataset).

(** X14.  When [prepare_target] returns, the target is there and is sized
    for the whole sequence: every array of the target that has
    [sequence_dim] is, along that dimension, as long as the sum of
    [sequence_lens()], whether the target was found or has just been
    created from the initialization chunks. *)
Theorem prepare_target_sizes_target (r : Recipe) (w w' : World)
    (Hrun : _prepare_target xr_concat fix_scalar_attr_encoding r w = (Ok tt, w')) :
  exists lens g',
    sequence_lens r w = Ok lens /\
    target w' = Some g' /\
    forall name arr',
      g' !! name = Some arr' -> sequence_dim r ∈ z_dims arr' ->
      exists axis, list_index (sequence_dim r) (z_dims arr') = Ok axis /\
                   z_shape arr' !! Z.to_nat axis = Some (sum lens).
Proof.
  unfold _prepare_target in Hrun. unfold bind at 1 in Hrun.
  pose proof (keeps_try_except
                (bind open_target (fun _ => ret tt))
                (create_target xr_concat fix_scalar_attr_encoding r)
                target_probe_handled ltac:(unfold open_target; keeps)
                (keeps_create_target xr_concat fix_scalar_attr_encoding r) w) as Hk1.
  match type of Hrun with
  | match ?m w with _ => _ end = _ => destruct (m w) as [[[]|e] w1]; [|done]
  end.
  cbn [snd] in Hk1.
  unfold expand_and_record in Hrun. unfold bind at 1, reading at 1 in Hrun.
  destruct (sequence_lens r w1) as [lens|e] eqn:Hlens; [|done].
  unfold bind at 1 in Hrun.
  destruct (expand_target_dim (sequence_dim r) (sum lens) w1) as [[[]|e] w2] eqn:He; [|done].
  destruct (expand_target_dim_returns _ _ _ _ He) as (g' & Hg' & Hsized).
  exists lens, g'. split; [by rewrite <- (sequence_lens_metadata r w1 w Hk1)|].
  split; [|done].
  destruct (negb (truthy (nitems_per_input r))); injection Hrun as <-; done.
Qed.

End prepare_target_size.

(** Example B: the prepared target is 14 items long. *)
Lemma prepare_target_sizes_target_witness :
  exists lens g',
    sequence_lens (built recipe_B) (cached (built recipe_B) files_B) = Ok lens /\
    target (prepared (built recipe_B) files_B) = Some g' /\
    forall name arr',
      g' !! name = Some arr' -> "time" ∈ z_dims arr' ->
      exists axis, list_index "time" (z_dims arr') = Ok axis /\
                   z_shape arr' !! Z.to_nat axis = Some (sum lens).
Proof.
  apply (prepare_target_sizes_target concat_datasets id (built recipe_B)
           (cached (built recipe_B) files_B) (prepared (built recipe_B) files_B)).
  vm_compute; reflexivity.
Defined.

(** ** [store_chunk]: what it writes *)

(** The variables of a dataset have the dimensions of the arrays of their
    names, in the same order, wherever the group has such an array; a
    region write of xarray asks for as much. *)
Definition dims_agree (ds : Dataset) (g : ZGroup) : bool :=
  forallb (fun p : string * DataArray =>
             match g !! p.1 with
             | Some arr => bool_decide (dims p.2 = z_dims arr)
             | None => true
             end)
          ds.

(** [arr'] is [arr] but for elements whose index along [dim] lies in
    [[start, stop)]. *)
Definition written (dim : string) (start stop : Z) (arr arr' : ZArray) : Prop :=
  z_axes arr' = z_axes arr /\
  z_chunks arr' = z_chunks arr /\
  z_fill arr' = z_fill arr /\
  forall axis idx,
    list_index dim (z_dims arr) = Ok axis ->
    (forall i, idx !! Z.to_nat axis = Some i -> ~ (start <= i < stop)) ->
    z_data arr' idx = z_data arr idx.

Lemma written_refl (dim : string) (start stop : Z) (arr : ZArray) :
  written dim start stop arr arr.
Proof. by repeat split. Qed.

Lemma written_trans (dim : string) (start stop : Z) (a1 a2 a3 : ZArray) :
  written dim start stop a1 a2 -> written dim start stop a2 a3 ->
  written dim start stop a1 a3.
Proof.
  intros (Hx1 & Hc1 & Hf1 & Hd1) (Hx2 & Hc2 & Hf2 & Hd2).
  split; [congruence|]. split; [congruence|]. split; [congruence|].
  intros axis idx Haxis Hout. rewrite (Hd2 axis idx); [by apply (Hd1 axis)| |done].
  unfold z_dims in *. by rewrite Hx1.
Qed.

Lemma zarr_write_region_written (dim : string) (start stop : Z) (arr : ZArray)
    (axis : Z) (src : list Z -> Z) :
  list_index dim (z_dims arr) = Ok axis ->
  written dim start stop arr (zarr_write_region arr (Z.to_nat axis) start stop src).
Proof.
  intros Haxis. split; [done|]. split; [done|]. split; [done|].
  intros axis' idx Haxis' Hout. assert (axis' = axis) as -> by congruence.
  cbn [zarr_write_region z_data].
  destruct (idx !! Z.to_nat axis) as [i|] eqn:Hi; [|done].
  specialize (Hout i eq_refl).
  destruct (Z.leb_spec start i); destruct (Z.ltb_spec i stop); cbn [andb]; try done. lia.
Qed.

Lemma write_variables_region_confined (dim : string) (start stop : Z) (ds : Dataset) :
  forall g g' : ZGroup,
    write_variables_region dim start stop g ds = Ok g' ->
    dims_agree ds g = true ->
    (forall name, g !! name = None -> g' !! name = None) /\
    (forall name arr, g !! name = Some arr ->
       exists arr', g' !! name = Some arr' /\ written dim start stop arr arr').
Proof.
  induction ds as [|p ds IH]; intros g g' Hw Hagree.
  - injection Hw as <-. split; [done|]. intros name arr Harr. exists arr.
    split; [done|apply written_refl].
  - cbn [write_variables_region] in Hw. unfold write_variable_region at 1 in Hw.
    destruct (get_axis_num p.2 dim) as [axis|] eqn:Haxis; [|done]. cbn [rbind] in Hw.
    destruct (g !! p.1) as [arr_p|] eqn:Hp; [|done]. cbn [of_option rbind] in Hw.
    cbn [dims_agree forallb] in Hagree. apply andb_prop in Hagree as [Hp_agree Hagree].
    rewrite Hp in Hp_agree. apply bool_decide_eq_true in Hp_agree.
    unfold get_axis_num in Haxis. rewrite Hp_agree in Haxis.
    pose proof (zarr_write_region_written dim start stop arr_p axis (data p.2) Haxis)
      as Hstep.
    set (a1 := zarr_write_region arr_p (Z.to_nat axis) start stop (data p.2)) in *.
    destruct (IH _ g' Hw) as (Hnone & Hsome).
    { unfold dims_agree. apply forallb_forall. intros q Hq.
      unfold dims_agree in Hagree.
      pose proof (proj1 (forallb_forall _ _) Hagree q Hq) as Hq_agree.
      cbv beta in Hq_agree |- *.
      destruct (decide (p.1 = q.1)) as [Heq|Hne].
      - rewrite <- Heq, lookup_insert_eq. rewrite <- Heq, Hp in Hq_agree.
        apply bool_decide_eq_true in Hq_agree. apply bool_decide_eq_true.
        rewrite Hq_agree. unfold z_dims. by destruct Hstep as (-> & _).
      - by rewrite lookup_insert_ne. }
    split.
    + intros name Hname. apply Hnone.
      rewrite lookup_insert_ne; [done|]. intros <-. congruence.
    + intros name arr Harr. destruct (decide (p.1 = name)) as [<-|Hne].
      * assert (arr = arr_p) as -> by congruence.
        destruct (Hsome p.1 a1) as (arr' & Harr' & Hw1); [apply lookup_insert_eq|].
        exists arr'. split; [done|]. by apply (written_trans _ _ _ _ a1).
      * apply Hsome. by rewrite lookup_insert_ne.
Qed.

Lemma dims_agree_drop (ds : Dataset) (names : list string) (g : ZGroup) :
  dims_agree ds g = true -> dims_agree (drop_vars ds names) g = true.
Proof.
  unfold dims_agree. rewrite !forallb_forall. intros H p Hp. apply H.
  apply list_elem_of_In. apply list_elem_of_In in Hp.
  unfold drop_vars in Hp. by apply list_elem_of_filter in Hp as [_ Hp].
Qed.

Section store_chunk_writes.
Context (xr_concat : list Dataset -> string -> result Dataset).
Context (fix_scalar_attr_encoding : Dataset -> Dataset).

(** X15.  [store_chunk] writes inside the region of its chunk and nowhere
    else.  When the call returns, for a chunk whose variables have the
    dimensions of the target arrays of their names, the target holds the
    arrays it held, with the same shapes and chunks, and an element whose
    index along [sequence_dim] lies outside the chunk's region
    [[start, stop)] has the value it had; no array is added, and the
    metadata cache is as it was. *)
Theorem store_chunk_writes_inside_region (r : Recipe) (chunk_key : key) (w w' : World)
    (ds : Dataset) (start stop : Z)
    (Hopen : open_chunk xr_concat fix_scalar_attr_encoding r w chunk_key = Ok ds)
    (Hagree : dims_agree ds (current_group w) = true)
    (Hregion : region_for_chunk r w chunk_key = Ok (sequence_dim r, (start, stop)))
    (Hrun : _store_chunk xr_concat fix_scalar_attr_encoding r chunk_key w = (Ok tt, w')) :
  metadata_cache w' = metadata_cache w /\
  (forall name, current_group w !! name = None -> current_group w' !! name = None) /\
  (forall name arr,
     current_group w !! name = Some arr ->
     exists arr', current_group w' !! name = Some arr' /\
                  written (sequence_dim r) start stop arr arr').
Proof.
  unfold _store_chunk in Hrun. unfold bind at 1, reading at 1 in Hrun.
  rewrite Hopen in Hrun. unfold bind at 1, reading at 1 in Hrun.
  unfold region_for_chunk in Hregion.
  destruct (region_and_conflicts_for_chunk r w chunk_key) as [[region conflicts]|e];
    [|done].
  cbn [rbind fst] in Hregion. injection Hregion as ->.
  cbn [fst snd] in Hrun.
  unfold lock_for_conflicts, to_zarr_region, bind, access_target in Hrun.
  destruct (target_fault w); [done|].
  destruct (target w) as [g|] eqn:Ht; [|done].
  destruct (forallb _ _); [|done].
  destruct (write_variables_region _ _ _ g _) as [g'|e] eqn:Hw; [|done].
  unfold put_target in Hrun. injection Hrun as <-.
  assert (current_group w = g) as Hg by (unfold current_group; by rewrite Ht).
  rewrite Hg in *.
  split; [done|].
  change (current_group (with_target (Some g') w)) with g'.
  apply (write_variables_region_confined _ _ _ _ _ _ Hw).
  by apply dims_agree_drop.
Qed.

End store_chunk_writes.

(** Example B: the second chunk is stored into [[3, 7)], and the rest of
    the target stays as [prepare_target] left it. *)
Lemma store_chunk_writes_inside_region_witness :
  region_for_chunk (built recipe_B) (prepared (built recipe_B) files_B) [AInt 1]
  = Ok ("time", (3, 7)) /\
  forall name arr,
    current_group (prepared (built recipe_B) files_B) !! name = Some arr ->
    exists arr',
      current_group (snd (_store_chunk concat_datasets id (built recipe_B) [AInt 1]
                            (prepared (built recipe_B) files_B))) !! name = Some arr' /\
      written "time" 3 7 arr arr'.
Proof.
  split; [vm_compute; reflexivity|].
  apply (store_chunk_writes_inside_region concat_datasets id (built recipe_B) [AInt 1]
           (prepared (built recipe_B) files_B)
           (snd (_store_chunk concat_datasets id (built recipe_B) [AInt 1]
                   (prepared (built recipe_B) files_B)))
           (opened (built recipe_B) (prepared (built recipe_B) files_B) [AInt 1]) 3 7).
  - vm_compute; reflexivity.
  - vm_compute; reflexivity.
  - vm_compute; reflexivity.
  - vm_compute; reflexivity.
Defined.

(** ** [sequence_lens] of the multi-variable recipe *)

(** The lengths of the inputs of one variable, as the loop of
    [sequence_lens] computes them. *)
Definition variable_lens (r : Recipe) (w : World) (v : string) : result (list Z) :=
  let* inputs := iter_inputs r in
  let* variable_input_keys := filterR (key_at_is 0 (AStr v)) inputs in
  input_sequence_lens r w variable_input_keys.

Lemma pydict_get_set_eq {K V} `{EqDecision K} (d : PyDict.t K V) (k : K) (v : V) :
  PyDict.get (PyDict.set d k v) k = Some v.
Proof.
  induction d as [|[k' v'] d IH]; simpl.
  - by rewrite decide_True.
  - destruct (decide (k' = k)) as [->|Hne]; simpl.
    + by rewrite decide_True.
    + by rewrite decide_False.
Qed.

Lemma pydict_get_set_ne {K V} `{EqDecision K} (d : PyDict.t K V) (k k' : K) (v : V) :
  k <> k' -> PyDict.get (PyDict.set d k v) k' = PyDict.get d k'.
Proof.
  intros Hne. induction d as [|[k0 v0] d IH]; simpl.
  - by rewrite decide_False.
  - destruct (decide (k0 = k)) as [->|Hne0]; simpl.
    + by rewrite !decide_False.
    + destruct (decide (k0 = k')); [done|apply IH].
Qed.

(** The dictionary [lens_by_variable] after the loop over the variables. *)
Lemma lens_by_variable_fold (r : Recipe) (w : World) (variables : list string) :
  forall d : PyDict.t string (list Z),
    forallb (fun v => is_ok (variable_lens r w v)) variables = true ->
    exists d',
      foldR (fun (lens_by_variable : PyDict.t string (list Z)) (v : string) =>
               let* inputs := iter_inputs r in
               let* variable_input_keys := filterR (key_at_is 0 (AStr v)) inputs in
               let* lens := input_sequence_lens r w variable_input_keys in
               Ok (PyDict.set lens_by_variable v lens))
            d variables
      = Ok d' /\
      (forall v, v ∉ variables -> PyDict.get d' v = PyDict.get d v) /\
      (forall v lens, v ∈ variables -> variable_lens r w v = Ok lens ->
                      PyDict.get d' v = Some lens).
Proof.
  induction variables as [|v0 vs IH]; intros d Hall.
  - exists d. split; [done|]. split; [done|]. intros v lens Hv. by apply elem_of_nil in Hv.
  - cbn [forallb] in Hall. apply andb_prop in Hall as [H0 Hall].
    destruct (variable_lens r w v0) as [l0|] eqn:Hl0; [|done].
    cbn [foldR].
    assert ((let* inputs := iter_inputs r in
             let* variable_input_keys := filterR (key_at_is 0 (AStr v0)) inputs in
             let* lens := input_sequence_lens r w variable_input_keys in
             Ok (PyDict.set d v0 lens))
            = Ok (PyDict.set d v0 l0)) as ->.
    { unfold variable_lens in Hl0. destruct (iter_inputs r); [|done]. cbn [rbind] in *.
      destruct (filterR _ _); [|done]. cbn [rbind] in *. by rewrite Hl0. }
    cbn [rbind].
    destruct (IH (PyDict.set d v0 l0) Hall) as (d' & Hfold & Hframe & Hget).
    exists d'. split; [done|]. split.
    + intros v Hv. apply not_elem_of_cons in Hv as [Hne Hv].
      rewrite (Hframe v Hv). by apply pydict_get_set_ne.
    + intros v lens Hv Hlens. destruct (decide (v ∈ vs)) as [Hin|Hout].
      * by apply Hget.
      * apply elem_of_cons in Hv as [->|Hv]; [|done].
        rewrite (Hframe v0 Hout), pydict_get_set_eq. congruence.
Qed.

(** X16.  The consistency check of the multi-variable [sequence_lens].
    When the lengths of the inputs of every variable can be read, the
    method compares the lengths of the last variable of the pattern with
    those of the first, and nothing else: it raises [ValueError] when the
    two lists differ and returns the list of the first variable when they
    are equal.  So with one variable the check always passes, with two it
    is the check one expects, and the variables in between are not looked
    at.  With no variable at all the loop variable is unbound and the
    method raises [NameError]. *)
Theorem multivar_sequence_lens_check (r : Recipe) (w : World) (p : VariableSequencePattern)
    (Hall : forallb (fun v => is_ok (variable_lens r w v)) (keys_variable p) = true) :
  multivar_sequence_lens r w p
  = match head (keys_variable p), last (keys_variable p) with
    | Some first, Some v =>
        let* lens_first := variable_lens r w first in
        let* lens_v := variable_lens r w v in
        if bool_decide (lens_v = lens_first) then Ok lens_first else Raise ValueError
    | _, _ => Raise NameError
    end.
Proof.
  unfold multivar_sequence_lens.
  destruct (lens_by_variable_fold r w (keys_variable p) [] Hall)
    as (d & -> & _ & Hget).
  cbn [rbind].
  destruct (keys_variable p) as [|first rest] eqn:Hvars; [done|].
  assert (exists v, last (first :: rest) = Some v /\ v ∈ first :: rest) as (v & Hlast & Hv).
  { destruct (last (first :: rest)) as [v|] eqn:Hl.
    - exists v. split; [done|]. apply last_Some in Hl as [l' ->].
      apply elem_of_app. right. by left.
    - by apply last_None in Hl. }
  rewrite Hlast. cbn [head of_option rbind].
  pose proof (proj1 (forallb_forall _ _) Hall) as Hok.
  assert (exists lens_first, variable_lens r w first = Ok lens_first) as [lens_first Hfirst].
  { specialize (Hok first ltac:(by left)). cbv beta in Hok.
    destruct (variable_lens r w first); [by eexists|done]. }
  assert (exists lens_v, variable_lens r w v = Ok lens_v) as [lens_v Hlens_v].
  { specialize (Hok v ltac:(by apply list_elem_of_In)). cbv beta in Hok.
    destruct (variable_lens r w v); [by eexists|done]. }
  unfold PyDict.getitem.
  rewrite (Hget v lens_v Hv Hlens_v), (Hget first lens_first ltac:(by left) Hfirst).
  rewrite Hfirst, Hlens_v. cbn [of_option rbind forallb andb id].
  rewrite andb_true_r. by destruct (bool_decide (lens_v = lens_first)).
Qed.

(** Three variables whose inputs are 3, 4 and 3 items long: the first and
    the last agree, and the method returns their list. *)
Lemma multivar_sequence_lens_check_witness :
  multivar_sequence_lens (built recipe_abc) (cached (built recipe_abc) files_abc) pattern_abc
  = Ok [3] /\
  variable_lens (built recipe_abc) (cached (built recipe_abc) files_abc) "b" = Ok [4].
Proof.
  split; [|vm_compute; reflexivity].
  rewrite (multivar_sequence_lens_check (built recipe_abc)
             (cached (built recipe_abc) files_abc) pattern_abc).
  - vm_compute. reflexivity.
  - vm_compute. reflexivity.
Defined.

(** ** The file names of the metadata cache *)

Lemma string_app_inj_l (t s1 s2 : string) : t +:+ s1 = t +:+ s2 -> s1 = s2.
Proof.
  induction t as [|c t IH]; [by rewrite !app_empty_l|].
  rewrite !app_String. intros [= H]. by apply IH.
Qed.

Lemma dash_not_digit (x y : string) :
  JsonFacts.all_digits (x +:+ String "-" y) = false.
Proof.
  induction x as [|c x IH]; [by rewrite app_empty_l|].
  rewrite app_String. cbn [JsonFacts.all_digits]. rewrite IH. apply andb_false_r.
Qed.

(** The text after the last dash of a name, when it is a number. *)
Lemma split_at_last_dash (s1 s2 d1 d2 : string) :
  JsonFacts.all_digits d1 = true -> JsonFacts.all_digits d2 = true ->
  s1 +:+ String "-" d1 = s2 +:+ String "-" d2 -> s1 = s2 /\ d1 = d2.
Proof.
  intros H1 H2. revert s2. induction s1 as [|c s1 IH]; intros [|c' s2] H.
  - rewrite !app_empty_l in H. by injection H.
  - rewrite app_empty_l, app_String in H. injection H as <- H.
    rewrite H, dash_not_digit in H1. done.
  - rewrite app_empty_l, app_String in H. injection H as -> H.
    rewrite <- H, dash_not_digit in H2. done.
  - rewrite !app_String in H. injection H as -> H.
    destruct (IH s2 H) as [-> ->]. done.
Qed.

Lemma dumps_int_digits (i : Z) : 0 <= i -> JsonFacts.all_digits (Json.dumps_int i) = true.
Proof.
  intros Hi. unfold Json.dumps_int. destruct i as [|p|p]; [done| |lia].
  assert (NilZero.string_of_int (Z.to_int (Z.pos p))
          = NilEmpty.string_of_uint (Pos.to_uint p)) as ->.
  { pose proof (DecimalPos.Unsigned.to_uint_nonnil p) as Hn.
    simpl. unfold NilZero.string_of_uint. by destruct (Pos.to_uint p). }
  apply JsonFacts.string_of_uint_digits.
Qed.

(** X17.  The files of the metadata cache do not get in each other's way.
    The inputs [(i,)] of a single-sequence recipe have metadata files of
    different names for different [i], and so have the inputs
    [(variable, i)] of a multi-variable recipe whose positions are the
    numbers [i >= 0].  No input file and no chunk file has the name of the
    global record, and no input file has the name of a chunk file. *)
Theorem metadata_file_names_distinct :
  (forall i j : Z,
     _input_metadata_fname [AInt i] = _input_metadata_fname [AInt j] -> i = j) /\
  (forall (v1 v2 : string) (i j : Z),
     0 <= i -> 0 <= j ->
     _input_metadata_fname [AStr v1; AInt i] = _input_metadata_fname [AStr v2; AInt j] ->
     v1 = v2 /\ i = j) /\
  (forall k, _input_metadata_fname k <> _GLOBAL_METADATA_KEY) /\
  (forall k, _chunk_metadata_fname k <> _GLOBAL_METADATA_KEY) /\
  (forall k k', _input_metadata_fname k <> _chunk_metadata_fname k').
Proof.
  split; [apply input_metadata_fname_inj|]. split; [|split; [|split]].
  - intros v1 v2 i j Hi Hj H.
    unfold _input_metadata_fname, _encode_key in H. cbn [map py_str str_join] in H.
    apply string_app_inj_l, string_app_inj_r in H.
    change (v1 +:+ "-" +:+ Json.dumps_int i) with (v1 +:+ String "-" (Json.dumps_int i)) in H.
    change (v2 +:+ "-" +:+ Json.dumps_int j) with (v2 +:+ String "-" (Json.dumps_int j)) in H.
    apply split_at_last_dash in H as [-> H]; [|by apply dumps_int_digits..].
    split; [done|]. by apply dumps_int_inj.
  - apply input_fname_not_global.
  - intros k. unfold _chunk_metadata_fname, _GLOBAL_METADATA_KEY. by rewrite !app_String.
  - intros k k'. unfold _input_metadata_fname, _chunk_metadata_fname.
    by rewrite !app_String.
Qed.

(** ** Inputs that cannot be opened *)

Section opening.
Context (xr_concat : list Dataset -> string -> result Dataset).
Context (fix_scalar_attr_encoding : Dataset -> Dataset).

(** The ways [open_input] ends for an input the recipe knows. *)
Lemma open_input_cases (r : Recipe) (w : World) (input_key : key) (fname : string) :
  PyDict.get (_inputs r) input_key = Some fname ->
  if copy_input_to_local_file r && negb (cache_input r)
  then open_input fix_scalar_attr_encoding r w input_key = Raise ValueError
  else match sources w !! fname with
       | None => open_input fix_scalar_attr_encoding r w input_key = Raise FileNotFoundError
       | Some _ => exists ds, open_input fix_scalar_attr_encoding r w input_key = Ok ds
       end.
Proof.
  intros Hk. unfold open_input, PyDict.getitem. rewrite Hk. cbn [of_option rbind].
  destruct (copy_input_to_local_file r && negb (cache_input r)); [done|].
  destruct (sources w !! fname); cbn [of_option rbind]; [by eexists|done].
Qed.

(** X18.  A chunk is opened, and stored, only if every one of its inputs
    can be opened.  For a chunk whose inputs the recipe knows:
    with [copy_input_to_local_file] set and no input cache, [open_chunk]
    raises [ValueError] before any file is looked at; otherwise, if the
    file of one of the inputs is not there, it raises [FileNotFoundError].
    In both cases [store_chunk] raises the same exception and leaves the
    target and the metadata cache as they were. *)
Theorem store_chunk_needs_every_input (r : Recipe) (w : World) (chunk_key : key)
    (inputs : list key)
    (Hinputs : inputs_for_chunk r chunk_key = Ok inputs)
    (Hnonempty : inputs <> [])
    (Hknown : forallb (fun k => bool_decide (is_Some (PyDict.get (_inputs r) k))) inputs
              = true) :
  (copy_input_to_local_file r && negb (cache_input r) = true ->
   open_chunk xr_concat fix_scalar_attr_encoding r w chunk_key = Raise ValueError /\
   _store_chunk xr_concat fix_scalar_attr_encoding r chunk_key w = (Raise ValueError, w)) /\
  (copy_input_to_local_file r && negb (cache_input r) = false ->
   (exists k fname, k ∈ inputs /\ PyDict.get (_inputs r) k = Some fname /\
                    sources w !! fname = None) ->
   open_chunk xr_concat fix_scalar_attr_encoding r w chunk_key = Raise FileNotFoundError /\
   _store_chunk xr_concat fix_scalar_attr_encoding r chunk_key w
   = (Raise FileNotFoundError, w)).
Proof.
  assert (forall k, k ∈ inputs -> exists fname, PyDict.get (_inputs r) k = Some fname)
    as Hfname.
  { intros k Hk. apply list_elem_of_In in Hk.
    pose proof (proj1 (forallb_forall _ _) Hknown k Hk) as H. cbv beta in H.
    by apply bool_decide_eq_true in H as [fname ?]; exists fname. }
  assert (forall e, open_chunk xr_concat fix_scalar_attr_encoding r w chunk_key = Raise e ->
                    _store_chunk xr_concat fix_scalar_attr_encoding r chunk_key w
                    = (Raise e, w)) as Hstore.
  { intros e He. unfold _store_chunk, bind, reading. by rewrite He. }
  split.
  - intros Hguard.
    assert (open_chunk xr_concat fix_scalar_attr_encoding r w chunk_key = Raise ValueError)
      as Hopen; [|by split; [|apply Hstore]].
    unfold open_chunk. rewrite Hinputs. cbn [rbind].
    rewrite (mapR_raises _ _ ValueError); [done| |].
    + intros k Hk. left. destruct (Hfname k Hk) as [fname Hget].
      pose proof (open_input_cases r w k fname Hget) as H. by rewrite Hguard in H.
    + destruct inputs as [|k inputs]; [done|]. exists k. split; [by left|].
      destruct (Hfname k) as [fname Hget]; [by left|].
      pose proof (open_input_cases r w k fname Hget) as H. by rewrite Hguard in H.
  - intros Hguard (k & fname & Hk & Hget & Hmissing).
    assert (open_chunk xr_concat fix_scalar_attr_encoding r w chunk_key
            = Raise FileNotFoundError) as Hopen; [|by split; [|apply Hstore]].
    unfold open_chunk. rewrite Hinputs. cbn [rbind].
    rewrite (mapR_raises _ _ FileNotFoundError); [done| |].
    + intros k' Hk'. destruct (Hfname k' Hk') as [fname' Hget'].
      pose proof (open_input_cases r w k' fname' Hget') as H. rewrite Hguard in H.
      destruct (sources w !! fname'); [by right|by left].
    + exists k. split; [done|].
      pose proof (open_input_cases r w k fname Hget) as H.
      by rewrite Hguard, Hmissing in H.
Qed.

End opening.

(** Example B with the file of the third input missing: its chunk cannot
    be stored, and the prepared target is left as it is. *)
Lemma store_chunk_needs_every_input_witness :
  _store_chunk concat_datasets id (built recipe_B) [AInt 2]
    (with_sources [("a.nc", input_file 3 0)] (prepared (built recipe_B) files_B))
  = (Raise FileNotFoundError,
     with_sources [("a.nc", input_file 3 0)] (prepared (built recipe_B) files_B)).
Proof.
  destruct (store_chunk_needs_every_input concat_datasets id (built recipe_B)
              (with_sources [("a.nc", input_file 3 0)] (prepared (built recipe_B) files_B))
              [AInt 2] [[AInt 2]]) as [_ Hmissing].
  - reflexivity.
  - discriminate.
  - reflexivity.
  - apply Hmissing; [reflexivity|].
    exists [AInt 2], "c.nc". split; [by left|]. split; vm_compute; reflexivity.
Defined.

(** ** Inputs and chunks of the multi-variable recipe *)

(** The input keys of a pattern: every position of the first variable,
    then every position of the second, and so on. *)
Definition variable_keys (variables : list string) (others : list atom) : list key :=
  concat (map (fun v => map (fun o => [AStr v; o]) others) variables).

Lemma iter_pattern_fst (p : VariableSequencePattern) :
  map fst (iter_pattern p) = variable_keys (keys_variable p) (keys_other p).
Proof.
  unfold iter_pattern, variable_keys.
  induction (keys_variable p) as [|v vs IH]; [done|].
  cbn [mbind list_bind map concat]. rewrite map_app. f_equal; [|apply IH].
  clear IH. induction (keys_other p) as [|o os IHo]; [done|]. cbn. f_equal. apply IHo.
Qed.

Lemma elem_of_concat_map {A B} (f : A -> list B) (l : list A) (y : B) :
  y ∈ concat (map f l) <-> exists x, x ∈ l /\ y ∈ f x.
Proof.
  induction l as [|x l IH]; cbn [map concat].
  - split; [intros H; by apply elem_of_nil in H|intros (x & H & _); by apply elem_of_nil in H].
  - rewrite elem_of_app, IH. split.
    + intros [H|(x' & Hx' & H)]; [exists x; split; [by left|done]|].
      exists x'. split; [by right|done].
    + intros (x' & Hx' & H). apply elem_of_cons in Hx' as [->|Hx']; [by left|].
      right. by exists x'.
Qed.

(** Lists of keys of different variables, one after the other, have no
    key twice. *)
Lemma NoDup_concat_blocks (f : string -> list key) (variables : list string) :
  NoDup variables ->
  (forall v, NoDup (f v)) ->
  (forall v k, k ∈ f v -> k !! 0%nat = Some (AStr v)) ->
  NoDup (concat (map f variables)).
Proof.
  intros Hnd Hf Hhead. induction Hnd as [|v vs Hv Hnd IH]; [apply NoDup_nil_2|].
  cbn [map concat]. apply NoDup_app. split; [apply Hf|]. split; [|done].
  intros k Hk Hin. apply elem_of_concat_map in Hin as (v' & Hv' & Hk').
  apply Hhead in Hk, Hk'. assert (v = v') as -> by congruence. done.
Qed.

Lemma positions_of_block (v v' : string) (others : list atom) :
  positions_of v (map (fun o => [AStr v'; o]) others)
  = if decide (v' = v) then others else [].
Proof.
  unfold positions_of. induction others as [|o os IH]; [by destruct (decide (v' = v))|].
  cbn [map omap list_omap]. fold (@omap list _ key atom).
  destruct (decide (v' = v)); [by f_equal|done].
Qed.

Lemma positions_of_app (v : string) (ks1 ks2 : list key) :
  positions_of v (ks1 ++ ks2) = positions_of v ks1 ++ positions_of v ks2.
Proof. unfold positions_of. apply omap_app. Qed.

Lemma variable_keys_cons (v : string) (variables : list string) (others : list atom) :
  variable_keys (v :: variables) others
  = map (fun o => [AStr v; o]) others ++ variable_keys variables others.
Proof. reflexivity. Qed.

Lemma positions_of_variable_keys (v : string) (variables : list string)
    (others : list atom) :
  NoDup variables -> v ∈ variables ->
  positions_of v (variable_keys variables others) = others.
Proof.
  assert (forall vs, v ∉ vs -> positions_of v (variable_keys vs others) = []) as Hout.
  { induction vs as [|v' vs IH]; intros Hv; [done|].
    apply not_elem_of_cons in Hv as [Hne Hv].
    rewrite variable_keys_cons, positions_of_app, IH by done.
    rewrite positions_of_block, decide_False by done. done. }
  intros Hnd. induction Hnd as [|v' vs Hv' Hnd IH]; intros Hv;
    [by apply elem_of_nil in Hv|].
  rewrite variable_keys_cons, positions_of_app, positions_of_block.
  apply elem_of_cons in Hv as [->|Hv].
  - rewrite decide_True by done. rewrite Hout by done. apply app_nil_r.
  - rewrite decide_False by (intros ->; done). by rewrite IH.
Qed.

(** The chunk dictionary and the inputs of a multi-variable recipe whose
    variables and positions are distinct. *)
Lemma multivar_post_init_shape (c : Config) (p : VariableSequencePattern) (r : Recipe) :
  multivar_post_init c p = Ok r ->
  NoDup (keys_variable p) -> NoDup (keys_other p) ->
  let batches := chunked_iterable (keys_other p) (inputs_per_chunk c) in
  let block := fun v : string =>
    map (fun q : Z * list atom => ([AStr v; AInt q.1], map (fun o => [AStr v; o]) q.2))
        (enumerate batches) in
  config r = c /\
  pattern r = MultiVar p /\
  _n_inputs_along_sequence r = Z.of_nat (length (keys_other p)) /\
  PyDict.keys (_inputs r) = variable_keys (keys_variable p) (keys_other p) /\
  _chunks_inputs r = concat (map block (keys_variable p)) /\
  NoDup (iter_chunks r).
Proof.
  intros Hr Hvars Hothers batches block.
  assert (NoDup (variable_keys (keys_variable p) (keys_other p))) as Hkeys_nd.
  { apply NoDup_concat_blocks; [done| |].
    - intros v. apply NoDup_fmap_2_strong; [|done]. intros o o' _ _ H. by injection H.
    - intros v k Hk. by apply list_elem_of_fmap in Hk as (o & -> & _). }
  assert (PyDict.keys (PyDict.of_pairs (iter_pattern p))
          = variable_keys (keys_variable p) (keys_other p)) as Hkeys.
  { rewrite pydict_of_pairs_NoDup by (by rewrite iter_pattern_fst).
    apply iter_pattern_fst. }
  assert (forall v, v ∈ keys_variable p ->
            variable_block c (PyDict.keys (PyDict.of_pairs (iter_pattern p))) v = block v)
    as Hblock.
  { intros v Hv. unfold variable_block. by rewrite Hkeys, positions_of_variable_keys. }
  assert (map (variable_block c (PyDict.keys (PyDict.of_pairs (iter_pattern p))))
              (keys_variable p)
          = map block (keys_variable p)) as Hblocks.
  { apply map_ext_in. intros v Hv. apply Hblock. by apply list_elem_of_In. }
  unfold multivar_post_init in Hr.
  destruct (base_post_init c); [|done]. cbn [rbind] in Hr.
  rewrite (multivar_chunks_inputs_shape c p Hvars), Hblocks in Hr. cbn [rbind] in Hr.
  destruct (filterR _ _); [|done]. cbn [rbind] in Hr. injection Hr as <-.
  cbn [config pattern _n_inputs_along_sequence _inputs _chunks_inputs iter_chunks].
  repeat split; try done.
  unfold iter_chunks, PyDict.keys. cbn [_chunks_inputs]. rewrite concat_map, map_map.
  apply NoDup_concat_blocks; [done| |].
  - intros v. unfold block. rewrite map_map. cbn [fst].
    rewrite <- (map_map fst (fun j => [AStr v; AInt j])), enumerate_fst.
    apply NoDup_fmap_2_strong; [|apply NoDup_seqZ]. intros i j _ _ H. by injection H.
  - intros v k Hk. unfold block in Hk. rewrite map_map in Hk.
    by apply list_elem_of_fmap in Hk as (q & -> & _).
Qed.

(** A chunk of the multi-variable recipe: its key, and its inputs. *)
Lemma multivar_chunk_members (c : Config) (p : VariableSequencePattern) (r : Recipe)
    (chunk_key : key) :
  multivar_post_init c p = Ok r ->
  NoDup (keys_variable p) -> NoDup (keys_other p) -> 0 < inputs_per_chunk c ->
  chunk_key ∈ iter_chunks r ->
  exists v j inputs,
    chunk_key = [AStr v; AInt j] /\ v ∈ keys_variable p /\
    inputs_for_chunk r chunk_key = Ok inputs /\
    inputs <> [] /\
    Z.of_nat (length inputs) <= inputs_per_chunk c /\
    forall k, k ∈ inputs -> exists o, k = [AStr v; o] /\ o ∈ keys_other p.
Proof.
  intros Hr Hvars Hothers Hsize Hck.
  destruct (multivar_post_init_shape c p r Hr Hvars Hothers)
    as (_ & _ & _ & _ & Hd & Hnd).
  set (batches := chunked_iterable (keys_other p) (inputs_per_chunk c)) in *.
  assert (concat batches = keys_other p) as Hcat.
  { unfold batches, chunked_iterable. apply chunks_of_concat. lia. }
  unfold iter_chunks, PyDict.keys in Hck.
  apply list_elem_of_fmap in Hck as (q & -> & Hq).
  assert (inputs_for_chunk r q.1 = Ok q.2) as Hin.
  { unfold inputs_for_chunk, PyDict.getitem.
    rewrite (pydict_get_elem (_chunks_inputs r) q.1 q.2 Hnd); [done|by destruct q]. }
  rewrite Hd in Hq.
  apply elem_of_concat_map in Hq as (v & Hv & Hq).
  apply list_elem_of_fmap in Hq as ([j b] & -> & Hjb).
  cbn [fst snd] in *.
  assert (b ∈ batches) as Hb.
  { rewrite <- (enumerate_snd batches). apply list_elem_of_fmap. by exists (j, b). }
  exists v, j, (map (fun o => [AStr v; o]) b). split; [done|]. split; [done|].
  split; [done|]. split; [|split].
  - pose proof (chunks_of_elem_nonempty _ _ _ Hb). by destruct b.
  - rewrite length_map. apply chunks_of_elem_length in Hb. lia.
  - intros k Hk. apply list_elem_of_fmap in Hk as (o & -> & Ho).
    exists o. split; [done|]. rewrite <- Hcat. by apply (elem_of_concat_group _ b).
Qed.

Lemma concat_map_map {A B} (f : A -> B) (ls : list (list A)) :
  concat (map (map f) ls) = map f (concat ls).
Proof. by rewrite concat_map. Qed.

(** X19.  The chunks of a multi-variable recipe with distinct variables,
    distinct positions and a positive [inputs_per_chunk] partition its
    inputs: [iter_inputs] yields exactly the keys of [_inputs], each once
    and in their order, variable after variable.  Every chunk key is a
    pair [(variable, j)]; its inputs are inputs of that one variable, at
    least one and at most [inputs_per_chunk] of them. *)
Theorem multivar_chunks_partition_inputs (c : Config) (p : VariableSequencePattern)
    (r : Recipe)
    (Hr : multivar_post_init c p = Ok r)
    (Hvars : NoDup (keys_variable p))
    (Hothers : NoDup (keys_other p))
    (Hsize : 0 < inputs_per_chunk c) :
  iter_inputs r = Ok (PyDict.keys (_inputs r)) /\
  NoDup (PyDict.keys (_inputs r)) /\
  PyDict.keys (_inputs r) = variable_keys (keys_variable p) (keys_other p) /\
  forall chunk_key, chunk_key ∈ iter_chunks r ->
    exists v j inputs,
      chunk_key = [AStr v; AInt j] /\ v ∈ keys_variable p /\
      inputs_for_chunk r chunk_key = Ok inputs /\
      inputs <> [] /\
      Z.of_nat (length inputs) <= inputs_per_chunk c /\
      forall k, k ∈ inputs -> exists o, k = [AStr v; o] /\ o ∈ keys_other p.
Proof.
  destruct (multivar_post_init_shape c p r Hr Hvars Hothers)
    as (_ & _ & _ & Hkeys & Hd & Hnd).
  set (batches := chunked_iterable (keys_other p) (inputs_per_chunk c)) in *.
  set (block := fun v : string =>
         map (fun q : Z * list atom => ([AStr v; AInt q.1], map (fun o => [AStr v; o]) q.2))
             (enumerate batches)) in *.
  assert (forall q, q ∈ _chunks_inputs r -> inputs_for_chunk r q.1 = Ok q.2) as Hget.
  { intros q Hq. unfold inputs_for_chunk, PyDict.getitem.
    rewrite (pydict_get_elem (_chunks_inputs r) q.1 q.2 Hnd); [done|by destruct q]. }
  assert (concat batches = keys_other p) as Hcat.
  { unfold batches, chunked_iterable. apply chunks_of_concat. lia. }
  split; [|split; [|split; [done|]]].
  - unfold iter_inputs, iter_chunks. rewrite (mapR_keys (inputs_for_chunk r) snd) by done.
    cbn [rbind]. f_equal. rewrite Hkeys, Hd. unfold variable_keys.
    clear Hd Hget Hnd Hkeys Hr.
    induction (keys_variable p) as [|v vs IH]; [done|].
    cbn [map concat]. rewrite map_app, concat_app. f_equal; [|apply IH; by inversion Hvars].
    unfold block. rewrite map_map. cbn [snd].
    rewrite <- (map_map snd (map (fun o => [AStr v; o]))), enumerate_snd.
    by rewrite concat_map_map, Hcat.
  - rewrite Hkeys. apply NoDup_concat_blocks; [done| |].
    + intros v. apply NoDup_fmap_2_strong; [|done]. intros o o' _ _ H. by injection H.
    + intros v k Hk. by apply list_elem_of_fmap in Hk as (o & -> & _).
  - intros ck Hck. by apply (multivar_chunk_members c p r ck).
Qed.

(** Example C: eight inputs in four chunks. *)
Lemma multivar_chunks_partition_inputs_witness :
  iter_inputs (built recipe_C)
  = Ok [[AStr "temp"; AInt 0]; [AStr "temp"; AInt 1]; [AStr "temp"; AInt 2];
        [AStr "temp"; AInt 3]; [AStr "salt"; AInt 0]; [AStr "salt"; AInt 1];
        [AStr "salt"; AInt 2]; [AStr "salt"; AInt 3]] /\
  inputs_for_chunk (built recipe_C) [AStr "salt"; AInt 1]
  = Ok [[AStr "salt"; AInt 2]; [AStr "salt"; AInt 3]].
Proof.
  destruct (multivar_chunks_partition_inputs (example_config "time" 2 (Some 1) [])
              pattern_C (built recipe_C)) as (Hiter & _).
  - vm_compute; reflexivity.
  - apply (bool_decide_unpack (NoDup (keys_variable pattern_C))). vm_compute. exact I.
  - apply (bool_decide_unpack (NoDup (keys_other pattern_C))). vm_compute. exact I.
  - reflexivity.
  - split; [exact Hiter|vm_compute; reflexivity].
Defined.

(** X20.  With a constant, non-zero [nitems_per_input] the write region of
    a chunk [(variable, j)] of a multi-variable recipe is
    [[j * stride, j * stride + stride)] with
    [stride = nitems_per_input * inputs_per_chunk], in any state of the
    metadata cache and of the target: the region depends on the position
    [j] alone, so the chunks at one position get the same region for
    every variable. *)
Theorem multivar_regions_fixed_stride (c : Config) (p : VariableSequencePattern)
    (r : Recipe) (w : World) (nitems : Z) (v : string) (j : Z)
    (Hr : multivar_post_init c p = Ok r)
    (Hvars : NoDup (keys_variable p))
    (Hothers : NoDup (keys_other p))
    (Hsize : 0 < inputs_per_chunk c)
    (Hn : nitems_per_input c = Some nitems)
    (Hnz : nitems <> 0)
    (Hchunk : [AStr v; AInt j] ∈ iter_chunks r) :
  region_for_chunk r w [AStr v; AInt j]
  = Ok (sequence_dim c,
        (j * (nitems * inputs_per_chunk c),
         j * (nitems * inputs_per_chunk c) + nitems * inputs_per_chunk c)).
Proof.
  destruct (multivar_post_init_shape c p r Hr Hvars Hothers)
    as (Hc & Hpat & Hnin & _).
  destruct (multivar_chunk_members c p r _ Hr Hvars Hothers Hsize Hchunk)
    as (v' & j' & inputs & Hkey & _ & Hin & _ & _ & Hmem).
  unfold region_for_chunk, region_and_conflicts_for_chunk.
  rewrite Hin, Hc, Hn. cbn [rbind truthy default from_option id].
  rewrite (proj2 (Z.eqb_neq nitems 0) Hnz). cbn [negb].
  assert (chunk_position r [AStr v; AInt j] = Ok j) as ->.
  { unfold chunk_position. by rewrite Hpat. }
  cbn [rbind].
  match goal with
  | |- context [mapR ?f inputs] => destruct (mapR_Ok_all f inputs) as (cs & -> & _)
  end; [|done].
  intros k Hk. destruct (Hmem k Hk) as (o & -> & Ho).
  unfold input_position. rewrite Hpat.
  change (key_get [AStr v'; o] 1) with (Ok o : result atom). cbn [rbind].
  destruct (list_index_Ok o (keys_other p) Ho) as [i Hi]. rewrite Hi.
  apply list_index_bound in Hi as Hbound. cbn [rbind].
  match goal with
  | |- context [py_index ?table i] => destruct (py_index_in_range table i) as (x & _ & ->)
  end; [|by eexists].
  rewrite calc_chunk_conflicts_length, length_replicate, Hnin, Nat2Z.id. lia.
Qed.

(** Example C: the second chunks of both variables are written to
    [[2, 4)]. *)
Lemma multivar_regions_fixed_stride_witness :
  region_for_chunk (built recipe_C) empty_world [AStr "temp"; AInt 1] = Ok ("time", (2, 4)) /\
  region_for_chunk (built recipe_C) empty_world [AStr "salt"; AInt 1] = Ok ("time", (2, 4)).
Proof.
  split.
  - apply (multivar_regions_fixed_stride (example_config "time" 2 (Some 1) [])
             pattern_C (built recipe_C) empty_world 1 "temp" 1).
    + vm_compute; reflexivity.
    + apply (bool_decide_unpack (NoDup (keys_variable pattern_C))). vm_compute. exact I.
    + apply (bool_decide_unpack (NoDup (keys_other pattern_C))). vm_compute. exact I.
    + reflexivity.
    + reflexivity.
    + discriminate.
    + apply (bool_decide_unpack ([AStr "temp"; AInt 1] ∈ iter_chunks (built recipe_C))).
      vm_compute. exact I.
  - apply (multivar_regions_fixed_stride (example_config "time" 2 (Some 1) [])
             pattern_C (built recipe_C) empty_world 1 "salt" 1).
    + vm_compute; reflexivity.
    + apply (bool_decide_unpack (NoDup (keys_variable pattern_C))). vm_compute. exact I.
    + apply (bool_decide_unpack (NoDup (keys_other pattern_C))). vm_compute. exact I.
    + reflexivity.
    + reflexivity.
    + discriminate.
    + apply (bool_decide_unpack ([AStr "salt"; AInt 1] ∈ iter_chunks (built recipe_C))).
      vm_compute. exact I.
Defined.

(** ** Write regions of the multi-variable recipe, variable by variable *)

(** The chunks of one variable in the chunk dictionary. *)
Definition chunks_of_variable (r : Recipe) (v : string) : list (key * list key) :=
  filter (fun q : key * list key => q.1 !! 0%nat = Some (AStr v))
         (_chunks_inputs r : list (key * list key)).

(** The length an input key [(variable, o)] has in a list of lengths: the
    one at the place [o] has among the positions. *)
Definition position_length (lens : list Z) (others : list atom) (k : key) : Z :=
  match k with
  | [AStr _; o] =>
      match list_index o others with
      | Ok i => default 0 (lens !! Z.to_nat i)
      | Raise _ => 0
      end
  | _ => 0
  end.

Lemma list_index_lookup `{EqDecision A} (l : list A) (n : nat) (x : A) :
  NoDup l -> l !! n = Some x -> list_index x l = Ok (Z.of_nat n).
Proof.
  intros Hnd. revert n. induction Hnd as [|y l Hy Hnd IH]; intros n Hn; [done|].
  cbn [list_index]. destruct n as [|n]; cbn in Hn.
  - injection Hn as ->. by rewrite decide_True.
  - rewrite decide_False.
    + rewrite (IH n Hn). f_equal. lia.
    + intros ->. apply Hy. by apply (list_elem_of_lookup_2 l n).
Qed.

Lemma position_length_others (lens : list Z) (others : list atom) (v : string) :
  NoDup others -> length lens = length others ->
  map (position_length lens others) (map (fun o => [AStr v; o]) others) = lens.
Proof.
  intros Hnd Hlen. rewrite map_map. apply list_eq. intros i.
  rewrite list_lookup_fmap.
  destruct (others !! i) as [o|] eqn:Ho; cbn [fmap option_fmap option_map].
  - unfold position_length. rewrite (list_index_lookup others i o Hnd Ho), Nat2Z.id.
    apply lookup_lt_Some in Ho.
    destruct (lookup_lt_is_Some_2 lens i) as [x ->]; [lia|done].
  - symmetry. apply lookup_ge_None. apply lookup_ge_None in Ho. lia.
Qed.

Lemma filter_variable_block (v v' : string) (l : list (Z * list atom)) :
  filter (fun q : key * list key => q.1 !! 0%nat = Some (AStr v))
         (map (fun q : Z * list atom =>
                 ([AStr v'; AInt q.1], map (fun o => [AStr v'; o]) q.2)) l)
  = if decide (v' = v)
    then map (fun q : Z * list atom =>
                ([AStr v'; AInt q.1], map (fun o => [AStr v'; o]) q.2)) l
    else [].
Proof.
  induction l as [|a l IH]; [by destruct (decide (v' = v))|].
  cbn [map]. rewrite filter_cons, IH. cbn [fst lookup list_lookup].
  destruct (decide (v' = v)) as [->|Hne].
  - by rewrite decide_True.
  - rewrite decide_False; [done|]. intros [= ->]. done.
Qed.

Lemma chunks_of_variable_block (c : Config) (p : VariableSequencePattern) (r : Recipe)
    (v : string) :
  multivar_post_init c p = Ok r ->
  NoDup (keys_variable p) -> NoDup (keys_other p) -> v ∈ keys_variable p ->
  chunks_of_variable r v
  = map (fun q : Z * list atom => ([AStr v; AInt q.1], map (fun o => [AStr v; o]) q.2))
        (enumerate (chunked_iterable (keys_other p) (inputs_per_chunk c))).
Proof.
  intros Hr Hvars Hothers Hv.
  destruct (multivar_post_init_shape c p r Hr Hvars Hothers) as (_ & _ & _ & _ & Hd & _).
  unfold chunks_of_variable. rewrite Hd. clear Hd Hr.
  set (l := enumerate (chunked_iterable (keys_other p) (inputs_per_chunk c))).
  induction Hvars as [|v' vs Hv' Hvars IH]; [by apply elem_of_nil in Hv|].
  rewrite map_cons, concat_cons, filter_app, filter_variable_block.
  apply elem_of_cons in Hv as [->|Hv].
  - rewrite decide_True by done.
    assert (filter (fun q : key * list key => q.1 !! 0%nat = Some (AStr v'))
              (concat (map (fun v : string =>
                 map (fun q : Z * list atom =>
                        ([AStr v; AInt q.1], map (fun o => [AStr v; o]) q.2)) l) vs))
            = []) as ->; [|apply app_nil_r].
    clear IH Hvars. induction vs as [|v0 vs IH]; [done|].
    apply not_elem_of_cons in Hv' as [Hne Hv'].
    rewrite map_cons, concat_cons, filter_app, filter_variable_block.
    rewrite decide_False by done. by apply IH.
  - rewrite decide_False by (intros ->; done). by apply IH.
Qed.

Section multivar_regions.
Context (c : Config) (p : VariableSequencePattern) (r : Recipe) (w : World).
Context (lens : list Z).
Hypothesis Hr : multivar_post_init c p = Ok r.
Hypothesis Hvars : NoDup (keys_variable p).
Hypothesis Hothers : NoDup (keys_other p).
Hypothesis Hsize : 0 < inputs_per_chunk c.
Hypothesis Hn : truthy (nitems_per_input c) = false.
Hypothesis Hg : global_input_sequence_lens w = Ok lens.
Hypothesis Hlen : length lens = length (keys_other p).

(** The region of the chunk that holds the batch [b] of positions, after
    the batches [before]. *)
Lemma multivar_region_after (v : string) (j : Z) (b : list atom)
    (before after : list (list atom)) :
  v ∈ keys_variable p ->
  [AStr v; AInt j] ∈ iter_chunks r ->
  inputs_for_chunk r [AStr v; AInt j] = Ok (map (fun o => [AStr v; o]) b) ->
  chunked_iterable (keys_other p) (inputs_per_chunk c) = before ++ b :: after ->
  region_for_chunk r w [AStr v; AInt j]
  = Ok (sequence_dim c,
        (sum (map (position_length lens (keys_other p))
                  (map (fun o => [AStr v; o]) (concat before))),
         sum (map (position_length lens (keys_other p))
                  (map (fun o => [AStr v; o]) (concat before)))
         + sum (map (position_length lens (keys_other p))
                    (map (fun o => [AStr v; o]) b)))).
Proof.
  intros Hv Hck Hin Hsplit.
  destruct (multivar_post_init_shape c p r Hr Hvars Hothers) as (Hc & Hpat & Hnin & _).
  assert (keys_other p = concat before ++ b ++ concat after) as Hcat.
  { rewrite <- (chunks_of_concat (Z.to_nat (inputs_per_chunk c)) (keys_other p)) at 1
      by lia.
    fold (chunked_iterable (keys_other p) (inputs_per_chunk c)).
    rewrite Hsplit, concat_app. done. }
  assert (b <> []) as Hne.
  { apply (chunks_of_elem_nonempty (Z.to_nat (inputs_per_chunk c)) (keys_other p)).
    fold (chunked_iterable (keys_other p) (inputs_per_chunk c)).
    rewrite Hsplit. apply elem_of_app. right. by left. }
  destruct b as [|o0 rest]; [done|].
  assert (forall o, o ∈ o0 :: rest ->
            exists i x, list_index o (keys_other p) = Ok i /\
                        0 <= i < Z.of_nat (length lens) /\
                        lens !! Z.to_nat i = Some x /\ py_index lens i = Ok x) as Hpos.
  { intros o Ho.
    assert (o ∈ keys_other p) as Hin_o.
    { rewrite Hcat. apply elem_of_app. right. apply elem_of_app. by left. }
    destruct (list_index_Ok o (keys_other p) Hin_o) as [i Hi].
    pose proof (list_index_bound _ _ _ Hi) as Hb. rewrite <- Hlen in Hb.
    destruct (py_index_in_range lens i Hb) as (x & Hx & Hpy). by exists i, x. }
  assert (list_index o0 (keys_other p) = Ok (Z.of_nat (length (concat before)))) as Hi0.
  { apply list_index_lookup; [done|]. rewrite Hcat. by apply list_lookup_middle. }
  unfold region_for_chunk, region_and_conflicts_for_chunk.
  rewrite Hin, Hc, Hn, Hg. cbn [rbind map].
  change (py_index ([AStr v; o0] :: map (fun o => [AStr v; o]) rest) 0)
    with (Ok [AStr v; o0] : result key).
  cbn [rbind].
  assert (forall o, input_position r [AStr v; o] = list_index o (keys_other p)) as Hip.
  { intros o. unfold input_position. by rewrite Hpat. }
  rewrite Hip, Hi0. cbn [rbind].
  change ([AStr v; o0] :: map (fun o => [AStr v; o]) rest)
    with (map (fun o => [AStr v; o]) (o0 :: rest)).
  rewrite (mapR_Ok_map _ (position_length lens (keys_other p))).
  2:{ intros k Hk. apply list_elem_of_fmap in Hk as (o & -> & Ho).
      destruct (Hpos o Ho) as (i & x & Hi & _ & Hx & Hpy).
      rewrite Hip, Hi. cbn [rbind]. rewrite Hpy. unfold position_length.
      by rewrite Hi, Hx. }
  cbn [rbind].
  match goal with
  | |- context [mapR ?f (map ?g (o0 :: rest))] =>
      destruct (mapR_Ok_all f (map g (o0 :: rest))) as (cs & -> & _)
  end.
  { intros k Hk. apply list_elem_of_fmap in Hk as (o & -> & Ho).
    destruct (Hpos o Ho) as (i & x & Hi & Hb & _).
    rewrite Hip, Hi. cbn [rbind].
    match goal with
    | |- context [py_index ?table i] =>
        destruct (py_index_in_range table i) as (y & _ & ->)
    end; [|by eexists].
    by rewrite calc_chunk_conflicts_length. }
  cbn [rbind fst]. unfold py_slice_to.
  destruct (Z.ltb_spec (Z.of_nat (length (concat before))) 0); [lia|].
  rewrite Nat2Z.id.
  assert (map (position_length lens (keys_other p))
              (map (fun o => [AStr v; o]) (concat before))
          = take (length (concat before)) lens) as ->; [|done].
  rewrite <- (position_length_others lens (keys_other p) v Hothers Hlen) at 2.
  rewrite <- !fmap_take. do 2 f_equal.
  rewrite Hcat at 1. by rewrite take_app_length.
Qed.

(** X21.  With the lengths read from the global metadata record, one per
    position, the write regions of the chunks of each variable of a
    multi-variable recipe (distinct variables, distinct positions,
    positive [inputs_per_chunk]) are consecutive half-open intervals, in
    the order of the chunks: the first starts at 0, each is as long as the
    recorded lengths of the positions of its chunk, each starts where the
    one before stops, and the last stops at the sum of the recorded
    lengths.  Every variable covers the whole sequence axis this way. *)
Theorem multivar_regions_tile (v : string) (Hv : v ∈ keys_variable p) :
  mapR (region_for_chunk r w) (PyDict.keys (chunks_of_variable r v))
  = Ok (map (fun b => (sequence_dim c, b))
            (bounds_from 0
               (map (fun inputs => sum (map (position_length lens (keys_other p)) inputs))
                    (PyDict.values (chunks_of_variable r v))))) /\
  sum (map (fun inputs => sum (map (position_length lens (keys_other p)) inputs))
           (PyDict.values (chunks_of_variable r v)))
  = sum lens.
Proof.
  rewrite (chunks_of_variable_block c p r v Hr Hvars Hothers Hv).
  set (batches := chunked_iterable (keys_other p) (inputs_per_chunk c)).
  set (block := map (fun q : Z * list atom =>
                       ([AStr v; AInt q.1], map (fun o => [AStr v; o]) q.2))
                    (enumerate batches)).
  assert (PyDict.values block = map (map (fun o => [AStr v; o])) batches) as Hvalues.
  { unfold PyDict.values, block. rewrite map_map. cbn [snd].
    by rewrite <- (map_map snd (map (fun o => [AStr v; o]))), enumerate_snd. }
  split.
  - apply (regions_in_order (region_for_chunk r w) (sequence_dim c)
             (fun inputs => sum (map (position_length lens (keys_other p)) inputs))
             block []).
    intros before q after Hsplit. cbn [app].
    assert (q ∈ chunks_of_variable r v) as Hq.
    { rewrite (chunks_of_variable_block c p r v Hr Hvars Hothers Hv).
      fold batches. fold block. rewrite Hsplit. apply elem_of_app. right. by left. }
    apply list_elem_of_filter in Hq as [_ Hq].
    assert (q.1 ∈ iter_chunks r) as Hck.
    { unfold iter_chunks, PyDict.keys. apply list_elem_of_fmap. by exists q. }
    destruct (multivar_post_init_shape c p r Hr Hvars Hothers) as (_ & _ & _ & _ & _ & Hnd).
    assert (inputs_for_chunk r q.1 = Ok q.2) as Hin.
    { unfold inputs_for_chunk, PyDict.getitem.
      rewrite (pydict_get_elem (_chunks_inputs r) q.1 q.2 Hnd); [done|by destruct q]. }
    unfold block in Hsplit.
    apply fmap_app_inv in Hsplit as (eb & ea' & -> & Hrest & Henum).
    symmetry in Hrest. apply fmap_cons_inv in Hrest as ([j b] & ea & -> & -> & ->).
    cbn [fst snd] in *.
    assert (batches = map snd eb ++ b :: map snd ea) as Hbatches.
    { rewrite <- (enumerate_snd batches), Henum, map_app. done. }
    rewrite (multivar_region_after v j b (map snd eb) (map snd ea) Hv Hck Hin Hbatches).
    unfold PyDict.values. rewrite !map_map. cbn [snd].
    rewrite <- (map_map snd (fun b0 => sum (map (position_length lens (keys_other p))
                                              (map (fun o => [AStr v; o]) b0)))).
    rewrite <- (map_map (map (fun o => [AStr v; o]))
                  (fun inputs => sum (map (position_length lens (keys_other p)) inputs))).
    rewrite (sum_concat_map (position_length lens (keys_other p))).
    by rewrite concat_map_map, map_map.
  - rewrite Hvalues.
    rewrite (sum_concat_map (position_length lens (keys_other p))), concat_map_map.
    unfold batches, chunked_iterable. rewrite chunks_of_concat by lia.
    by rewrite position_length_others.
Qed.

End multivar_regions.

(** Two variables at four positions of lengths 3, 4, 2 and 5, two
    positions per chunk: the chunks of each variable are written to
    [[0, 7)] and [[7, 14)]. *)
Lemma multivar_regions_tile_witness :
  mapR (region_for_chunk
          (built (multivar_post_init (example_config "time" 2 None [("time", 2)]) pattern_C))
          (with_metadata
             {[ _GLOBAL_METADATA_KEY :=
                  Json.dumps (Json.JDict [("input_sequence_lens",
                                           Json.JList (map Json.JInt [3; 4; 2; 5]))]) ]}
             empty_world))
       [[AStr "salt"; AInt 0]; [AStr "salt"; AInt 1]]
  = Ok [("time", (0, 7)); ("time", (7, 14))] /\
  7 + 7 = sum [3; 4; 2; 5].
Proof.
  assert ("salt" ∈ keys_variable pattern_C) as Hv.
  { apply (bool_decide_unpack ("salt" ∈ keys_variable pattern_C)). vm_compute. exact I. }
  assert (NoDup (keys_variable pattern_C)) as Hvars.
  { apply (bool_decide_unpack (NoDup (keys_variable pattern_C))). vm_compute. exact I. }
  assert (NoDup (keys_other pattern_C)) as Hothers.
  { apply (bool_decide_unpack (NoDup (keys_other pattern_C))). vm_compute. exact I. }
  apply (fun Hr Hsize Hn Hg Hlen =>
           multivar_regions_tile
             (example_config "time" 2 None [("time", 2)]) pattern_C
             (built (multivar_post_init (example_config "time" 2 None [("time", 2)])
                       pattern_C))
             (with_metadata
                {[ _GLOBAL_METADATA_KEY :=
                     Json.dumps (Json.JDict [("input_sequence_lens",
                                              Json.JList (map Json.JInt [3; 4; 2; 5]))]) ]}
                empty_world)
             [3; 4; 2; 5] Hr Hvars Hothers Hsize Hn Hg Hlen "salt" Hv).
  - vm_compute; reflexivity.
  - reflexivity.
  - reflexivity.
  - vm_compute; reflexivity.
  - reflexivity.
Defined.
